(** * The MSDS-sheet scraper: a shallow embedding of [main.go]

    The repository holds two variants of one linear pipeline
    (fetch page, extract links, filter, download each).  The first
    variant downloads under the raw link name; the second one sanitises
    the name with [urlToFilename] and has a longer extension allow-list.

    Go strings are byte sequences and are modelled as [string] (a list of
    8-bit [ascii]).  The operating system, the network and the Unicode
    case tables are outside the repository: the file system is a finite
    map from cleaned paths to nodes, the network and the injected system
    call failures are oracles of an environment record, and the Unicode
    lower-casing of non-ASCII text is a parameter. *)

From Stdlib Require Import String Ascii List Bool Arith ZArith Lia.
From stdpp Require Import gmap strings.
Import ListNotations.

Local Open Scope list_scope.
Local Open Scope string_scope.

(* Let [simpl] compute [++] on strings, which stdpp switches off. *)
#[local] Arguments String.append !s1 s2 : simpl nomatch.

(** ** The Go standard-library functions the program calls *)

(** [strings.Map(unicode.ToLower, s)], the path [strings.ToLower] takes
    when [s] holds a byte outside ASCII.  The Unicode tables are not part
    of the repository, so this mapping is a parameter of the model. *)
Class UnicodeTable := mapUnicodeToLower : string -> string.

Module GoLib.

Definition byteBetween (lo hi c : ascii) : bool :=
  (N_of_ascii lo <=? N_of_ascii c)%N && (N_of_ascii c <=? N_of_ascii hi)%N.

Definition isUpperASCII (c : ascii) : bool := byteBetween "A" "Z" c.

(** The character class [a-z0-9] of the first pattern of [urlToFilename]. *)
Definition isLowerAlnum (c : ascii) : bool :=
  byteBetween "a" "z" c || byteBetween "0" "9" c.

(** [c < utf8.RuneSelf] *)
Definition isASCIIByte (c : ascii) : bool := (N_of_ascii c <? 128)%N.

(** [c += 'a' - 'A'] on an upper-case ASCII letter. *)
Definition lowerASCIIByte (c : ascii) : ascii :=
  if isUpperASCII c then ascii_of_N (N_of_ascii c + 32) else c.

Fixpoint allBytes (p : ascii -> bool) (s : string) : bool :=
  match s with
  | EmptyString => true
  | String c rest => p c && allBytes p rest
  end.

Fixpoint mapBytes (f : ascii -> ascii) (s : string) : string :=
  match s with
  | EmptyString => EmptyString
  | String c rest => String (f c) (mapBytes f rest)
  end.

(** [strings.ToLower]: byte-wise on an all-ASCII string, through the
    Unicode tables otherwise. *)
Definition ToLower `{UnicodeTable} (s : string) : string :=
  if allBytes isASCIIByte s then mapBytes lowerASCIIByte s
  else mapUnicodeToLower s.

(** [strings.HasPrefix(s, prefix)]:
    [len(s) >= len(prefix) && s[:len(prefix)] == prefix], byte by byte. *)
Fixpoint HasPrefix (s prefix : string) {struct prefix} : bool :=
  match prefix with
  | EmptyString => true
  | String p prefix' =>
      match s with
      | EmptyString => false
      | String c s' => Ascii.eqb c p && HasPrefix s' prefix'
      end
  end.

(** [strings.HasSuffix(s, suffix)]:
    [len(s) >= len(suffix) && s[len(s)-len(suffix):] == suffix] *)
Definition HasSuffix (s suffix : string) : bool :=
  (String.length suffix <=? String.length s)%nat
  && String.eqb
       (substring (String.length s - String.length suffix) (String.length suffix) s)
       suffix.

(** [strings.CutPrefix(s, prefix)] *)
Definition CutPrefix (s prefix : string) : string * bool :=
  if HasPrefix s prefix
  then (substring (String.length prefix) (String.length s - String.length prefix) s, true)
  else (s, false).

(** [regexp.MustCompile(`[cls]+`).ReplaceAllString(s, repl)] for a
    pattern that is one character class under [+], and a replacement
    without [$]: every maximal run of bytes of the class becomes one
    [repl].  [inRun] records that the previous byte was in the class.
    For the two classes used here a byte-wise scan agrees with Go's
    rune-wise one: every byte of a multi-byte or invalid sequence is
    outside [a-z0-9] and differs from the underscore. *)
Fixpoint replaceRuns (cls : ascii -> bool) (repl : string) (inRun : bool)
         (s : string) : string :=
  match s with
  | EmptyString => EmptyString
  | String c rest =>
      if cls c then
        if inRun then replaceRuns cls repl true rest
        else repl ++ replaceRuns cls repl true rest
      else String c (replaceRuns cls repl false rest)
  end.

Definition ReplaceAllString (cls : ascii -> bool) (s repl : string) : string :=
  replaceRuns cls repl false s.

(** [filepath.Ext]: the loop
    [for i := len(path)-1; i >= 0 && !IsPathSeparator(path[i]); i--]
    returning [path[i:]] at the first dot.  [revPath] is the part still
    to scan, last byte first; [seen] is [path[i+1:]]. *)
Fixpoint extScan (revPath : list ascii) (seen : string) : string :=
  match revPath with
  | [] => ""
  | c :: before =>
      if Ascii.eqb c "/" then ""
      else if Ascii.eqb c "." then String c seen
      else extScan before (String c seen)
  end.

Definition Ext (path : string) : string :=
  extScan (List.rev (list_ascii_of_string path)) "".

(** [strings.Split(s, string(sep))] for a one-byte separator. *)
Fixpoint splitOn (sep : ascii) (s : string) : list string :=
  match s with
  | EmptyString => [""]
  | String c rest =>
      if Ascii.eqb c sep then "" :: splitOn sep rest
      else match splitOn sep rest with
           | first :: others => String c first :: others
           | [] => [String c ""]
           end
  end.

(** [strings.Join(elems, sep)] *)
Fixpoint joinWith (sep : string) (elems : list string) : string :=
  match elems with
  | [] => ""
  | [e] => e
  | e :: rest => e ++ sep ++ joinWith sep rest
  end.

(** One path element of the loop of [filepath.Clean].  [out] is the
    output buffer as a stack of elements, the last one first: empty and
    [.] elements are dropped, [..] removes the last real element, is
    kept in front of a relative path, and is dropped at the root. *)
Definition cleanStep (rooted : bool) (out : list string) (elem : string)
  : list string :=
  if String.eqb elem "" || String.eqb elem "." then out
  else if String.eqb elem ".." then
    match out with
    | last :: before =>
        if String.eqb last ".." then elem :: out else before
    | [] => if rooted then out else [elem]
    end
  else elem :: out.

(** [filepath.Clean] on a system whose separator is the slash. *)
Definition Clean (path : string) : string :=
  if String.eqb path "" then "."
  else
    let rooted := HasPrefix path "/" in
    let out := fold_left (cleanStep rooted) (splitOn "/" path) [] in
    let cleaned := (if rooted then "/" else "") ++ joinWith "/" (List.rev out) in
    if String.eqb cleaned "" then "." else cleaned.

(** [filepath.Join]: the elements from the first non-empty one on,
    joined by the separator and cleaned; the empty string when every
    element is empty. *)
Fixpoint Join (elem : list string) : string :=
  match elem with
  | [] => ""
  | e :: rest =>
      if String.eqb e "" then Join rest
      else Clean (joinWith "/" elem)
  end.

(** [path[:i+1]] for the index [i] of the last separator, as
    [filepath.Dir] computes it before cleaning. *)
Fixpoint dropLastElem (revPath : list ascii) : list ascii :=
  match revPath with
  | [] => []
  | c :: before => if Ascii.eqb c "/" then revPath else dropLastElem before
  end.

(** [filepath.Dir] *)
Definition Dir (path : string) : string :=
  Clean (string_of_list_ascii
           (List.rev (dropLastElem (List.rev (list_ascii_of_string path))))).

End GoLib.

Import GoLib.

(** ** The link filter (identical in both variants) *)

(** The loop of [filterFiles]: [files] grows by [append] for every link
    that is not skipped by [continue]. *)
Definition filterFiles (links : list string) : list string :=
  fold_left
    (fun files link =>
       if HasPrefix link "/" || HasSuffix link "/" then files
       else (files ++ [link])%list)
    links [].

(** ** The name sanitiser of the second variant *)

Section Sanitizer.
Context `{UnicodeTable}.

Definition getFileExtension (path : string) : string := Ext path.

Definition notLowerAlnum (c : ascii) : bool := negb (isLowerAlnum c).
Definition isUnderscore (c : ascii) : bool := Ascii.eqb c "_".

(** The part of [urlToFilename] before the extension test. *)
Definition safeName (rawURL : string) : string :=
  let lower := ToLower rawURL in
  let safe := ReplaceAllString notLowerAlnum lower "_" in
  let safe := ReplaceAllString isUnderscore safe "_" in
  match CutPrefix safe "_" with
  | (after, true) => after
  | (_, false) => safe
  end.

Definition urlToFilename (rawURL : string) : string :=
  let safe := safeName rawURL in
  if negb (String.eqb (getFileExtension safe) ".pdf") then safe ++ ".pdf"
  else safe.

End Sanitizer.

(** ** Parsed documents: [html.Node] and link extraction *)

Module html.

Inductive NodeType :=
| ErrorNode | TextNode | DocumentNode | ElementNode
| CommentNode | DoctypeNode | RawNode.

Definition NodeType_eqb (a b : NodeType) : bool :=
  match a, b with
  | ErrorNode, ErrorNode | TextNode, TextNode | DocumentNode, DocumentNode
  | ElementNode, ElementNode | CommentNode, CommentNode
  | DoctypeNode, DoctypeNode | RawNode, RawNode => true
  | _, _ => false
  end.

Record Attribute := { Namespace : string; Key : string; Val : string }.

(** A node with its children, first child first: the list stands for
    the chain [FirstChild], [NextSibling], ... of the Go structure. *)
#[warnings="-register-all"]
Inductive Node :=
| MkNode (type : NodeType) (data : string) (attr : list Attribute)
         (children : list Node).

Definition Type_ (n : Node) : NodeType := let 'MkNode t _ _ _ := n in t.
Definition Data (n : Node) : string := let 'MkNode _ d _ _ := n in d.
Definition Attr (n : Node) : list Attribute := let 'MkNode _ _ a _ := n in a.
Definition Children (n : Node) : list Node := let 'MkNode _ _ _ c := n in c.

End html.

(** The result of a computation that may stop in a run-time panic. *)
Inductive Go (A : Type) :=
| Done (a : A)
| Panic (msg : string).
Arguments Done {A} a.
Arguments Panic {A} msg.

Definition nilDereference : string :=
  "runtime error: invalid memory address or nil pointer dereference".

(** The inner loop of the closure: [links] is the captured slice. *)
Definition collectHrefs (attrs : list html.Attribute) (links : list string)
  : list string :=
  fold_left
    (fun links attr =>
       if String.eqb (html.Key attr) "href" then (links ++ [html.Val attr])%list
       else links)
    attrs links.

(** The closure [f] of [extractLinks], on a node that is not nil; the
    captured variable [links] is passed in and out. *)
Fixpoint traverse (n : html.Node) (links : list string) : list string :=
  match n with
  | html.MkNode type data attr children =>
      let links :=
        if html.NodeType_eqb type html.ElementNode && String.eqb data "a"
        then collectHrefs attr links
        else links in
      fold_left (fun links c => traverse c links) children links
  end.

(** [extractLinks]: a [*html.Node] is [None] when nil; the closure reads
    [n.Type] first, which panics on a nil pointer. *)
Definition extractLinks (n : option html.Node) : Go (list string) :=
  match n with
  | None => Panic nilDereference
  | Some root => Done (traverse root [])
  end.

(** ** The world outside the program *)

Module Sys.

Inductive FNode :=
| RegularFile (content : string)
| Directory.

Record Request := {
  Method : string;
  URL : string;
  Header : list (string * string)
}.

(** What the program reads of an [http.Response]: the body is the bytes
    that arrive and, when the stream breaks, the error that ends it. *)
Record Response := {
  StatusCode : Z;
  Status : string;
  Body : string;
  BodyError : option string
}.

Inductive Event :=
| LogLine (msg : string)          (* the [log] package *)
| StdoutWrite (msg : string)      (* [fmt.Printf] *)
| StderrWrite (msg : string)      (* [fmt.Fprintf(os.Stderr, ...)] *)
| HttpSend (req : Request).       (* a request handed to the transport *)

Inductive Syscall :=
| SysStat (path : string)
| SysMkdir (path : string)
| SysOpen (path : string)
| SysWrite (path : string).

(** The file system, keyed by cleaned path (relative to the working
    directory, or from the root), and what the process has emitted so
    far, oldest event first. *)
Record World := {
  fs : gmap string FNode;
  trace : list Event
}.

(** The answers of the environment.  [sysFault] lets any system call
    fail for a reason outside the file-system model (permissions, a
    full disk, ...). *)
Record Env := {
  urlParseError : string -> option string;
  roundTrip : Request -> string + Response;
  parseHTML : string -> html.Node;
  sysFault : Syscall -> option string
}.

Definition emit (e : Event) (w : World) : World :=
  {| fs := fs w; trace := (trace w ++ [e])%list |}.

Definition setFs (m : gmap string FNode) (w : World) : World :=
  {| fs := m; trace := trace w |}.

Definition nl : string := String (ascii_of_nat 10) "".

(** [log.Printf] with the format already applied. *)
Definition logPrintf (msg : string) : World -> World := emit (LogLine msg).

Definition pathError (op path cause : string) : string :=
  op ++ " " ++ path ++ ": " ++ cause.

(** The texts of the error numbers the calls below return. *)
Definition ENOENT : string := "no such file or directory".
Definition ENOTDIR : string := "not a directory".
Definition EEXIST : string := "file exists".
Definition EISDIR : string := "is a directory".

(** *** Path resolution

    A position in the tree is the list of the elements that lead to it
    from the root or from the working directory, the last one first, as
    in the output buffer of [filepath.Clean]; [positionPath] is the
    cleaned path of a position, the key of its entry in the map. *)
Definition positionPath (rooted : bool) (out : list string) : string :=
  let cleaned := (if rooted then "/" else "") ++ joinWith "/" (List.rev out) in
  if String.eqb cleaned "" then "." else cleaned.

(** The entry at a position.  The root, the working directory and the
    directories above the working directory always exist; any other
    position holds what the map has under its path. *)
Definition entryAt (m : gmap string FNode) (rooted : bool) (out : list string)
  : option FNode :=
  if forallb (String.eqb "..") out then Some Directory
  else m !! positionPath rooted out.

(** The walk of the kernel along the elements of a path.  Every element,
    also an empty one, [.] and [..], is looked up in the position
    reached so far, which must therefore be a directory.  There are no
    symbolic links, so the step is that of [filepath.Clean]: [..] leads
    back to the parent, and stays at the root. *)
Fixpoint walk (m : gmap string FNode) (rooted : bool) (out : list string)
         (elems : list string) : string + list string :=
  match elems with
  | [] => inr out
  | elem :: rest =>
      match entryAt m rooted out with
      | Some Directory => walk m rooted (cleanStep rooted out elem) rest
      | Some (RegularFile _) => inl ENOTDIR
      | None => inl ENOENT
      end
  end.

(** The position a path leads to, or the error of the walk.  The path
    is taken as it is written: it is not cleaned, and the empty path
    leads nowhere. *)
Definition resolve (m : gmap string FNode) (path : string) : string + list string :=
  if String.eqb path "" then inl ENOENT
  else walk m (HasPrefix path "/") [] (splitOn "/" path).

(** What [stat(2)] finds at a path. *)
Definition lookupPath (m : gmap string FNode) (path : string) : option FNode :=
  match resolve m path with
  | inr out => entryAt m (HasPrefix path "/") out
  | inl _ => None
  end.

(** The elements of a path without the empty ones that trailing
    separators leave behind. *)
Fixpoint dropTrailingEmpty (elems : list string) : list string :=
  match elems with
  | [] => []
  | elem :: rest =>
      match dropTrailingEmpty rest with
      | [] => if String.eqb elem "" then [] else [elem]
      | kept => elem :: kept
      end
  end.

Fixpoint dropSeparators (revPath : list ascii) : list ascii :=
  match revPath with
  | [] => []
  | c :: before => if Ascii.eqb c "/" then dropSeparators before else revPath
  end.

(** [path[:i+1]] in [os.MkdirAll]: the path up to and with the separator
    in front of its last element, trailing separators not counted. *)
Definition parentPrefix (path : string) : string :=
  string_of_list_ascii
    (List.rev (dropLastElem (dropSeparators (List.rev (list_ascii_of_string path))))).

Section Calls.
Variable env : Env.

(** [os.Stat] *)
Definition os_Stat (path : string) (w : World) : string + FNode :=
  match sysFault env (SysStat path) with
  | Some cause => inl (pathError "stat" path cause)
  | None =>
      match lookupPath (fs w) path with
      | Some node => inr node
      | None =>
          inl (pathError "stat" path
                 match resolve (fs w) path with
                 | inl cause => cause
                 | inr _ => ENOENT
                 end)
      end
  end.

(** [os.Mkdir].  [mkdir(2)] accepts trailing separators; the walk ends
    at the position of the new directory, whose parent the walk has
    found to be a directory. *)
Definition os_Mkdir (path : string) (w : World) : option string * World :=
  match sysFault env (SysMkdir path) with
  | Some cause => (Some (pathError "mkdir" path cause), w)
  | None =>
      if String.eqb path "" then (Some (pathError "mkdir" path ENOENT), w)
      else
        let rooted := HasPrefix path "/" in
        match walk (fs w) rooted [] (dropTrailingEmpty (splitOn "/" path)) with
        | inl cause => (Some (pathError "mkdir" path cause), w)
        | inr out =>
            match entryAt (fs w) rooted out with
            | Some _ => (Some (pathError "mkdir" path EEXIST), w)
            | None =>
                (None, setFs (<[positionPath rooted out := Directory]> (fs w)) w)
            end
        end
  end.

(** [os.MkdirAll], with [depth] bounding the nesting of its recursive
    calls: the fast path through [Stat]; the call for the parent, if
    the path has one; [Mkdir], and after a failure of [Mkdir] the
    second look through [Lstat].  The two look-ups are answered by the
    file system alone. *)
Fixpoint mkdirAll (depth : nat) (path : string) (w : World) : option string * World :=
  match lookupPath (fs w) path with
  | Some Directory => (None, w)
  | Some (RegularFile _) => (Some (pathError "mkdir" path ENOTDIR), w)
  | None =>
      let parent := parentPrefix path in
      let made :=
        if String.eqb parent "" then (None, w)
        else match depth with
             | S depth' => mkdirAll depth' parent w
             | O => (None, w)
             end in
      match made with
      | (Some err, w) => (Some err, w)
      | (None, w) =>
          match os_Mkdir path w with
          | (None, w) => (None, w)
          | (Some err, w) =>
              match lookupPath (fs w) path with
              | Some Directory => (None, w)
              | _ => (Some err, w)
              end
          end
      end
  end.

(** A parent is shorter than its path, so the length of the path bounds
    the nesting. *)
Definition os_MkdirAll (path : string) (w : World) : option string * World :=
  mkdirAll (String.length path) path w.

(** [os.Create]: open for reading and writing, create or truncate.
    With [O_CREAT] a path that ends in a separator is refused once the
    walk has reached its last element. *)
Definition os_Create (path : string) (w : World) : option string * World :=
  match sysFault env (SysOpen path) with
  | Some cause => (Some (pathError "open" path cause), w)
  | None =>
      let rooted := HasPrefix path "/" in
      if String.eqb path "" then (Some (pathError "open" path ENOENT), w)
      else if HasSuffix path "/" then
        match walk (fs w) rooted [] (dropTrailingEmpty (splitOn "/" path)) with
        | inl cause => (Some (pathError "open" path cause), w)
        | inr _ => (Some (pathError "open" path EISDIR), w)
        end
      else
        match walk (fs w) rooted [] (splitOn "/" path) with
        | inl cause => (Some (pathError "open" path cause), w)
        | inr out =>
            match entryAt (fs w) rooted out with
            | Some Directory => (Some (pathError "open" path EISDIR), w)
            | _ =>
                (None, setFs (<[positionPath rooted out := RegularFile ""]> (fs w)) w)
            end
        end
  end.

(** [io.Copy(file, resp.Body)] into the file just created at [path]:
    a failing write leaves the file empty; otherwise the bytes that
    arrived are stored and a broken stream is reported. *)
Definition io_Copy (path : string) (resp : Response) (w : World)
  : option string * World :=
  match sysFault env (SysWrite path) with
  | Some cause => (Some (pathError "write" path cause), w)
  | None =>
      let w := setFs (<[Clean path := RegularFile (Body resp)]> (fs w)) w in
      (BodyError resp, w)
  end.

(** [http.NewRequest("GET", url, nil)] *)
Definition http_NewRequest (url : string) : string + Request :=
  match urlParseError env url with
  | Some cause => inl cause
  | None => inr {| Method := "GET"; URL := url; Header := [] |}
  end.

(** [req.Header.Set(key, value)] *)
Definition Header_Set (key value : string) (req : Request) : Request :=
  {| Method := Method req; URL := URL req;
     Header := ((key, value)
                  :: List.filter (fun kv => negb (String.eqb (fst kv) key))
                       (Header req))%list |}.

(** [client.Do(req)] *)
Definition client_Do (req : Request) (w : World) : (string + Response) * World :=
  (roundTrip env req, emit (HttpSend req) w).

(** [http.Get(url)] *)
Definition http_Get (url : string) (w : World) : (string + Response) * World :=
  match http_NewRequest url with
  | inl cause => (inl cause, w)
  | inr req => client_Do req w
  end.

(** [html.Parse(resp.Body)]: fails only when reading the body does. *)
Definition html_Parse (resp : Response) : string + html.Node :=
  match BodyError resp with
  | Some cause => inl cause
  | None => inr (parseHTML env (Body resp))
  end.

End Calls.

End Sys.

Import Sys.

(** How a run of [main] ends. *)
Inductive Outcome :=
| Returned                    (* [main] returns: exit status 0 *)
| Exited (code : Z)           (* [os.Exit], here through [log.Fatalln] *)
| Panicked (msg : string).    (* an unrecovered run-time panic *)

Definition baseURL : string := "https://www.birschindustries.com/MSDS%20Sheets/".
Definition remoteFolder : string := "Assets/".

(** ** The functions both variants share *)

Section Shared.
Variable env : Env.

(** [fetchHTML]: the parsed page, or nil after a logged failure. *)
Definition fetchHTML (url : string) (w : World) : option html.Node * World :=
  match http_NewRequest env url with
  | inl err =>
      (None, logPrintf ("Failed to create request for " ++ url ++ ": " ++ err ++ nl) w)
  | inr req =>
      let req := Header_Set "User-Agent" "Mozilla/5.0 (compatible; MyGoScraper/1.0)" req in
      let req := Header_Set "Accept" "text/html" req in
      match client_Do env req w with
      | (inl err, w) =>
          (None, logPrintf ("HTTP request to " ++ url ++ " failed: " ++ err ++ nl) w)
      | (inr resp, w) =>
          if negb (StatusCode resp =? 200)%Z then
            (None, logPrintf ("Failed to fetch " ++ url ++ ": " ++ Status resp ++ nl) w)
          else
            match html_Parse env resp with
            | inl err =>
                (None, logPrintf ("Failed to parse HTML from " ++ url ++ ": " ++ err ++ nl) w)
            | inr node => (Some node, w)
            end
      end
  end.

(** [fileExists]: [false] on a [Stat] error, otherwise [!info.IsDir()]. *)
Definition fileExists (filename : string) (w : World) : bool :=
  match os_Stat env filename w with
  | inl _ => false
  | inr Directory => false
  | inr (RegularFile _) => true
  end.

(** The loop over the allow-list: [allowed = true; break] at the first
    equal entry. *)
Fixpoint extensionAllowed (ext : string) (allowedExts : list string) : bool :=
  match allowedExts with
  | [] => false
  | e :: rest => if String.eqb ext e then true else extensionAllowed ext rest
  end.

(** The messages of [downloadFile], the same in both variants. *)
Definition msgSkipping (fileName ext : string) : string :=
  "Skipping " ++ fileName ++ " (disallowed extension " ++ ext ++ ")" ++ nl.
Definition msgAlreadyExists (outPath : string) : string :=
  "File " ++ outPath ++ " already exists, skipping download." ++ nl.
Definition errDownload (url cause : string) : string :=
  "failed to download " ++ url ++ ": " ++ cause.
Definition errCreateDirectory (outDir cause : string) : string :=
  "failed to create directory " ++ outDir ++ ": " ++ cause.
Definition errCreateFile (outPath cause : string) : string :=
  "failed to create file " ++ outPath ++ ": " ++ cause.
Definition errSaving (outPath cause : string) : string :=
  "error saving " ++ outPath ++ ": " ++ cause.
Definition msgDownloaded (fileName : string) : string :=
  "Downloaded " ++ fileName ++ nl.

(** One iteration of the download loop of [main], for a downloader
    [download]: a returned error goes to standard error and the loop
    goes on. *)
Definition downloadStep (download : string -> World -> option string * World)
           (w : World) (file : string) : World :=
  match download file w with
  | (Some err, w) => emit (StderrWrite (err ++ nl)) w
  | (None, w) => w
  end.

End Shared.

(** ** The first variant: raw link names *)

Module Variant1.
Section Variant1.
Context `{UnicodeTable}.
Variable env : Env.

Definition allowedExts : list string :=
  [".asc"; ".asc-ma1"; ".asc-pierov"; ".apk"; ".bspatch"; ".dmg"; ".exe";
   ".gz"; ".idsig"; ".mar"; ".txt"; ".zip"; ".xz"; ".doc"].

(** [downloadFile]; a nil error is [None]. *)
Definition downloadFile (baseURL fileName outDir : string) (w : World)
  : option string * World :=
  let ext := ToLower (Ext fileName) in
  if negb (extensionAllowed ext allowedExts) then
    (None, logPrintf (msgSkipping fileName ext) w)
  else
    let outPath := Join [outDir; fileName] in
    if fileExists env outPath w then
      (None, logPrintf (msgAlreadyExists outPath) w)
    else
      let url := baseURL ++ fileName in
      match http_Get env url w with
      | (inl err, w) => (Some (errDownload url err), w)
      | (inr resp, w) =>
          match os_MkdirAll env outDir w with
          | (Some err, w) => (Some (errCreateDirectory outDir err), w)
          | (None, w) =>
              match os_Create env outPath w with
              | (Some err, w) => (Some (errCreateFile outPath err), w)
              | (None, w) =>
                  match io_Copy env outPath resp w with
                  | (Some err, w) => (Some (errSaving outPath err), w)
                  | (None, w) =>
                      (None, emit (StdoutWrite (msgDownloaded fileName)) w)
                  end
              end
          end
      end.

Definition downloadAll (files : list string) (w : World) : World :=
  fold_left (downloadStep (fun file => downloadFile baseURL file remoteFolder))
            files w.

Definition main (w : World) : Outcome * World :=
  let (node, w) := fetchHTML env baseURL w in
  match extractLinks node with
  | Panic msg => (Panicked msg, w)
  | Done links =>
      let files := filterFiles links in
      match os_MkdirAll env remoteFolder w with
      | (Some err, w) =>
          (Exited 1,
           emit (LogLine ("Failed to create output directory: " ++ err ++ nl)) w)
      | (None, w) => (Returned, downloadAll files w)
      end
  end.

End Variant1.
End Variant1.

(** ** The second variant: sanitised names *)

Module Variant2.
Section Variant2.
Context `{UnicodeTable}.
Variable env : Env.

(** [directoryExists] *)
Definition directoryExists (path : string) (w : World) : bool :=
  match os_Stat env path w with
  | inl _ => false
  | inr Directory => true
  | inr (RegularFile _) => false
  end.

(** [createDirectory]: the error of [os.Mkdir] is logged with
    [log.Println] and the function returns.  The permission bits are not
    part of the model. *)
Definition createDirectory (path : string) (w : World) : World :=
  match os_Mkdir env path w with
  | (Some err, w) => emit (LogLine (err ++ nl)) w
  | (None, w) => w
  end.

Definition allowedExtensions : list string :=
  [".asc"; ".asc-ma1"; ".asc-pierov"; ".apk"; ".bspatch";
   ".dmg"; ".exe"; ".gz"; ".idsig"; ".mar";
   ".txt"; ".zip"; ".xz"; ".doc"; ".docx"; ".pdf";
   ".xls"; ".xlsx"; ".ppt"; ".pptx"; ".csv";
   ".jpg"; ".jpeg"; ".png"; ".gif"; ".bmp"].

(** [downloadFile]; a nil error is [None]. *)
Definition downloadFile (baseURL fileName outputDirectory : string) (w : World)
  : option string * World :=
  let fileExtension := ToLower (Ext fileName) in
  if negb (extensionAllowed fileExtension allowedExtensions) then
    (None, logPrintf (msgSkipping fileName fileExtension) w)
  else
    let localFilePath := Join [outputDirectory; fileName] in
    if fileExists env localFilePath w then
      (None, logPrintf (msgAlreadyExists localFilePath) w)
    else
      let downloadURL := baseURL ++ fileName in
      match http_Get env downloadURL w with
      | (inl requestError, w) => (Some (errDownload downloadURL requestError), w)
      | (inr response, w) =>
          match os_Create env localFilePath w with
          | (Some fileCreateError, w) =>
              (Some (errCreateFile localFilePath fileCreateError), w)
          | (None, w) =>
              match io_Copy env localFilePath response w with
              | (Some copyError, w) => (Some (errSaving localFilePath copyError), w)
              | (None, w) =>
                  (None, emit (StdoutWrite (msgDownloaded fileName)) w)
              end
          end
      end.

Definition downloadAll (links : list string) (w : World) : World :=
  fold_left
    (downloadStep (fun url => downloadFile baseURL (urlToFilename url) remoteFolder))
    links w.

Definition main (w : World) : Outcome * World :=
  let (node, w) := fetchHTML env baseURL w in
  match extractLinks node with
  | Panic msg => (Panicked msg, w)
  | Done links =>
      let links := filterFiles links in
      let w := if negb (directoryExists remoteFolder w)
               then createDirectory remoteFolder w
               else w in
      (Returned, downloadAll links w)
  end.

End Variant2.
End Variant2.

(** ** Example environments *)

(** A table for running examples: on ASCII input [ToLower] never
    consults it. *)
Definition noUnicode : UnicodeTable := fun s => s.

Definition emptyWorld : World := {| fs := ∅; trace := [] |}.

Definition okResponse (body : string) : Response :=
  {| StatusCode := 200; Status := "200 OK"; Body := body; BodyError := None |}.

Definition leaf (tag : string) (attrs : list html.Attribute) (kids : list html.Node)
  : html.Node := html.MkNode html.ElementNode tag attrs kids.

Definition href (v : string) : html.Attribute :=
  {| html.Namespace := ""; html.Key := "href"; html.Val := v |}.

(** A listing page with three anchors, one of them inside a table cell. *)
Definition samplePage : html.Node :=
  html.MkNode html.DocumentNode "" []
    [leaf "html" []
       [leaf "body" []
          [leaf "a" [href "x.pdf"] [html.MkNode html.TextNode "x" [] []];
           leaf "a" [href "/skip/"] [];
           leaf "table" [] [leaf "td" [] [leaf "a" [href "notes.txt"] []]]]]].

(** A server that answers every request with status 200 and the body
    [payload]; no system call fails for outside reasons. *)
Definition friendlyEnv (payload : string) : Env :=
  {| urlParseError := fun _ => None;
     roundTrip := fun _ => inr (okResponse payload);
     parseHTML := fun _ => samplePage;
     sysFault := fun _ => None |}.

(** * The statements of the specification, in its own words *)

(** ** Link filter *)

Definition startsWithSlash (link : string) : Prop := exists rest, link = "/" ++ rest.
Definition endsWithSlash (link : string) : Prop := exists front, link = front ++ "/".

(** A link is kept when it neither starts nor ends with a slash. *)
Definition isFileLink (link : string) : bool :=
  negb (HasPrefix link "/") && negb (HasSuffix link "/").

(** ** Link extraction *)

Definition isAnchor (n : html.Node) : bool :=
  html.NodeType_eqb (html.Type_ n) html.ElementNode && String.eqb (html.Data n) "a".

(** The values of the attributes named [href] of an anchor, in
    attribute order; nothing for any other node. *)
Definition hrefValues (n : html.Node) : list string :=
  if isAnchor n then
    List.map html.Val
      (List.filter (fun a => String.eqb (html.Key a) "href") (html.Attr n))
  else [].

(** The nodes of a tree in document order: a node, then the trees of its
    children from the first to the last. *)
Fixpoint documentOrder (n : html.Node) : list html.Node :=
  match n with
  | html.MkNode _ _ _ children => n :: flat_map documentOrder children
  end.

(** [Within m n]: the node [m] occurs in the tree rooted at [n]. *)
Inductive Within (m : html.Node) : html.Node -> Prop :=
| within_here : Within m m
| within_child (c n : html.Node) :
    In c (html.Children n) -> Within m c -> Within m n.

(** Induction over a document with the hypothesis on every child. *)
Fixpoint Node_forall_ind (P : html.Node -> Prop)
         (step : forall type data attr children,
             Forall P children -> P (html.MkNode type data attr children))
         (n : html.Node) : P n :=
  match n with
  | html.MkNode type data attr children =>
      step type data attr children
           ((fix each (l : list html.Node) : Forall P l :=
               match l with
               | [] => List.Forall_nil P
               | c :: l' => List.Forall_cons P c l' (Node_forall_ind P step c) (each l')
               end) children)
  end.

(** An anchor carrying two [href] attributes, inside a paragraph. *)
Definition twoHrefs : html.Node :=
  leaf "p" [href "ignored.txt"]
    [leaf "a" [href "first.txt";
               {| html.Namespace := ""; html.Key := "title"; html.Val := "t" |};
               href "second.txt"] []].

(** ** Name sanitiser *)

(** The characters of [a-z0-9_]. *)
Definition isSafeByte (c : ascii) : bool := isLowerAlnum c || isUnderscore c.

(** [sub] occurs somewhere in [s]. *)
Definition occursIn (sub s : string) : Prop :=
  exists before after, s = before ++ sub ++ after.

Fixpoint countBytes (p : ascii -> bool) (s : string) : nat :=
  match s with
  | EmptyString => 0
  | String c rest => (if p c then 1 else 0) + countBytes p rest
  end.

(** ** The downloader and the pipeline *)

Inductive Variant := First | Second.

Definition allowListOf (v : Variant) : list string :=
  match v with
  | First => Variant1.allowedExts
  | Second => Variant2.allowedExtensions
  end.

Definition downloadFileOf `{UnicodeTable} (env : Env) (v : Variant)
  : string -> string -> string -> World -> option string * World :=
  match v with
  | First => Variant1.downloadFile env
  | Second => Variant2.downloadFile env
  end.

Definition downloadAllOf `{UnicodeTable} (env : Env) (v : Variant)
  : list string -> World -> World :=
  match v with
  | First => Variant1.downloadAll env
  | Second => Variant2.downloadAll env
  end.

Definition mainOf `{UnicodeTable} (env : Env) (v : Variant)
  : World -> Outcome * World :=
  match v with
  | First => Variant1.main env
  | Second => Variant2.main env
  end.

(** The name under which a variant downloads a link. *)
Definition targetName `{UnicodeTable} (v : Variant) (link : string) : string :=
  match v with
  | First => link
  | Second => urlToFilename link
  end.

(** The request [http.Get] sends for a URL, and the one [fetchHTML] sends. *)
Definition plainGet (url : string) : Request :=
  {| Method := "GET"; URL := url; Header := [] |}.

Definition pageGet (url : string) : Request :=
  {| Method := "GET"; URL := url;
     Header := [("Accept", "text/html");
                ("User-Agent", "Mozilla/5.0 (compatible; MyGoScraper/1.0)")] |}.

(** The extension gate lets a name through. *)
Definition passesGate `{UnicodeTable} (v : Variant) (name : string) : bool :=
  extensionAllowed (ToLower (Ext name)) (allowListOf v).

(** The no-op of the extension gate: a nil error, one log line, nothing else. *)
Definition skippedAtGate `{UnicodeTable} (name : string) (w : World)
  : option string * World :=
  (None, logPrintf (msgSkipping name (ToLower (Ext name))) w).

(** Worlds and environments for the examples. *)

(** [Assets] exists, and so does a directory where [notes.txt] would go. *)
Definition directoryInTheWay : World :=
  {| fs := {[ "Assets" := Directory; "Assets/notes.txt" := Directory;
              "Assets/notes_txt.pdf" := Directory ]};
     trace := [] |}.

(** [Assets] exists and holds [notes.txt] from an earlier run. *)
Definition secondRun : World :=
  {| fs := {[ "Assets" := Directory; "Assets/notes.txt" := RegularFile "data" ]};
     trace := [] |}.

(** A regular file named [Assets] blocks the output directory. *)
Definition fileInTheWay : World :=
  {| fs := {[ "Assets" := RegularFile "" ]}; trace := [] |}.

(** A network on which every request fails in the transport. *)
Definition offlineEnv : Env :=
  {| urlParseError := fun _ => None;
     roundTrip := fun _ => inl "dial tcp: connection refused";
     parseHTML := fun _ => samplePage;
     sysFault := fun _ => None |}.

(** A server that answers every request with status 404. *)
Definition notFoundEnv : Env :=
  {| urlParseError := fun _ => None;
     roundTrip := fun _ => inr {| StatusCode := 404; Status := "404 Not Found";
                                  Body := ""; BodyError := None |};
     parseHTML := fun _ => samplePage;
     sysFault := fun _ => None |}.

(** The shapes of the error a download can return: each names the URL or
    the local path it failed on, and the cause. *)
Definition isFailureReport (v : Variant) (base name dir err : string) : Prop :=
  (exists cause, err = errDownload (base ++ name) cause)
  \/ (v = First /\ exists cause, err = errCreateDirectory dir cause)
  \/ (exists cause, err = errCreateFile (Join [dir; name]) cause)
  \/ (exists cause, err = errSaving (Join [dir; name]) cause).


(** The page fetch fails: the request cannot be built, the transport
    fails, the status is not 200, or reading the body for the parser
    fails. *)
Definition fetchFails (env : Env) (url : string) : Prop :=
  (exists cause, urlParseError env url = Some cause)
  \/ (exists cause, roundTrip env (pageGet url) = inl cause)
  \/ (exists resp, roundTrip env (pageGet url) = inr resp
                   /\ (StatusCode resp <> 200%Z
                       \/ exists cause, BodyError resp = Some cause)).

(** One turn of the download loop of a variant. *)
Definition loopStep `{UnicodeTable} (env : Env) (v : Variant) (w : World)
           (link : string) : World :=
  downloadStep
    (fun link => downloadFileOf env v baseURL (targetName v link) remoteFolder)
    w link.

(** What [downloadFile] does between the answer to its GET and the
    creation of the file: [os.MkdirAll] on the output directory in the
    first variant, nothing in the second. *)
Definition ensureDirectory (env : Env) (v : Variant) (outDir : string) (w : World)
  : option string * World :=
  match v with
  | First => os_MkdirAll env outDir w
  | Second => (None, w)
  end.

(** ** Statements about the rest of the code *)

(** Two adjacent underscores somewhere in [s]. *)
Fixpoint adjacentUnderscores (s : string) : bool :=
  match s with
  | EmptyString => false
  | String a rest =>
      match rest with
      | EmptyString => false
      | String b _ => (isUnderscore a && isUnderscore b) || adjacentUnderscores rest
      end
  end.

(** [s] and [t] have the same bytes of [a-z0-9] at the same places, and
    bytes outside that class everywhere else. *)
Fixpoint sameSkeleton (s t : string) : bool :=
  match s, t with
  | EmptyString, EmptyString => true
  | String a s', String b t' =>
      ((isLowerAlnum a && Ascii.eqb a b) || (notLowerAlnum a && notLowerAlnum b))
      && sameSkeleton s' t'
  | _, _ => false
  end.

(** The requests among the events of a run. *)
Definition requestsOf (events : list Event) : list Request :=
  flat_map (fun e => match e with HttpSend req => [req] | _ => [] end) events.

(** No [os.Stat] fails for a reason outside the file system. *)
Definition statNeverFaults (env : Env) : Prop :=
  forall path, sysFault env (SysStat path) = None.

(** A server that answers every request with status 404 and an error page. *)
Definition errorPageEnv : Env :=
  {| urlParseError := fun _ => None;
     roundTrip := fun _ => inr {| StatusCode := 404; Status := "404 Not Found";
                                  Body := "<h1>Not Found</h1>"; BodyError := None |};
     parseHTML := fun _ => samplePage;
     sysFault := fun _ => None |}.

(** A server whose answers break off after the bytes [partial]. *)
Definition brokenStreamEnv (partial : string) : Env :=
  {| urlParseError := fun _ => None;
     roundTrip := fun _ => inr {| StatusCode := 200; Status := "200 OK";
                                  Body := partial;
                                  BodyError := Some "unexpected EOF" |};
     parseHTML := fun _ => samplePage;
     sysFault := fun _ => None |}.

(** The output directory exists and is empty. *)
Definition freshAssets : World :=
  {| fs := {[ "Assets" := Directory ]}; trace := [] |}.

(** ** Cleaned paths and positions *)

(** An element without a separator. *)
Definition noSlash (elem : string) : Prop := countBytes (Ascii.eqb "/") elem = 0.

(** The output buffer of [filepath.Clean] holds names; below the names
    of a path that is not rooted it may hold [..] elements. *)
Fixpoint cleanedStack (rooted : bool) (out : list string) : Prop :=
  match out with
  | [] => True
  | elem :: below =>
      noSlash elem /\ elem <> "" /\ elem <> "."
      /\ (elem = ".." -> rooted = false /\ forallb (String.eqb "..") below = true)
      /\ cleanedStack rooted below
  end.

(** The elements in front of those of the buffer in a cleaned path. *)
Definition leadElems (rooted : bool) : list string := if rooted then [""] else [].

(** Every position above [out] is a directory. *)
Fixpoint aboveAreDirectories (m : gmap string FNode) (rooted : bool)
         (out : list string) : Prop :=
  match out with
  | [] => True
  | _ :: above =>
      entryAt m rooted above = Some Directory /\ aboveAreDirectories m rooted above
  end.

(** * Properties *)

(** ** The library model on the examples of the Go documentation *)

Example Clean_documented :
  List.map Clean ["a/c"; "a//c"; "a/c/."; "a/c/b/.."; "/../a/c";
                  "/../a/b/../././/c"; ""; "abc/"; "../../abc"; "/"]
  = ["a/c"; "a/c"; "a/c"; "a/c"; "/a/c"; "/a/c"; "."; "abc"; "../../abc"; "/"].
Proof. reflexivity. Qed.

Example Join_documented :
  List.map Join [["a"; "b"; "c"]; ["a"; "b/c"]; ["a/b"; "c"]; ["a/b"; "/c"];
                 ["a/b"; "../../../xyz"]; ["a"; ""]; [""; "a"]; [""; ""]]
  = ["a/b/c"; "a/b/c"; "a/b/c"; "a/b/c"; "../xyz"; "a"; "a"; ""].
Proof. reflexivity. Qed.

Example Ext_documented :
  List.map Ext ["index"; "index.js"; "main.test.js"; "a.b/c"; "dir/.bashrc"]
  = [""; ".js"; ".js"; ""; ".bashrc"].
Proof. reflexivity. Qed.

Example Dir_documented :
  List.map Dir ["/foo/bar/baz.js"; "/foo/bar/baz"; "/foo/bar/baz/"; "dev.txt";
                "../todo.txt"; ".."; "."; "/"; ""]
  = ["/foo/bar"; "/foo/bar"; "/foo/bar/baz"; "."; ".."; "."; "."; "/"; "."].
Proof. reflexivity. Qed.

Example ToLower_ascii `{UnicodeTable} : ToLower "Sheet A/B (1).PDF" = "sheet a/b (1).pdf".
Proof. reflexivity. Qed.

Example ReplaceAllString_runs :
  ReplaceAllString notLowerAlnum "sheet a/b (1).pdf" "_" = "sheet_a_b_1_pdf"
  /\ ReplaceAllString isUnderscore "__a___b_" "_" = "_a_b_".
Proof. split; reflexivity. Qed.

Example CutPrefix_examples :
  CutPrefix "_a_" "_" = ("a_", true) /\ CutPrefix "a_" "_" = ("a_", false)
  /\ CutPrefix "" "_" = ("", false).
Proof. repeat split. Qed.

(** ** The system calls on examples *)

(** Paths are resolved as they are written: the empty path leads
    nowhere, a separator behind a regular file is refused, and [..]
    only leads back out of a directory that exists. *)
Example lookupPath_examples :
  lookupPath (fs freshAssets) "" = None
  /\ lookupPath (fs freshAssets) "Assets/" = Some Directory
  /\ lookupPath (fs fileInTheWay) "Assets" = Some (RegularFile "")
  /\ lookupPath (fs fileInTheWay) "Assets/" = None
  /\ lookupPath (fs freshAssets) "x/../Assets" = None
  /\ lookupPath (<["x" := Directory]> (fs freshAssets)) "x/../Assets" = Some Directory
  /\ lookupPath (<["x" := RegularFile ""]> (fs freshAssets)) "x/../Assets" = None
  /\ lookupPath (fs emptyWorld) "." = Some Directory
  /\ lookupPath (fs emptyWorld) "/" = Some Directory
  /\ lookupPath (fs emptyWorld) ".." = Some Directory.
Proof. repeat split. Qed.

Example os_Stat_examples :
  os_Stat (friendlyEnv "") "" emptyWorld
  = inl (pathError "stat" "" "no such file or directory")
  /\ os_Stat (friendlyEnv "") "Assets/" fileInTheWay
     = inl (pathError "stat" "Assets/" "not a directory")
  /\ os_Stat (friendlyEnv "") "Assets/notes.txt" freshAssets
     = inl (pathError "stat" "Assets/notes.txt" "no such file or directory")
  /\ os_Stat (friendlyEnv "") "Assets/notes.txt" secondRun = inr (RegularFile "data").
Proof. repeat split. Qed.

Example os_Mkdir_examples :
  os_Mkdir (friendlyEnv "") "Assets/" emptyWorld = (None, freshAssets)
  /\ fst (os_Mkdir (friendlyEnv "") "Assets/" fileInTheWay)
     = Some (pathError "mkdir" "Assets/" "file exists")
  /\ fst (os_Mkdir (friendlyEnv "") "Assets/sub" fileInTheWay)
     = Some (pathError "mkdir" "Assets/sub" "not a directory")
  /\ fst (os_Mkdir (friendlyEnv "") "a/b" emptyWorld)
     = Some (pathError "mkdir" "a/b" "no such file or directory")
  /\ fst (os_Mkdir (friendlyEnv "") "" emptyWorld)
     = Some (pathError "mkdir" "" "no such file or directory")
  /\ fst (os_Mkdir (friendlyEnv "") "." emptyWorld)
     = Some (pathError "mkdir" "." "file exists").
Proof. repeat split. Qed.

Example parentPrefix_examples :
  List.map parentPrefix ["a/b/c"; "a/b/c/"; "Assets/"; "/a"; "/"; ""; "a//b//"]
  = ["a/b/"; "a/b/"; ""; "/"; ""; ""; "a//"].
Proof. reflexivity. Qed.

Example os_MkdirAll_examples :
  os_MkdirAll (friendlyEnv "") "Assets/" emptyWorld = (None, freshAssets)
  /\ os_MkdirAll (friendlyEnv "") "Assets/" freshAssets = (None, freshAssets)
  /\ os_MkdirAll (friendlyEnv "") "Assets/" fileInTheWay
     = (Some (pathError "mkdir" "Assets/" "file exists"), fileInTheWay)
  /\ os_MkdirAll (friendlyEnv "") "Assets" fileInTheWay
     = (Some (pathError "mkdir" "Assets" "not a directory"), fileInTheWay)
  /\ os_MkdirAll (friendlyEnv "") "" emptyWorld
     = (Some (pathError "mkdir" "" "no such file or directory"), emptyWorld)
  /\ fs (snd (os_MkdirAll (friendlyEnv "") "a/b/c" emptyWorld))
     = {[ "a" := Directory; "a/b" := Directory; "a/b/c" := Directory ]}
  /\ os_MkdirAll (friendlyEnv "") "foo/." emptyWorld
     = (None, {| fs := {[ "foo" := Directory ]}; trace := [] |}).
Proof. repeat split. Qed.

Example os_Create_examples :
  fs (snd (os_Create (friendlyEnv "") "Assets/notes.txt" freshAssets))
  = {[ "Assets" := Directory; "Assets/notes.txt" := RegularFile "" ]}
  /\ fs (snd (os_Create (friendlyEnv "") "Assets/notes.txt" secondRun))
     = {[ "Assets" := Directory; "Assets/notes.txt" := RegularFile "" ]}
  /\ fst (os_Create (friendlyEnv "") "Assets/notes.txt" emptyWorld)
     = Some (pathError "open" "Assets/notes.txt" "no such file or directory")
  /\ fst (os_Create (friendlyEnv "") "Assets/notes.txt" fileInTheWay)
     = Some (pathError "open" "Assets/notes.txt" "not a directory")
  /\ fst (os_Create (friendlyEnv "") "Assets/notes.txt" directoryInTheWay)
     = Some (pathError "open" "Assets/notes.txt" "is a directory")
  /\ fst (os_Create (friendlyEnv "") "notes.txt/" emptyWorld)
     = Some (pathError "open" "notes.txt/" "is a directory")
  /\ fst (os_Create (friendlyEnv "") "" emptyWorld)
     = Some (pathError "open" "" "no such file or directory").
Proof. repeat split. Qed.

(** ** Bytes and strings *)

Lemma HasPrefix_slash (s : string) :
  HasPrefix s "/" = true <-> exists rest, s = String "/" rest.
Proof.
  destruct s as [|c rest]; simpl.
  - split; [discriminate | intros [r Hr]; discriminate].
  - rewrite andb_true_r. destruct (Ascii.eqb_spec c "/") as [->|Hne].
    + split; eauto.
    + split; [discriminate | intros [r Hr]; congruence].
Qed.

Lemma HasSuffix_slash_cons (c : ascii) (rest : string) :
  HasSuffix (String c rest) "/"
  = match rest with
    | EmptyString => Ascii.eqb c "/"
    | String _ _ => HasSuffix rest "/"
    end.
Proof.
  unfold HasSuffix. destruct rest as [|d rest']; simpl.
  - now destruct (Ascii.eqb c "/").
  - now rewrite Nat.sub_0_r.
Qed.

Lemma HasSuffix_slash (s : string) :
  HasSuffix s "/" = true <-> exists front, s = front ++ "/".
Proof.
  induction s as [|c rest IH].
  - split; [discriminate | intros [[|d front] Hf]; discriminate].
  - rewrite HasSuffix_slash_cons. destruct rest as [|d rest'].
    + split.
      * intros ->%Ascii.eqb_eq. now exists "".
      * intros [[|e [|e' front]] Hf]; simpl in Hf; inversion Hf; subst.
        reflexivity.
    + rewrite IH. split.
      * intros [front ->]. now exists (String c front).
      * intros [[|e front] Hf]; simpl in Hf; [discriminate|].
        inversion Hf; subst. eauto.
Qed.

(** ** The link filter *)

Lemma filterFiles_loop (links files : list string) :
  fold_left
    (fun files link =>
       if HasPrefix link "/" || HasSuffix link "/" then files
       else (files ++ [link])%list)
    links files
  = (files ++ List.filter isFileLink links)%list.
Proof.
  revert files. induction links as [|link links IH]; intros files;
    cbn [fold_left List.filter].
  - now rewrite app_nil_r.
  - rewrite IH. unfold isFileLink at 2.
    destruct (HasPrefix link "/"), (HasSuffix link "/");
      cbn [orb andb negb]; try reflexivity.
    now rewrite <- app_assoc.
Qed.

Lemma isFileLink_spec (link : string) :
  isFileLink link = true <-> ~ startsWithSlash link /\ ~ endsWithSlash link.
Proof.
  unfold isFileLink, startsWithSlash, endsWithSlash.
  rewrite andb_true_iff, !negb_true_iff, <- !not_true_iff_false.
  now rewrite HasPrefix_slash, HasSuffix_slash.
Qed.

(** C5.  [filterFiles] keeps exactly the links that neither start nor end
    with a slash, in their order and with their repetitions: its result
    is the input with the other links struck out. *)
Theorem filterFiles_correct (links : list string) :
  (forall link,
      In link (filterFiles links)
      <-> In link links /\ ~ startsWithSlash link /\ ~ endsWithSlash link)
  /\ filterFiles links = List.filter isFileLink links
  /\ (forall link, isFileLink link = true
                   <-> ~ startsWithSlash link /\ ~ endsWithSlash link)
  /\ filterFiles ["a.pdf"; "/b.pdf"; "dir/"; "c.PDF"] = ["a.pdf"; "c.PDF"].
Proof.
  assert (Heq : filterFiles links = List.filter isFileLink links)
    by apply (filterFiles_loop links []).
  split; [|split; [exact Heq | split; [exact isFileLink_spec | reflexivity]]].
  intros link. rewrite Heq, filter_In, isFileLink_spec. tauto.
Qed.

(** ** Link extraction *)

Lemma collectHrefs_acc (attrs : list html.Attribute) (links : list string) :
  collectHrefs attrs links
  = (links ++ List.map html.Val
       (List.filter (fun a => String.eqb (html.Key a) "href") attrs))%list.
Proof.
  unfold collectHrefs. revert links.
  induction attrs as [|a attrs IH]; intros links; cbn [fold_left List.filter].
  - now rewrite app_nil_r.
  - rewrite IH. destruct (String.eqb (html.Key a) "href"); [|reflexivity].
    cbn [List.map]. now rewrite <- app_assoc.
Qed.

Lemma traverse_acc (n : html.Node) :
  forall links,
    traverse n links = (links ++ flat_map hrefValues (documentOrder n))%list.
Proof.
  induction n as [type data attr children IH] using Node_forall_ind.
  intros links. cbn [traverse documentOrder flat_map].
  assert (Hkids : forall acc,
             fold_left (fun links c => traverse c links) children acc
             = (acc ++ flat_map hrefValues (flat_map documentOrder children))%list).
  { induction IH as [|c children Hc _ IHkids]; intros acc; cbn [fold_left flat_map].
    - now rewrite app_nil_r.
    - rewrite IHkids, Hc, flat_map_app. now rewrite <- app_assoc. }
  rewrite Hkids.
  assert (Hhere : hrefValues (html.MkNode type data attr children)
                  = if html.NodeType_eqb type html.ElementNode && String.eqb data "a"
                    then List.map html.Val
                           (List.filter (fun a => String.eqb (html.Key a) "href") attr)
                    else []) by reflexivity.
  rewrite Hhere.
  destruct (html.NodeType_eqb type html.ElementNode && String.eqb data "a").
  - now rewrite collectHrefs_acc, <- app_assoc.
  - reflexivity.
Qed.

Lemma documentOrder_within (root m : html.Node) :
  Within m root <-> In m (documentOrder root).
Proof.
  split.
  - induction 1 as [|c n Hc _ IH].
    + destruct m; left; reflexivity.
    + destruct n as [type data attr children]. cbn [documentOrder]. right.
      apply in_flat_map. eauto.
  - revert m. induction root as [type data attr children IH] using Node_forall_ind.
    intros m Hin. cbn [documentOrder] in Hin.
    destruct Hin as [<-|Hin]; [apply within_here|].
    apply in_flat_map in Hin as (c & Hc & Hm).
    apply within_child with c; [exact Hc|].
    rewrite List.Forall_forall in IH. apply IH; assumption.
Qed.

(** C7.  On a document, [extractLinks] returns the [href] values of the
    anchors met on a depth-first walk: the nodes are taken in document
    order, every node of the tree is among them, and an anchor gives
    each of its [href] attributes once, in attribute order.  Anchors
    nested in other elements and anchors with several [href] attributes
    are covered. *)
Theorem extractLinks_document_order (root : html.Node) :
  extractLinks (Some root) = Done (flat_map hrefValues (documentOrder root))
  /\ (forall m, Within m root <-> In m (documentOrder root))
  /\ extractLinks (Some samplePage) = Done ["x.pdf"; "/skip/"; "notes.txt"]
  /\ extractLinks (Some twoHrefs) = Done ["first.txt"; "second.txt"].
Proof.
  split; [|split; [|split; reflexivity]].
  - unfold extractLinks. rewrite traverse_acc. reflexivity.
  - intros m. apply documentOrder_within.
Qed.

(** ** The name sanitiser *)

Ltac each_byte c :=
  destruct c as [[] [] [] [] [] [] [] []]; try reflexivity; try discriminate.

Lemma safe_byte_facts (c : ascii) :
  isSafeByte c = true ->
  Ascii.eqb c "." = false /\ Ascii.eqb c "/" = false
  /\ isASCIIByte c = true /\ lowerASCIIByte c = c.
Proof. each_byte c; intros _; repeat split. Qed.

Lemma underscore_not_alnum (c : ascii) :
  isUnderscore c = true -> isLowerAlnum c = false.
Proof. each_byte c. Qed.

Lemma append_assoc (a b c : string) : (a ++ b) ++ c = a ++ b ++ c.
Proof. induction a as [|x a IH]; simpl; [reflexivity | now rewrite IH]. Qed.

Lemma append_empty_r (a : string) : a ++ "" = a.
Proof. induction a as [|x a IH]; simpl; [reflexivity | now rewrite IH]. Qed.

Lemma allBytes_app (p : ascii -> bool) (a b : string) :
  allBytes p (a ++ b) = allBytes p a && allBytes p b.
Proof.
  induction a as [|x a IH]; simpl; [reflexivity|].
  now rewrite IH, andb_assoc.
Qed.

Lemma countBytes_app (p : ascii -> bool) (a b : string) :
  countBytes p (a ++ b) = countBytes p a + countBytes p b.
Proof. induction a as [|x a IH]; simpl; [reflexivity | rewrite IH; lia]. Qed.

Lemma allBytes_weaken (p q : ascii -> bool) (s : string) :
  (forall c, p c = true -> q c = true) ->
  allBytes p s = true -> allBytes q s = true.
Proof.
  intros Hpq. induction s as [|c s IH]; simpl; [reflexivity|].
  intros [Hc Hs]%andb_true_iff. now rewrite (Hpq c Hc), IH.
Qed.

Lemma allBytes_no_count (p q : ascii -> bool) (s : string) :
  (forall c, p c = true -> q c = false) ->
  allBytes p s = true -> countBytes q s = 0.
Proof.
  intros Hpq. induction s as [|c s IH]; simpl; [reflexivity|].
  intros [Hc Hs]%andb_true_iff. now rewrite (Hpq c Hc), IH.
Qed.

(** What survives a replacement: the bytes outside the class, and the
    bytes of the replacement. *)
Lemma replaceRuns_allBytes (cls q : ascii -> bool) (repl s : string) (inRun : bool) :
  (forall c, cls c = false -> q c = true) ->
  allBytes q repl = true ->
  allBytes q (replaceRuns cls repl inRun s) = true.
Proof.
  intros Hq Hrepl. revert inRun.
  induction s as [|c s IH]; intros inRun; simpl; [reflexivity|].
  destruct (cls c) eqn:Hc.
  - destruct inRun; [apply IH|]. now rewrite allBytes_app, Hrepl, IH.
  - simpl. now rewrite (Hq c Hc), IH.
Qed.

Lemma replaceRuns_keeps_allBytes (cls q : ascii -> bool) (repl s : string)
      (inRun : bool) :
  allBytes q s = true ->
  allBytes q repl = true ->
  allBytes q (replaceRuns cls repl inRun s) = true.
Proof.
  intros Hs Hrepl. revert inRun Hs.
  induction s as [|c s IH]; intros inRun; simpl; [reflexivity|].
  intros [Hc Hs]%andb_true_iff. destruct (cls c).
  - destruct inRun; [now apply IH|]. now rewrite allBytes_app, Hrepl, IH.
  - simpl. now rewrite Hc, IH.
Qed.

(** A replacement neither adds nor removes bytes of a class [p] that is
    disjoint from the replaced class and from the replacement. *)
Lemma replaceRuns_countBytes (cls p : ascii -> bool) (repl s : string)
      (inRun : bool) :
  (forall c, cls c = true -> p c = false) ->
  countBytes p repl = 0 ->
  countBytes p (replaceRuns cls repl inRun s) = countBytes p s.
Proof.
  intros Hp Hrepl. revert inRun.
  induction s as [|c s IH]; intros inRun; simpl; [reflexivity|].
  destruct (cls c) eqn:Hc.
  - rewrite (Hp c Hc). destruct inRun; [apply IH|].
    now rewrite countBytes_app, Hrepl, IH.
  - simpl. now rewrite IH.
Qed.

Lemma substring_whole (s : string) : substring 0 (String.length s) s = s.
Proof. induction s as [|c s IH]; simpl; [reflexivity | now rewrite IH]. Qed.

(** Cutting the prefix [_] drops the first byte when it is an underscore. *)
Lemma CutPrefix_underscore (s : string) :
  CutPrefix s "_"
  = match s with
    | String c rest => if Ascii.eqb c "_" then (rest, true) else (s, false)
    | EmptyString => (s, false)
    end.
Proof.
  unfold CutPrefix. destruct s as [|c rest]; [reflexivity|].
  cbn [HasPrefix]. rewrite andb_true_r.
  destruct (Ascii.eqb c "_"); [|reflexivity].
  cbn [String.length substring Nat.sub]. now rewrite Nat.sub_0_r, substring_whole.
Qed.

Lemma allBytes_forallb (p : ascii -> bool) (s : string) :
  allBytes p s = forallb p (list_ascii_of_string s).
Proof. induction s as [|c s IH]; simpl; [reflexivity | now rewrite IH]. Qed.

Lemma list_ascii_of_string_app (a b : string) :
  list_ascii_of_string (a ++ b)
  = (list_ascii_of_string a ++ list_ascii_of_string b)%list.
Proof. induction a as [|c a IH]; simpl; [reflexivity | now rewrite IH]. Qed.

(** The scan for an extension finds nothing in a run of bytes that holds
    neither a dot nor a separator. *)
Lemma extScan_none (revPath : list ascii) (seen : string) :
  forallb (fun c => negb (Ascii.eqb c ".") && negb (Ascii.eqb c "/")) revPath = true ->
  extScan revPath seen = "".
Proof.
  revert seen. induction revPath as [|c l IH]; intros seen; simpl; [reflexivity|].
  intros [[Hdot Hsep]%andb_true_iff Hl]%andb_true_iff.
  apply negb_true_iff in Hdot, Hsep. rewrite Hdot, Hsep. now apply IH.
Qed.

Lemma forallb_rev_true {A} (p : A -> bool) (l : list A) :
  forallb p l = true -> forallb p (List.rev l) = true.
Proof.
  rewrite !forallb_forall. intros Hl x Hx. apply Hl. now apply in_rev.
Qed.

Lemma Ext_safe (s : string) : allBytes isSafeByte s = true -> Ext s = "".
Proof.
  intros Hs. unfold Ext. apply extScan_none, forallb_rev_true.
  rewrite <- allBytes_forallb. revert Hs. apply allBytes_weaken.
  intros c Hc. destruct (safe_byte_facts c Hc) as (-> & -> & _). reflexivity.
Qed.

Lemma Ext_pdf (stem : string) : Ext (stem ++ ".pdf") = ".pdf".
Proof.
  unfold Ext. rewrite list_ascii_of_string_app, rev_app_distr. reflexivity.
Qed.

Section SanitizerFacts.
Context `{UnicodeTable}.

Lemma safeName_unfold (rawURL : string) :
  safeName rawURL
  = let safe := ReplaceAllString isUnderscore
                  (ReplaceAllString notLowerAlnum (ToLower rawURL) "_") "_" in
    match safe with
    | String c rest => if Ascii.eqb c "_" then rest else safe
    | EmptyString => safe
    end.
Proof.
  unfold safeName. rewrite CutPrefix_underscore. cbv zeta.
  destruct (ReplaceAllString isUnderscore _ _) as [|c rest]; [reflexivity|].
  now destruct (Ascii.eqb c "_").
Qed.

(** Every byte of the sanitised stem is in [a-z0-9_]. *)
Lemma safeName_safe (rawURL : string) :
  allBytes isSafeByte (safeName rawURL) = true.
Proof.
  rewrite safeName_unfold. cbv zeta.
  assert (Hsafe : allBytes isSafeByte
                    (ReplaceAllString isUnderscore
                       (ReplaceAllString notLowerAlnum (ToLower rawURL) "_") "_")
                  = true).
  { apply replaceRuns_keeps_allBytes; [|reflexivity].
    apply replaceRuns_allBytes; [|reflexivity].
    intros c Hc. unfold isSafeByte. apply negb_false_iff in Hc. now rewrite Hc. }
  destruct (ReplaceAllString isUnderscore _ _) as [|c rest]; [reflexivity|].
  destruct (Ascii.eqb c "_"); [|exact Hsafe].
  simpl in Hsafe. now apply andb_true_iff in Hsafe.
Qed.

(** The extension test of [urlToFilename] never finds [.pdf]: the dot
    has been replaced before the test, so the suffix is always added. *)
Lemma urlToFilename_appends (rawURL : string) :
  urlToFilename rawURL = safeName rawURL ++ ".pdf".
Proof.
  unfold urlToFilename, getFileExtension. cbv zeta.
  now rewrite (Ext_safe _ (safeName_safe rawURL)).
Qed.

(** The sanitised stem has as many bytes of [a-z0-9] as the lower-cased
    input. *)
Lemma safeName_alnum (rawURL : string) :
  countBytes isLowerAlnum (safeName rawURL)
  = countBytes isLowerAlnum (ToLower rawURL).
Proof.
  rewrite safeName_unfold. cbv zeta.
  assert (Hcount : countBytes isLowerAlnum
                     (ReplaceAllString isUnderscore
                        (ReplaceAllString notLowerAlnum (ToLower rawURL) "_") "_")
                   = countBytes isLowerAlnum (ToLower rawURL)).
  { unfold ReplaceAllString. rewrite !replaceRuns_countBytes; try reflexivity.
    - intros c Hc. now apply negb_true_iff in Hc.
    - apply underscore_not_alnum. }
  destruct (ReplaceAllString isUnderscore _ _) as [|c rest]; [exact Hcount|].
  destruct (Ascii.eqb c "_") eqn:Hc; [|exact Hcount].
  simpl in Hcount. now rewrite (underscore_not_alnum c Hc) in Hcount.
Qed.

(** Lower-casing leaves a sanitised name as it is. *)
Lemma ToLower_sanitised (stem : string) :
  allBytes isSafeByte stem = true -> ToLower (stem ++ ".pdf") = stem ++ ".pdf".
Proof.
  intros Hstem. unfold ToLower.
  assert (Hascii : allBytes isASCIIByte (stem ++ ".pdf") = true).
  { rewrite allBytes_app, andb_true_iff. split; [|reflexivity].
    revert Hstem. apply allBytes_weaken. intros c Hc.
    now destruct (safe_byte_facts c Hc) as (_ & _ & -> & _). }
  rewrite Hascii. clear Hascii.
  induction stem as [|c stem IH]; [reflexivity|].
  simpl in Hstem |- *. apply andb_true_iff in Hstem as [Hc Hstem].
  destruct (safe_byte_facts c Hc) as (_ & _ & _ & ->). now rewrite IH.
Qed.

End SanitizerFacts.

Lemma occursIn_count (p : ascii -> bool) (sub s : string) :
  occursIn sub s -> countBytes p sub <= countBytes p s.
Proof. intros (before & after & ->). rewrite !countBytes_app. lia. Qed.

Lemma splitOn_whole (sep : ascii) (s : string) :
  countBytes (Ascii.eqb sep) s = 0 -> splitOn sep s = [s].
Proof.
  induction s as [|c s IH]; simpl; [reflexivity|].
  rewrite (Ascii.eqb_sym c sep). destruct (Ascii.eqb sep c); [discriminate|].
  intros Hs. now rewrite (IH Hs).
Qed.

Lemma dropLastElem_app (name : list ascii) (dir : list ascii) :
  forallb (fun c => negb (Ascii.eqb c "/")) name = true ->
  dropLastElem (name ++ "/"%char :: dir)%list = ("/"%char :: dir)%list.
Proof.
  induction name as [|c name IH]; simpl; [reflexivity|].
  intros [Hc Hname]%andb_true_iff. apply negb_true_iff in Hc.
  rewrite Hc. now apply IH.
Qed.

Section SanitizedPaths.
Context `{UnicodeTable}.

Lemma sanitised_no_slash (stem : string) :
  allBytes isSafeByte stem = true ->
  countBytes (Ascii.eqb "/") (stem ++ ".pdf") = 0.
Proof.
  intros Hstem. rewrite countBytes_app.
  rewrite (allBytes_no_count isSafeByte _ stem); [reflexivity| |exact Hstem].
  intros c Hc. rewrite Ascii.eqb_sym. apply (safe_byte_facts c Hc).
Qed.

Lemma sanitised_one_dot (stem : string) :
  allBytes isSafeByte stem = true ->
  countBytes (Ascii.eqb ".") (stem ++ ".pdf") = 1.
Proof.
  intros Hstem. rewrite countBytes_app.
  rewrite (allBytes_no_count isSafeByte _ stem); [reflexivity| |exact Hstem].
  intros c Hc. rewrite Ascii.eqb_sym. apply (safe_byte_facts c Hc).
Qed.

(** A sanitised name is a real path element: not empty, not [.], not [..]. *)
Lemma sanitised_is_element (stem : string) (out : list string) (rooted : bool) :
  allBytes isSafeByte stem = true ->
  cleanStep rooted out (stem ++ ".pdf") = (stem ++ ".pdf") :: out.
Proof.
  intros Hstem. unfold cleanStep. destruct stem as [|c stem]; [reflexivity|].
  simpl in Hstem. apply andb_true_iff in Hstem as [Hc _].
  destruct (safe_byte_facts c Hc) as (Hdot & _).
  simpl. now rewrite Hdot.
Qed.

Lemma Join_sanitised (stem : string) :
  allBytes isSafeByte stem = true ->
  Join [remoteFolder; stem ++ ".pdf"] = "Assets/" ++ stem ++ ".pdf".
Proof.
  intros Hstem. unfold remoteFolder, Join, Clean.
  change (joinWith "/" ["Assets/"; stem ++ ".pdf"])
    with ("Assets//" ++ stem ++ ".pdf").
  change (splitOn "/" ("Assets//" ++ stem ++ ".pdf"))
    with ("Assets" :: "" :: splitOn "/" (stem ++ ".pdf")).
  rewrite (splitOn_whole _ _ (sanitised_no_slash stem Hstem)).
  cbn [fold_left String.eqb HasPrefix Ascii.eqb Bool.eqb andb].
  change (cleanStep false (cleanStep false [] "Assets") "") with ["Assets"].
  now rewrite (sanitised_is_element stem _ false Hstem).
Qed.

Lemma Dir_sanitised (stem : string) :
  allBytes isSafeByte stem = true ->
  Dir ("Assets/" ++ stem ++ ".pdf") = "Assets".
Proof.
  intros Hstem. unfold Dir.
  change ("Assets/" ++ stem ++ ".pdf") with ("Assets" ++ "/" ++ (stem ++ ".pdf")).
  rewrite !list_ascii_of_string_app, !rev_app_distr, <- app_assoc.
  change (List.rev (list_ascii_of_string "/") ++ List.rev (list_ascii_of_string "Assets"))%list
    with ("/"%char :: List.rev (list_ascii_of_string "Assets"))%list.
  rewrite dropLastElem_app; [reflexivity|].
  rewrite <- rev_app_distr, <- list_ascii_of_string_app.
  apply forallb_rev_true. rewrite <- allBytes_forallb.
  pose proof (sanitised_no_slash stem Hstem) as Hnone.
  revert Hnone. generalize (stem ++ ".pdf"). intros s.
  induction s as [|c s IH]; cbn [countBytes allBytes]; [reflexivity|].
  rewrite (Ascii.eqb_sym c "/").
  destruct (Ascii.eqb "/" c); cbn [negb andb Nat.add]; intros Hs;
    [discriminate | now apply IH].
Qed.

End SanitizedPaths.

(** C1.  The sanitiser is not idempotent.  Its extension test runs after
    the dot has been replaced by an underscore, so [.pdf] is appended to
    every name, also to one that ends in [.pdf] already:
    ["Sheet A/B (1).PDF"] becomes ["sheet_a_b_1_pdf.pdf"], not
    ["sheet_a_b_1.pdf"], and sanitising any output again changes it. *)
Theorem urlToFilename_appends_pdf_again `{UnicodeTable} :
  urlToFilename "Sheet A/B (1).PDF" = "sheet_a_b_1_pdf.pdf"
  /\ urlToFilename "sheet_a_b_1.pdf" = "sheet_a_b_1_pdf.pdf"
  /\ urlToFilename (urlToFilename "Sheet A/B (1).PDF") = "sheet_a_b_1_pdf_pdf.pdf"
  /\ forall s, urlToFilename (urlToFilename s) <> urlToFilename s.
Proof.
  split; [reflexivity | split; [reflexivity | split; [reflexivity|]]].
  intros s Hfix.
  apply (f_equal (countBytes isLowerAlnum)) in Hfix.
  rewrite (urlToFilename_appends (urlToFilename s)) in Hfix.
  rewrite countBytes_app, safeName_alnum in Hfix.
  rewrite (urlToFilename_appends s) in Hfix.
  rewrite (ToLower_sanitised _ (safeName_safe s)) in Hfix.
  simpl in Hfix. lia.
Qed.

(** C9.  For every input the sanitised name is a stem over [a-z0-9_]
    followed by [.pdf]; it holds no separator and no [..]; joined to the
    output directory of [main] it names a file directly inside that
    directory; and its extension is on the allow-list of the second
    variant's downloader. *)
Theorem urlToFilename_safe `{UnicodeTable} (rawURL : string) :
  (exists stem, urlToFilename rawURL = stem ++ ".pdf"
                /\ allBytes isSafeByte stem = true)
  /\ ~ occursIn "/" (urlToFilename rawURL)
  /\ ~ occursIn ".." (urlToFilename rawURL)
  /\ Join [remoteFolder; urlToFilename rawURL] = "Assets/" ++ urlToFilename rawURL
  /\ Dir (Join [remoteFolder; urlToFilename rawURL]) = Clean remoteFolder
  /\ extensionAllowed (ToLower (Ext (urlToFilename rawURL)))
                      Variant2.allowedExtensions = true.
Proof.
  rewrite urlToFilename_appends.
  pose proof (safeName_safe rawURL) as Hstem.
  split; [eauto|]. split; [|split; [|split; [|split]]].
  - intros Hin. apply (occursIn_count (Ascii.eqb "/")) in Hin.
    rewrite (sanitised_no_slash _ Hstem) in Hin. simpl in Hin. lia.
  - intros Hin. apply (occursIn_count (Ascii.eqb ".")) in Hin.
    rewrite (sanitised_one_dot _ Hstem) in Hin. simpl in Hin. lia.
  - now apply Join_sanitised.
  - rewrite (Join_sanitised _ Hstem). now apply Dir_sanitised.
  - rewrite Ext_pdf. reflexivity.
Qed.

(** ** The downloader *)

Lemma emit_fs (e : Event) (w : World) : fs (emit e w) = fs w.
Proof. reflexivity. Qed.

Lemma http_Get_fs (env : Env) (url : string) (w : World) :
  fs (snd (http_Get env url w)) = fs w.
Proof. unfold http_Get. now destruct (http_NewRequest env url). Qed.

Lemma http_Get_result (env : Env) (url : string) (w : World) :
  http_Get env url w
  = match urlParseError env url with
    | Some cause => (inl cause, w)
    | None => (roundTrip env (plainGet url), emit (HttpSend (plainGet url)) w)
    end.
Proof.
  unfold http_Get, http_NewRequest. now destruct (urlParseError env url).
Qed.

Lemma fileExists_emit (env : Env) (path : string) (e : Event) (w : World) :
  fileExists env path (emit e w) = fileExists env path w.
Proof. reflexivity. Qed.

Section Downloader.
Context `{UnicodeTable}.
Variable env : Env.

(** Both variants open with the same gate. *)
Lemma downloadFile_gate_closed (v : Variant) (base name dir : string) (w : World) :
  passesGate v name = false ->
  downloadFileOf env v base name dir w = skippedAtGate name w.
Proof.
  unfold passesGate. intros Hgate.
  destruct v; cbn [downloadFileOf allowListOf] in *;
    unfold Variant1.downloadFile, Variant2.downloadFile;
    cbv zeta; now rewrite Hgate.
Qed.

Lemma downloadFile_exists (v : Variant) (base name dir : string) (w : World) :
  passesGate v name = true ->
  fileExists env (Join [dir; name]) w = true ->
  downloadFileOf env v base name dir w
  = (None, logPrintf (msgAlreadyExists (Join [dir; name])) w).
Proof.
  unfold passesGate. intros Hgate Hex.
  destruct v; cbn [downloadFileOf allowListOf] in *;
    unfold Variant1.downloadFile, Variant2.downloadFile;
    cbv zeta; now rewrite Hgate, Hex.
Qed.

Lemma downloadFile_get_failed (v : Variant) (base name dir cause : string)
      (w : World) :
  passesGate v name = true ->
  fileExists env (Join [dir; name]) w = false ->
  fst (http_Get env (base ++ name) w) = inl cause ->
  downloadFileOf env v base name dir w
  = (Some (errDownload (base ++ name) cause), snd (http_Get env (base ++ name) w)).
Proof.
  unfold passesGate. intros Hgate Hex Hget.
  destruct v; cbn [downloadFileOf allowListOf] in *;
    unfold Variant1.downloadFile, Variant2.downloadFile;
    cbv zeta; rewrite Hgate, Hex; cbn [negb];
    destruct (http_Get env (base ++ name) w) as [[e|resp] w'];
    cbn [fst snd] in *; congruence.
Qed.

End Downloader.

(** C10.  The downloader leaves the file system as it found it on the
    no-op of the extension gate, on the no-op of an existing file and
    when its GET fails; put the other way round, a run that creates or
    changes a file has passed the gate, found no file and received a
    response to its GET. *)
Theorem downloadFile_writes_only_after_GET `{UnicodeTable} (env : Env)
        (v : Variant) (base name dir : string) (w : World) :
  (passesGate v name = false
   \/ fileExists env (Join [dir; name]) w = true
   \/ (exists cause, fst (http_Get env (base ++ name) w) = inl cause) ->
   fs (snd (downloadFileOf env v base name dir w)) = fs w)
  /\ (fs (snd (downloadFileOf env v base name dir w)) <> fs w ->
      passesGate v name = true
      /\ fileExists env (Join [dir; name]) w = false
      /\ exists resp, fst (http_Get env (base ++ name) w) = inr resp).
Proof.
  assert (Hkeep : passesGate v name = false
                  \/ fileExists env (Join [dir; name]) w = true
                  \/ (exists cause, fst (http_Get env (base ++ name) w) = inl cause) ->
                  fs (snd (downloadFileOf env v base name dir w)) = fs w).
  { intros Hcase.
    destruct (passesGate v name) eqn:Hgate;
      [|now rewrite downloadFile_gate_closed].
    destruct (fileExists env (Join [dir; name]) w) eqn:Hex;
      [now rewrite downloadFile_exists|].
    destruct Hcase as [Hc|[Hc|[cause Hget]]]; try discriminate.
    rewrite (downloadFile_get_failed env v base name dir cause w Hgate Hex Hget).
    apply http_Get_fs. }
  split; [exact Hkeep|].
  intros Hchanged.
  destruct (passesGate v name); [|destruct Hchanged; apply Hkeep; tauto].
  destruct (fileExists env (Join [dir; name]) w);
    [destruct Hchanged; apply Hkeep; tauto|].
  destruct (fst (http_Get env (base ++ name) w)) as [cause|resp]; [|eauto].
  destruct Hchanged. apply Hkeep. eauto.
Qed.

(** The three quiet ways out, and a download that does write. *)
Lemma downloadFile_writes_only_after_GET_witness :
  (@passesGate noUnicode Second "file.html" = false
   /\ fs (snd (@downloadFileOf noUnicode (friendlyEnv "data") Second
                 baseURL "file.html" remoteFolder emptyWorld))
      = fs emptyWorld)
  /\ (fileExists (friendlyEnv "data") (Join [remoteFolder; "notes.txt"]) secondRun = true
      /\ fs (snd (@downloadFileOf noUnicode (friendlyEnv "data") First
                    baseURL "notes.txt" remoteFolder secondRun))
         = fs secondRun)
  /\ (fst (http_Get offlineEnv (baseURL ++ "notes.txt") emptyWorld)
      = inl "dial tcp: connection refused"
      /\ fs (snd (@downloadFileOf noUnicode offlineEnv First
                    baseURL "notes.txt" remoteFolder emptyWorld))
         = fs emptyWorld)
  /\ (fs (snd (@downloadFileOf noUnicode (friendlyEnv "data") First
                 baseURL "notes.txt" remoteFolder emptyWorld))
      <> fs emptyWorld
      /\ exists resp,
          fst (http_Get (friendlyEnv "data") (baseURL ++ "notes.txt") emptyWorld)
          = inr resp).
Proof.
  split; [|split; [|split]].
  - split; [reflexivity|].
    apply (@downloadFile_writes_only_after_GET noUnicode). left. reflexivity.
  - split; [reflexivity|].
    apply (@downloadFile_writes_only_after_GET noUnicode). right. left. reflexivity.
  - split; [reflexivity|].
    apply (@downloadFile_writes_only_after_GET noUnicode).
    right. right. eexists. reflexivity.
  - assert (Hchanged : fs (snd (@downloadFileOf noUnicode (friendlyEnv "data") First
                                  baseURL "notes.txt" remoteFolder emptyWorld))
                       <> fs emptyWorld).
    { intros Heq. apply (f_equal (fun m => m !! "Assets/notes.txt")) in Heq.
      vm_compute in Heq. discriminate Heq. }
    split; [exact Hchanged|].
    apply (proj2 (@downloadFile_writes_only_after_GET noUnicode (friendlyEnv "data")
                    First baseURL "notes.txt" remoteFolder emptyWorld) Hchanged).
Defined.

(** ** Paths, element by element *)

Lemma splitOn_cons (sep : ascii) (s : string) :
  exists first others, splitOn sep s = first :: others.
Proof.
  induction s as [|c s (first & others & IH)]; cbn [splitOn]; [eauto|].
  destruct (Ascii.eqb c sep); [eauto|]. rewrite IH. eauto.
Qed.

Lemma splitOn_app_sep (a b : string) :
  splitOn "/" (a ++ String "/" b) = (splitOn "/" a ++ splitOn "/" b)%list.
Proof.
  induction a as [|c a IH]; cbn [String.append splitOn].
  - now rewrite Ascii.eqb_refl.
  - rewrite IH. destruct (Ascii.eqb c "/"); [reflexivity|].
    destruct (splitOn_cons "/" a) as (first & others & ->). reflexivity.
Qed.

Lemma noSlash_cons (c : ascii) (s : string) :
  noSlash (String c s) <-> c <> "/"%char /\ noSlash s.
Proof.
  unfold noSlash. cbn [countBytes]. rewrite (Ascii.eqb_sym "/" c).
  destruct (Ascii.eqb_spec c "/") as [->|Hne]; split.
  - discriminate.
  - intros [Hc _]. now destruct Hc.
  - intros Hs. split; [exact Hne | exact Hs].
  - intros [_ Hs]. exact Hs.
Qed.

Lemma splitOn_noSlash (s : string) : Forall noSlash (splitOn "/" s).
Proof.
  induction s as [|c s IH]; cbn [splitOn].
  - constructor; [reflexivity | constructor].
  - destruct (Ascii.eqb_spec c "/") as [->|Hne].
    + constructor; [reflexivity | exact IH].
    + destruct (splitOn_cons "/" s) as (first & others & Hs). rewrite Hs in IH |- *.
      inversion IH as [|? ? Hfirst Hothers]; subst.
      constructor; [|exact Hothers]. now apply noSlash_cons.
Qed.

Lemma joinWith_cons (e : string) (next : string) (rest : list string) :
  joinWith "/" (e :: next :: rest) = e ++ String "/" (joinWith "/" (next :: rest)).
Proof. reflexivity. Qed.

Lemma splitOn_joinWith (elems : list string) :
  elems <> [] -> Forall noSlash elems ->
  splitOn "/" (joinWith "/" elems) = elems.
Proof.
  induction elems as [|e [|next rest] IH]; intros Hne Hall.
  - now destruct Hne.
  - inversion Hall; subst. now apply splitOn_whole.
  - inversion Hall as [|? ? He Hrest]; subst.
    rewrite joinWith_cons, splitOn_app_sep, (splitOn_whole _ _ He).
    rewrite IH; [reflexivity | discriminate | exact Hrest].
Qed.

Lemma joinWith_snoc (elems : list string) (next last : string) :
  joinWith "/" ((next :: elems) ++ [last])
  = joinWith "/" (next :: elems) ++ String "/" last.
Proof.
  revert next. induction elems as [|e elems IH]; intros next.
  - reflexivity.
  - change ((next :: e :: elems) ++ [last])%list with (next :: (e :: elems) ++ [last])%list.
    cbn [app]. rewrite !joinWith_cons.
    change (e :: (elems ++ [last])%list) with ((e :: elems) ++ [last])%list.
    rewrite IH, append_assoc. reflexivity.
Qed.

(** ** The buffer of [filepath.Clean] *)

Lemma Clean_position (path : string) :
  path <> "" ->
  Clean path
  = positionPath (HasPrefix path "/")
      (fold_left (cleanStep (HasPrefix path "/")) (splitOn "/" path) []).
Proof.
  intros Hne. unfold Clean, positionPath.
  destruct (String.eqb_spec path "") as [->|_]; [now destruct Hne | reflexivity].
Qed.

Lemma cleanStep_skip (rooted : bool) (out : list string) (elem : string) :
  elem = "" \/ elem = "." -> cleanStep rooted out elem = out.
Proof. intros [-> | ->]; reflexivity. Qed.

Lemma cleanStep_name (rooted : bool) (out : list string) (elem : string) :
  elem <> "" -> elem <> "." -> elem <> ".." ->
  cleanStep rooted out elem = elem :: out.
Proof.
  intros He Hdot Hup. unfold cleanStep.
  destruct (String.eqb_spec elem ""); [contradiction|].
  destruct (String.eqb_spec elem "."); [contradiction|].
  destruct (String.eqb_spec elem ".."); [contradiction|]. reflexivity.
Qed.

Lemma cleanStep_up (rooted : bool) (out : list string) :
  cleanStep rooted out ".."
  = match out with
    | last :: before => if String.eqb last ".." then ".." :: out else before
    | [] => if rooted then [] else [".."]
    end.
Proof. now destruct out. Qed.

Lemma elem_cases (elem : string) :
  (elem = "" \/ elem = ".") \/ elem = ".."
  \/ (elem <> "" /\ elem <> "." /\ elem <> "..").
Proof.
  destruct (String.eqb_spec elem ""); [tauto|].
  destruct (String.eqb_spec elem "."); [tauto|].
  destruct (String.eqb_spec elem ".."); tauto.
Qed.

Lemma cleanStep_cleaned (rooted : bool) (out : list string) (elem : string) :
  cleanedStack rooted out -> noSlash elem ->
  cleanedStack rooted (cleanStep rooted out elem).
Proof.
  intros Hout Helem.
  destruct (elem_cases elem) as [Hskip|[->|(He & Hdot & Hup)]].
  - now rewrite cleanStep_skip.
  - rewrite cleanStep_up. destruct out as [|last before].
    + destruct rooted; cbn; [exact I|]. repeat split; try discriminate.
    + destruct (String.eqb_spec last "..") as [->|Hlast].
      * cbn [cleanedStack] in Hout |- *.
        destruct Hout as (Hns & H1 & H2 & Hshape & Hbelow).
        destruct (Hshape eq_refl) as [Hr Hall].
        repeat split; try assumption; try discriminate.
      * cbn [cleanedStack] in Hout. tauto.
  - rewrite cleanStep_name by assumption. cbn [cleanedStack].
    repeat split; try assumption; now destruct Hup.
Qed.

Lemma fold_cleanStep_cleaned (rooted : bool) (elems out : list string) :
  cleanedStack rooted out -> Forall noSlash elems ->
  cleanedStack rooted (fold_left (cleanStep rooted) elems out).
Proof.
  revert out. induction elems as [|e elems IH]; intros out Hout Hall;
    cbn [fold_left]; [exact Hout|].
  inversion Hall; subst. apply IH; [now apply cleanStep_cleaned | assumption].
Qed.

(** Walking the elements of a cleaned buffer rebuilds it. *)
Lemma cleanStep_replay (rooted : bool) (out : list string) :
  cleanedStack rooted out ->
  fold_left (cleanStep rooted) (List.rev out) [] = out.
Proof.
  induction out as [|e below IH]; [reflexivity|].
  cbn [cleanedStack List.rev]. intros (Hns & He & Hdot & Hshape & Hbelow).
  rewrite fold_left_app, (IH Hbelow). cbn [fold_left].
  destruct (String.eqb_spec e "..") as [->|Hup].
  - destruct (Hshape eq_refl) as [-> Hall]. rewrite cleanStep_up.
    destruct below as [|last before]; [reflexivity|].
    cbn [forallb] in Hall. apply andb_true_iff in Hall as [Hlast _].
    rewrite String.eqb_sym in Hlast. now rewrite Hlast.
  - now apply cleanStep_name.
Qed.

Lemma cleanedStack_elems (rooted : bool) (out : list string) :
  cleanedStack rooted out ->
  Forall (fun e => noSlash e /\ e <> "" /\ e <> ".") out.
Proof.
  induction out as [|e below IH]; [constructor|].
  cbn [cleanedStack]. intros (Hns & He & Hdot & _ & Hbelow).
  constructor; [tauto | now apply IH].
Qed.

(** ** The path of a position *)

Lemma joinWith_nonempty (first : string) (others : list string) :
  first <> "" -> joinWith "/" (first :: others) <> "".
Proof.
  intros Hfirst. destruct others as [|next rest]; [exact Hfirst|].
  rewrite joinWith_cons. destruct first; [now destruct Hfirst | discriminate].
Qed.

Lemma rev_cons_first {A} (x : A) (l : list A) :
  exists first others, List.rev (x :: l) = first :: others /\ In first (x :: l).
Proof.
  destruct (List.rev (x :: l)) as [|first others] eqn:Hrev.
  - apply (f_equal (@List.length A)) in Hrev. rewrite length_rev in Hrev.
    discriminate.
  - exists first, others. split; [reflexivity|].
    apply in_rev. rewrite Hrev. now left.
Qed.

Lemma positionPath_cons (rooted : bool) (e : string) (below : list string) :
  cleanedStack rooted (e :: below) ->
  positionPath rooted (e :: below)
  = (if rooted then "/" else "") ++ joinWith "/" (List.rev (e :: below)).
Proof.
  intros Hout. unfold positionPath. destruct rooted; [reflexivity|].
  cbn [String.append].
  destruct (rev_cons_first e below) as (first & others & Hrev & Hin).
  rewrite Hrev.
  pose proof (cleanedStack_elems _ _ Hout) as Hall.
  rewrite List.Forall_forall in Hall. destruct (Hall first Hin) as (_ & Hfirst & _).
  pose proof (joinWith_nonempty first others Hfirst) as Hne.
  now destruct (String.eqb_spec (joinWith "/" (first :: others)) "").
Qed.

Lemma positionPath_nonempty (rooted : bool) (out : list string) :
  positionPath rooted out <> "".
Proof.
  unfold positionPath.
  destruct (String.eqb_spec ((if rooted then "/" else "") ++ joinWith "/" (List.rev out)) "");
    [discriminate | assumption].
Qed.

Lemma cleanedStack_noSlash (rooted : bool) (out : list string) :
  cleanedStack rooted out -> Forall noSlash (List.rev out).
Proof.
  intros Hout. apply List.Forall_forall. intros e Hin%in_rev.
  pose proof (cleanedStack_elems _ _ Hout) as Hall.
  rewrite List.Forall_forall in Hall. now apply Hall.
Qed.

(** The elements of the path of a position are those of the buffer. *)
Lemma positionPath_elems (rooted : bool) (e : string) (below : list string) :
  cleanedStack rooted (e :: below) ->
  splitOn "/" (positionPath rooted (e :: below))
  = (leadElems rooted ++ List.rev (e :: below))%list.
Proof.
  intros Hout. rewrite (positionPath_cons _ _ _ Hout).
  assert (Hsplit : splitOn "/" (joinWith "/" (List.rev (e :: below)))
                   = List.rev (e :: below)).
  { apply splitOn_joinWith; [|now apply (cleanedStack_noSlash rooted)].
    intros Hnil. apply (f_equal (@List.length string)) in Hnil.
    rewrite length_rev in Hnil. discriminate. }
  destruct rooted; cbn [leadElems String.append app].
  - change (splitOn "/" (String "/" (joinWith "/" (List.rev (e :: below)))))
      with ("" :: splitOn "/" (joinWith "/" (List.rev (e :: below)))).
    now rewrite Hsplit.
  - exact Hsplit.
Qed.

Lemma HasPrefix_slash_cons (c : ascii) (rest : string) :
  HasPrefix (String c rest) "/" = Ascii.eqb c "/".
Proof. cbn [HasPrefix]. apply andb_true_r. Qed.

Lemma positionPath_rooted (rooted : bool) (out : list string) :
  cleanedStack rooted out ->
  HasPrefix (positionPath rooted out) "/" = rooted.
Proof.
  intros Hout. destruct out as [|e below]; [now destruct rooted|].
  rewrite (positionPath_cons _ _ _ Hout). destruct rooted; [reflexivity|].
  cbn [String.append].
  destruct (rev_cons_first e below) as (first & others & Hrev & Hin).
  rewrite Hrev.
  pose proof (cleanedStack_elems _ _ Hout) as Hall.
  rewrite List.Forall_forall in Hall. destruct (Hall first Hin) as (Hns & Hfirst & _).
  destruct first as [|c first]; [now destruct Hfirst|].
  apply noSlash_cons in Hns as [Hc _].
  assert (Hhead : exists tail, joinWith "/" (String c first :: others) = String c tail).
  { destruct others; [now exists first|]. rewrite joinWith_cons. eexists. reflexivity. }
  destruct Hhead as [tail ->]. rewrite HasPrefix_slash_cons.
  now destruct (Ascii.eqb_spec c "/").
Qed.

(** The buffer of a position is rebuilt from its path: positions with
    different buffers have different paths. *)
Lemma positionPath_buffer (rooted : bool) (out : list string) :
  cleanedStack rooted out ->
  fold_left (cleanStep rooted) (splitOn "/" (positionPath rooted out)) [] = out.
Proof.
  intros Hout. destruct out as [|e below]; [now destruct rooted|].
  rewrite (positionPath_elems _ _ _ Hout), fold_left_app.
  assert (Hlead : fold_left (cleanStep rooted) (leadElems rooted) [] = [])
    by now destruct rooted.
  rewrite Hlead. now apply cleanStep_replay.
Qed.

Lemma positionPath_inj (rooted rooted' : bool) (out out' : list string) :
  cleanedStack rooted out -> cleanedStack rooted' out' ->
  positionPath rooted out = positionPath rooted' out' ->
  rooted = rooted' /\ out = out'.
Proof.
  intros Hout Hout' Heq.
  assert (Hr : rooted = rooted').
  { rewrite <- (positionPath_rooted _ _ Hout), <- (positionPath_rooted _ _ Hout').
    now rewrite Heq. }
  subst rooted'. split; [reflexivity|].
  rewrite <- (positionPath_buffer _ _ Hout), <- (positionPath_buffer _ _ Hout').
  now rewrite Heq.
Qed.

(** Cleaning a cleaned path changes nothing. *)
Lemma Clean_positionPath (rooted : bool) (out : list string) :
  cleanedStack rooted out ->
  Clean (positionPath rooted out) = positionPath rooted out.
Proof.
  intros Hout. rewrite Clean_position by apply positionPath_nonempty.
  now rewrite (positionPath_rooted _ _ Hout), (positionPath_buffer _ _ Hout).
Qed.

(** Every cleaned path is the path of a position. *)
Lemma Clean_cleaned (path : string) :
  path <> "" ->
  exists out,
    cleanedStack (HasPrefix path "/") out
    /\ Clean path = positionPath (HasPrefix path "/") out.
Proof.
  intros Hne. eexists. split; [|now apply Clean_position].
  apply fold_cleanStep_cleaned; [exact I | apply splitOn_noSlash].
Qed.

Lemma Clean_twice (path : string) : Clean (Clean path) = Clean path.
Proof.
  destruct (String.eqb_spec path "") as [->|Hne]; [reflexivity|].
  destruct (Clean_cleaned path Hne) as (out & Hout & ->).
  now apply Clean_positionPath.
Qed.

(** ** The walk *)

Lemma walk_app (m : gmap string FNode) (rooted : bool) (elems more out : list string) :
  walk m rooted out (elems ++ more)
  = match walk m rooted out elems with
    | inr reached => walk m rooted reached more
    | inl cause => inl cause
    end.
Proof.
  revert out. induction elems as [|e elems IH]; intros out; cbn [walk app];
    [reflexivity|].
  destruct (entryAt m rooted out) as [[content|]|]; try reflexivity. apply IH.
Qed.

(** A walk that arrives ends where [filepath.Clean] ends. *)
Lemma walk_buffer (m : gmap string FNode) (rooted : bool) (elems out reached : list string) :
  walk m rooted out elems = inr reached ->
  reached = fold_left (cleanStep rooted) elems out.
Proof.
  revert out. induction elems as [|e elems IH]; intros out; cbn [walk fold_left].
  - now intros [= <-].
  - destruct (entryAt m rooted out) as [[content|]|]; try discriminate. apply IH.
Qed.

Lemma cleanStep_push (rooted : bool) (e : string) (below : list string) :
  cleanedStack rooted (e :: below) -> cleanStep rooted below e = e :: below.
Proof.
  cbn [cleanedStack]. intros (Hns & He & Hdot & Hshape & Hbelow).
  destruct (String.eqb_spec e "..") as [->|Hup]; [|now apply cleanStep_name].
  destruct (Hshape eq_refl) as [-> Hall]. rewrite cleanStep_up.
  destruct below as [|last before]; [reflexivity|].
  cbn [forallb] in Hall. apply andb_true_iff in Hall as [Hlast _].
  rewrite String.eqb_sym in Hlast. now rewrite Hlast.
Qed.

(** A walk that arrives has found a directory at every position above
    the one it ends at. *)
Lemma walk_above (m : gmap string FNode) (rooted : bool) (elems out reached : list string) :
  aboveAreDirectories m rooted out ->
  walk m rooted out elems = inr reached ->
  aboveAreDirectories m rooted reached.
Proof.
  revert out. induction elems as [|e elems IH]; intros out Hout; cbn [walk].
  - now intros [= <-].
  - destruct (entryAt m rooted out) as [[content|]|] eqn:Hhere; try discriminate.
    apply IH.
    destruct (elem_cases e) as [Hskip|[->|(He & Hdot & Hup)]].
    + now rewrite cleanStep_skip.
    + rewrite cleanStep_up. destruct out as [|last before].
      * destruct rooted; cbn [aboveAreDirectories]; [exact I|]. now split.
      * destruct (String.eqb last "..").
        -- cbn [aboveAreDirectories]. now split.
        -- cbn [aboveAreDirectories] in Hout. tauto.
    + rewrite cleanStep_name by assumption. cbn [aboveAreDirectories]. now split.
Qed.

(** The walk along a cleaned path looks at the positions above its end
    and at nothing else. *)
Lemma walk_cleaned (m : gmap string FNode) (rooted : bool) (out : list string) :
  cleanedStack rooted out ->
  aboveAreDirectories m rooted out ->
  walk m rooted [] (leadElems rooted ++ List.rev out) = inr out.
Proof.
  intros Hout Habove. rewrite walk_app.
  assert (Hlead : walk m rooted [] (leadElems rooted) = inr [])
    by now destruct rooted.
  rewrite Hlead. clear Hlead.
  induction out as [|e below IH]; [reflexivity|].
  cbn [List.rev]. rewrite walk_app.
  cbn [aboveAreDirectories] in Habove. destruct Habove as [Hhere Habove].
  rewrite IH; [|cbn [cleanedStack] in Hout; tauto | exact Habove].
  cbn [walk]. rewrite Hhere. now rewrite (cleanStep_push _ _ _ Hout).
Qed.

Lemma resolve_walk (m : gmap string FNode) (path : string) :
  path <> "" ->
  resolve m path = walk m (HasPrefix path "/") [] (splitOn "/" path).
Proof.
  intros Hne. unfold resolve.
  now destruct (String.eqb_spec path "").
Qed.

(** What a successful look-up has found on its way. *)
Lemma lookupPath_found (m : gmap string FNode) (path : string) (node : FNode) :
  lookupPath m path = Some node ->
  path <> ""
  /\ exists out,
      walk m (HasPrefix path "/") [] (splitOn "/" path) = inr out
      /\ entryAt m (HasPrefix path "/") out = Some node
      /\ cleanedStack (HasPrefix path "/") out
      /\ aboveAreDirectories m (HasPrefix path "/") out
      /\ Clean path = positionPath (HasPrefix path "/") out.
Proof.
  unfold lookupPath. intros Hfound.
  destruct (String.eqb_spec path "") as [->|Hne]; [discriminate|].
  split; [exact Hne|]. rewrite (resolve_walk m path Hne) in Hfound.
  destruct (walk m (HasPrefix path "/") [] (splitOn "/" path)) as [cause|out] eqn:Hwalk;
    [discriminate|].
  exists out. split; [reflexivity|]. split; [exact Hfound|].
  pose proof (walk_buffer _ _ _ _ _ Hwalk) as ->.
  split; [apply fold_cleanStep_cleaned; [exact I | apply splitOn_noSlash]|].
  split; [exact (walk_above m _ _ [] _ I Hwalk) | now apply Clean_position].
Qed.

(** The look-up at the path of a position. *)
Lemma lookupPath_position (m : gmap string FNode) (rooted : bool) (out : list string) :
  cleanedStack rooted out ->
  aboveAreDirectories m rooted out ->
  lookupPath m (positionPath rooted out) = entryAt m rooted out.
Proof.
  intros Hout Habove. unfold lookupPath.
  rewrite resolve_walk by apply positionPath_nonempty.
  rewrite (positionPath_rooted _ _ Hout).
  destruct out as [|e below]; [now destruct rooted|].
  rewrite (positionPath_elems _ _ _ Hout).
  now rewrite (walk_cleaned m _ _ Hout Habove).
Qed.

(** A path that leads somewhere leads there in its cleaned form too. *)
Lemma lookupPath_Clean (m : gmap string FNode) (path : string) (node : FNode) :
  lookupPath m path = Some node -> lookupPath m (Clean path) = Some node.
Proof.
  intros Hfound.
  destruct (lookupPath_found m path node Hfound)
    as (_ & out & _ & Hentry & Hout & Habove & ->).
  now rewrite lookupPath_position.
Qed.

(** ** Entries under insertion *)

Lemma entryAt_map (m : gmap string FNode) (rooted : bool) (out : list string) :
  entryAt m rooted out <> Some Directory ->
  entryAt m rooted out = m !! positionPath rooted out.
Proof.
  unfold entryAt. destruct (forallb (String.eqb "..") out); [|reflexivity].
  intros Hno. now destruct Hno.
Qed.

Lemma entryAt_insert_directory (m : gmap string FNode) (key : string) (new : FNode)
      (rooted : bool) (out : list string) :
  m !! key <> Some Directory ->
  entryAt m rooted out = Some Directory ->
  entryAt (<[key := new]> m) rooted out = Some Directory.
Proof.
  unfold entryAt. intros Hkey.
  destruct (forallb (String.eqb "..") out); [reflexivity|].
  intros Hdir. rewrite lookup_insert_ne; [exact Hdir|]. congruence.
Qed.

Lemma entryAt_insert_ne (m : gmap string FNode) (key : string) (new : FNode)
      (rooted : bool) (out : list string) :
  positionPath rooted out <> key ->
  entryAt (<[key := new]> m) rooted out = entryAt m rooted out.
Proof.
  unfold entryAt. intros Hne.
  destruct (forallb (String.eqb "..") out); [reflexivity|].
  now rewrite lookup_insert_ne.
Qed.

Lemma entryAt_insert_here (m : gmap string FNode) (new : FNode)
      (rooted : bool) (out : list string) :
  entryAt m rooted out <> Some Directory ->
  entryAt (<[positionPath rooted out := new]> m) rooted out = Some new.
Proof.
  unfold entryAt.
  destruct (forallb (String.eqb "..") out); [intros Hno; now destruct Hno|].
  intros _. apply lookup_insert_eq.
Qed.

(** A new entry where no directory was does not disturb a walk. *)
Lemma walk_insert (m : gmap string FNode) (key : string) (new : FNode)
      (rooted : bool) (elems out reached : list string) :
  m !! key <> Some Directory ->
  walk m rooted out elems = inr reached ->
  walk (<[key := new]> m) rooted out elems = inr reached.
Proof.
  intros Hkey. revert out. induction elems as [|e elems IH]; intros out; cbn [walk];
    [trivial|].
  destruct (entryAt m rooted out) as [[content|]|] eqn:Hhere; try discriminate.
  rewrite (entryAt_insert_directory m key new rooted out Hkey Hhere). apply IH.
Qed.

(** A new entry under a key other than that of a path leaves what the
    path leads to. *)
Lemma lookupPath_insert_other (m : gmap string FNode) (key path : string)
      (new old : FNode) :
  m !! key <> Some Directory ->
  Clean path <> key ->
  lookupPath m path = Some old ->
  lookupPath (<[key := new]> m) path = Some old.
Proof.
  intros Hkey Hother Hold.
  destruct (lookupPath_found m path old Hold)
    as (Hne & out & Hwalk & Hentry & _ & _ & Hclean).
  unfold lookupPath. rewrite resolve_walk by exact Hne.
  rewrite (walk_insert m key new _ _ _ _ Hkey Hwalk).
  rewrite entryAt_insert_ne; [exact Hentry | congruence].
Qed.

(** A new entry at a free key leaves every path that led somewhere as
    it was. *)
Lemma lookupPath_insert_free (m : gmap string FNode) (key path : string)
      (new old : FNode) :
  m !! key = None ->
  lookupPath m path = Some old ->
  lookupPath (<[key := new]> m) path = Some old.
Proof.
  intros Hfree Hold.
  destruct (lookupPath_found m path old Hold)
    as (Hne & out & Hwalk & Hentry & _ & _ & Hclean).
  unfold lookupPath. rewrite resolve_walk by exact Hne.
  rewrite (walk_insert m key new _ _ _ _) by (exact Hwalk || congruence).
  revert Hentry. unfold entryAt.
  destruct (forallb (String.eqb "..") out); [trivial|].
  intros Hentry. rewrite lookup_insert_ne; [exact Hentry | congruence].
Qed.

(** ** System calls leave the emitted events alone *)

(** How [os.Mkdir] ends: with an error and nothing changed, or with a
    new directory at a position that held nothing. *)
Lemma os_Mkdir_cases (env : Env) (path : string) (w : World) :
  (exists err, os_Mkdir env path w = (Some err, w))
  \/ (path <> ""
      /\ exists out,
          walk (fs w) (HasPrefix path "/") [] (dropTrailingEmpty (splitOn "/" path))
          = inr out
          /\ entryAt (fs w) (HasPrefix path "/") out = None
          /\ os_Mkdir env path w
             = (None,
                setFs (<[positionPath (HasPrefix path "/") out := Directory]> (fs w)) w)).
Proof.
  unfold os_Mkdir. destruct (sysFault env (SysMkdir path)); [left; eauto|].
  destruct (String.eqb_spec path "") as [->|Hne]; [left; eauto|]. cbv zeta.
  destruct (walk (fs w) (HasPrefix path "/") [] (dropTrailingEmpty (splitOn "/" path)))
    as [cause|out]; [left; eauto|].
  destruct (entryAt (fs w) (HasPrefix path "/") out) eqn:Hentry; [left; eauto|].
  right. split; [exact Hne|]. exists out. repeat split. exact Hentry.
Qed.

(** How [os.Create] ends: with an error and nothing changed, or with an
    empty file at a position that held no directory. *)
Lemma os_Create_cases (env : Env) (path : string) (w : World) :
  (exists err, os_Create env path w = (Some err, w))
  \/ (path <> ""
      /\ exists out,
          walk (fs w) (HasPrefix path "/") [] (splitOn "/" path) = inr out
          /\ entryAt (fs w) (HasPrefix path "/") out <> Some Directory
          /\ positionPath (HasPrefix path "/") out = Clean path
          /\ os_Create env path w
             = (None, setFs (<[Clean path := RegularFile ""]> (fs w)) w)).
Proof.
  unfold os_Create. destruct (sysFault env (SysOpen path)); [left; eauto|].
  cbv zeta.
  destruct (String.eqb_spec path "") as [->|Hne]; [left; eauto|].
  destruct (HasSuffix path "/").
  { destruct (walk (fs w) (HasPrefix path "/") [] (dropTrailingEmpty (splitOn "/" path)));
      left; eauto. }
  destruct (walk (fs w) (HasPrefix path "/") [] (splitOn "/" path))
    as [cause|out] eqn:Hwalk; [left; eauto|].
  assert (Hkey : positionPath (HasPrefix path "/") out = Clean path).
  { rewrite (Clean_position path Hne). now rewrite (walk_buffer _ _ _ _ _ Hwalk). }
  rewrite Hkey.
  destruct (entryAt (fs w) (HasPrefix path "/") out) as [[content|]|] eqn:Hentry;
    [right | left; eauto | right];
    (split; [exact Hne|]); exists out; repeat split; congruence.
Qed.

Lemma os_Mkdir_trace (env : Env) (path : string) (w : World) :
  trace (snd (os_Mkdir env path w)) = trace w.
Proof.
  destruct (os_Mkdir_cases env path w) as [[err ->]|(_ & out & _ & _ & ->)];
    reflexivity.
Qed.

(** What holds before [os.MkdirAll] and is kept by [os.Mkdir] holds
    after it. *)
Lemma mkdirAll_invariant (env : Env) (Q : World -> Prop) :
  (forall path w, Q w -> Q (snd (os_Mkdir env path w))) ->
  forall depth path w, Q w -> Q (snd (mkdirAll env depth path w)).
Proof.
  intros Hstep.
  assert (Htail : forall path w,
             Q w ->
             Q (snd (match os_Mkdir env path w with
                     | (None, w1) => (None, w1)
                     | (Some err, w1) =>
                         match lookupPath (fs w1) path with
                         | Some Directory => (None, w1)
                         | _ => (Some err, w1)
                         end
                     end))).
  { intros path w Hw. pose proof (Hstep path w Hw) as Hmk.
    destruct (os_Mkdir env path w) as [[err|] w1]; cbn [snd] in *; [|exact Hmk].
    now destruct (lookupPath (fs w1) path) as [[content|]|]. }
  induction depth as [|depth IH]; intros path w Hw; cbn [mkdirAll];
    (destruct (lookupPath (fs w) path) as [[content|]|]; [exact Hw | exact Hw |]);
    cbv zeta; destruct (String.eqb (parentPrefix path) "");
    try (now apply Htail).
  specialize (IH (parentPrefix path) w Hw).
  destruct (mkdirAll env depth (parentPrefix path) w) as [[err|] w1]; cbn [snd] in IH;
    [exact IH | now apply Htail].
Qed.

Lemma os_MkdirAll_trace (env : Env) (path : string) (w : World) :
  trace (snd (os_MkdirAll env path w)) = trace w.
Proof.
  unfold os_MkdirAll.
  apply (mkdirAll_invariant env (fun w' => trace w' = trace w)); [|reflexivity].
  intros p w' Hw'. now rewrite os_Mkdir_trace.
Qed.

Lemma os_Create_trace (env : Env) (path : string) (w : World) :
  trace (snd (os_Create env path w)) = trace w.
Proof.
  destruct (os_Create_cases env path w) as [[err ->]|(_ & out & _ & _ & _ & ->)];
    reflexivity.
Qed.

Lemma io_Copy_trace (env : Env) (path : string) (resp : Response) (w : World) :
  trace (snd (io_Copy env path resp w)) = trace w.
Proof. unfold io_Copy. now destruct (sysFault env (SysWrite path)). Qed.

(** ** The nesting of [os.MkdirAll] *)

Lemma dropSeparators_length (l : list ascii) :
  List.length (dropSeparators l) <= List.length l.
Proof.
  induction l as [|c l IH]; cbn [dropSeparators List.length]; [lia|].
  destruct (Ascii.eqb c "/"); cbn [List.length]; lia.
Qed.

Lemma dropLastElem_length (l : list ascii) :
  List.length (dropLastElem l) <= List.length l.
Proof.
  induction l as [|c l IH]; cbn [dropLastElem List.length]; [lia|].
  destruct (Ascii.eqb c "/"); cbn [List.length]; lia.
Qed.

Lemma length_string_of_list_ascii (l : list ascii) :
  String.length (string_of_list_ascii l) = List.length l.
Proof. induction l as [|c l IH]; cbn; [reflexivity | now rewrite IH]. Qed.

Lemma length_list_ascii_of_string (s : string) :
  List.length (list_ascii_of_string s) = String.length s.
Proof. induction s as [|c s IH]; cbn; [reflexivity | now rewrite IH]. Qed.

(** The parent that [os.MkdirAll] recurses on is shorter than the path. *)
Lemma parentPrefix_shorter (path : string) :
  path <> "" -> String.length (parentPrefix path) < String.length path.
Proof.
  intros Hne. unfold parentPrefix.
  rewrite length_string_of_list_ascii, length_rev.
  rewrite <- (length_list_ascii_of_string path), <- (length_rev (list_ascii_of_string path)).
  destruct (List.rev (list_ascii_of_string path)) as [|c l] eqn:Hrev.
  - apply (f_equal (@List.length ascii)) in Hrev.
    rewrite length_rev, length_list_ascii_of_string in Hrev.
    destruct path; [now destruct Hne | discriminate].
  - cbn [dropSeparators List.length].
    pose proof (dropLastElem_length (dropSeparators l)).
    pose proof (dropSeparators_length l).
    pose proof (dropLastElem_length l).
    destruct (Ascii.eqb c "/") eqn:Hc; [lia|].
    cbn [dropLastElem]. rewrite Hc. lia.
Qed.

Lemma parentPrefix_empty : parentPrefix "" = "".
Proof. reflexivity. Qed.

(** The bound on the nesting is never reached: any depth from the
    length of the path on gives the same run. *)
Lemma mkdirAll_depth (env : Env) (depth depth' : nat) (path : string) (w : World) :
  String.length path <= depth -> String.length path <= depth' ->
  mkdirAll env depth path w = mkdirAll env depth' path w.
Proof.
  revert depth' path w.
  induction depth as [|depth IH]; intros [|depth'] path w Hd Hd';
    try reflexivity.
  - assert (path = "") as -> by (destruct path; [reflexivity | cbn in Hd; lia]).
    cbn [mkdirAll]. now rewrite parentPrefix_empty.
  - assert (path = "") as -> by (destruct path; [reflexivity | cbn in Hd'; lia]).
    cbn [mkdirAll]. now rewrite parentPrefix_empty.
  - cbn [mkdirAll]. destruct (lookupPath (fs w) path) as [[content|]|]; try reflexivity.
    cbv zeta. destruct (String.eqb_spec (parentPrefix path) "") as [|Hparent];
      [reflexivity|].
    assert (Hpath : path <> "") by (intros ->; now apply Hparent).
    pose proof (parentPrefix_shorter path Hpath).
    now rewrite (IH depth' (parentPrefix path) w) by lia.
Qed.

(** [os.MkdirAll] as the Go function reads: the fast path, the call of
    itself on the parent, [Mkdir], and the second look on its failure. *)
Lemma os_MkdirAll_equation (env : Env) (path : string) (w : World) :
  os_MkdirAll env path w
  = match lookupPath (fs w) path with
    | Some Directory => (None, w)
    | Some (RegularFile _) => (Some (pathError "mkdir" path ENOTDIR), w)
    | None =>
        match (if String.eqb (parentPrefix path) "" then (None, w)
               else os_MkdirAll env (parentPrefix path) w) with
        | (Some err, w1) => (Some err, w1)
        | (None, w1) =>
            match os_Mkdir env path w1 with
            | (None, w2) => (None, w2)
            | (Some err, w2) =>
                match lookupPath (fs w2) path with
                | Some Directory => (None, w2)
                | _ => (Some err, w2)
                end
            end
        end
    end.
Proof.
  unfold os_MkdirAll.
  destruct (String.length path) as [|depth] eqn:Hlen; cbn [mkdirAll];
    destruct (lookupPath (fs w) path) as [[content|]|]; try reflexivity; cbv zeta.
  - destruct path; [|discriminate]. now rewrite parentPrefix_empty.
  - destruct (String.eqb_spec (parentPrefix path) "") as [|Hparent]; [reflexivity|].
    assert (Hpath : path <> "") by (intros ->; now apply Hparent).
    pose proof (parentPrefix_shorter path Hpath).
    now rewrite (mkdirAll_depth env depth (String.length (parentPrefix path))) by lia.
Qed.

(** ** A directory where the file should go *)

Lemma os_Create_directory (env : Env) (path : string) (w : World) :
  lookupPath (fs w) path = Some Directory ->
  exists cause, os_Create env path w = (Some cause, w).
Proof.
  intros Hdir.
  destruct (os_Create_cases env path w) as [Herr|(Hne & out & Hwalk & Hentry & _)];
    [exact Herr|].
  unfold lookupPath in Hdir. rewrite (resolve_walk _ _ Hne), Hwalk in Hdir.
  contradiction.
Qed.

Lemma fileExists_directory (env : Env) (path : string) (w : World) :
  lookupPath (fs w) path = Some Directory -> fileExists env path w = false.
Proof.
  intros Hdir. unfold fileExists, os_Stat.
  destruct (sysFault env (SysStat path)); [reflexivity|]. now rewrite Hdir.
Qed.

Lemma os_MkdirAll_present (env : Env) (path : string) (w : World) :
  lookupPath (fs w) path = Some Directory -> os_MkdirAll env path w = (None, w).
Proof.
  intros Hdir. unfold os_MkdirAll.
  destruct (String.length path); cbn [mkdirAll]; now rewrite Hdir.
Qed.

Lemma entryAt_free (m : gmap string FNode) (rooted : bool) (out : list string) :
  entryAt m rooted out = None -> m !! positionPath rooted out = None.
Proof.
  intros Hfree. rewrite <- entryAt_map; [exact Hfree|]. rewrite Hfree. discriminate.
Qed.

Lemma os_Mkdir_preserves (env : Env) (path p : string) (old : FNode) (w : World) :
  lookupPath (fs w) p = Some old ->
  lookupPath (fs (snd (os_Mkdir env path w))) p = Some old.
Proof.
  intros Hold.
  destruct (os_Mkdir_cases env path w) as [[err ->]|(_ & out & _ & Hfree & ->)];
    [exact Hold|].
  cbn [snd setFs fs]. apply lookupPath_insert_free; [|exact Hold].
  now apply entryAt_free.
Qed.

(** [os.MkdirAll] leaves every path that led somewhere as it was. *)
Lemma os_MkdirAll_preserves (env : Env) (path p : string) (old : FNode)
      (w : World) :
  lookupPath (fs w) p = Some old ->
  lookupPath (fs (snd (os_MkdirAll env path w))) p = Some old.
Proof.
  unfold os_MkdirAll.
  apply (mkdirAll_invariant env (fun w' => lookupPath (fs w') p = Some old)).
  intros q w' Hw'. now apply os_Mkdir_preserves.
Qed.

Section DirectoryAtTarget.
Context `{UnicodeTable}.
Variable env : Env.

(** The run of [downloadFile] on an allowed target whose local path is a
    directory, by the answer to the GET. *)
Lemma downloadFile_onto_directory (v : Variant) (base name dir : string)
      (w : World) :
  passesGate v name = true ->
  lookupPath (fs w) (Join [dir; name]) = Some Directory ->
  match fst (http_Get env (base ++ name) w) with
  | inl cause =>
      downloadFileOf env v base name dir w
      = (Some (errDownload (base ++ name) cause), snd (http_Get env (base ++ name) w))
  | inr _ =>
      exists w2,
        trace w2 = trace (snd (http_Get env (base ++ name) w))
        /\ lookupPath (fs w2) (Join [dir; name]) = Some Directory
        /\ (lookupPath (fs w) dir = Some Directory ->
            w2 = snd (http_Get env (base ++ name) w))
        /\ ((exists cause,
                downloadFileOf env v base name dir w
                = (Some (errCreateFile (Join [dir; name]) cause), w2))
            \/ (v = First
                /\ exists cause,
                    downloadFileOf env v base name dir w
                    = (Some (errCreateDirectory dir cause), w2)
                    /\ lookupPath (fs w) dir <> Some Directory))
  end.
Proof.
  intros Hgate Hdir.
  pose proof (fileExists_directory env _ w Hdir) as Hex.
  pose proof (http_Get_fs env (base ++ name) w) as Hfs.
  destruct (http_Get env (base ++ name) w) as [[cause|resp] w1] eqn:Hget;
    cbn [fst snd] in *.
  - rewrite (downloadFile_get_failed env v base name dir cause w Hgate Hex);
      now rewrite Hget.
  - assert (Hdir1 : lookupPath (fs w1) (Join [dir; name]) = Some Directory)
      by now rewrite Hfs.
    unfold passesGate in Hgate.
    destruct v; cbn [downloadFileOf allowListOf] in *;
      unfold Variant1.downloadFile, Variant2.downloadFile; cbv zeta;
      rewrite Hgate, Hex; cbn [negb]; rewrite Hget.
    + pose proof (os_MkdirAll_trace env dir w1) as Htr.
      pose proof (os_MkdirAll_preserves env dir _ _ w1 Hdir1) as Hkeep.
      assert (Hpresent : lookupPath (fs w) dir = Some Directory ->
                         os_MkdirAll env dir w1 = (None, w1))
        by (intros Hout; apply os_MkdirAll_present; now rewrite Hfs).
      destruct (os_MkdirAll env dir w1) as [[err|] w2] eqn:Hmk; cbn [snd] in *.
      * exists w2. split; [exact Htr|]. split; [exact Hkeep|]. split.
        -- intros Hout. specialize (Hpresent Hout). discriminate.
        -- right. split; [reflexivity|]. exists err. split; [reflexivity|].
           intros Hout. specialize (Hpresent Hout). discriminate.
      * destruct (os_Create_directory env _ w2 Hkeep) as [cause Hcreate].
        exists w2. split; [exact Htr|]. split; [exact Hkeep|]. split.
        -- intros Hout. specialize (Hpresent Hout). congruence.
        -- left. exists cause. now rewrite Hcreate.
    + destruct (os_Create_directory env _ w1 Hdir1) as [cause Hcreate].
      exists w1. repeat split; try assumption.
      left. exists cause. now rewrite Hcreate.
Qed.

End DirectoryAtTarget.

(** C6.  When a directory sits at the local path of an allowed target,
    the existence check answers "not there", the download goes ahead,
    and it ends in a failure, never in a no-op, with the directory
    still in place.  Once the GET has answered, the failure is that of
    creating the file (in the first variant, that of making the output
    directory when this comes first); with the output directory present
    it is the file-creation failure in both variants, after the one
    request and with the file system as it was. *)
Theorem directory_at_target_fails `{UnicodeTable} (env : Env) (v : Variant)
        (base name dir : string) (w : World) :
  passesGate v name = true ->
  lookupPath (fs w) (Join [dir; name]) = Some Directory ->
  fileExists env (Join [dir; name]) w = false
  /\ (exists err, fst (downloadFileOf env v base name dir w) = Some err)
  /\ lookupPath (fs (snd (downloadFileOf env v base name dir w))) (Join [dir; name])
     = Some Directory
  /\ (forall resp,
         fst (http_Get env (base ++ name) w) = inr resp ->
         (exists cause,
             fst (downloadFileOf env v base name dir w)
             = Some (errCreateFile (Join [dir; name]) cause))
         \/ (v = First
             /\ lookupPath (fs w) dir <> Some Directory
             /\ exists cause,
                 fst (downloadFileOf env v base name dir w)
                 = Some (errCreateDirectory dir cause)))
  /\ (lookupPath (fs w) dir = Some Directory ->
      forall resp,
        fst (http_Get env (base ++ name) w) = inr resp ->
        exists cause,
          downloadFileOf env v base name dir w
          = (Some (errCreateFile (Join [dir; name]) cause),
             emit (HttpSend (plainGet (base ++ name))) w)).
Proof.
  intros Hgate Hdir.
  pose proof (downloadFile_onto_directory env v base name dir w Hgate Hdir) as Hrun.
  pose proof (http_Get_fs env (base ++ name) w) as Hfs.
  split; [now apply fileExists_directory|].
  destruct (fst (http_Get env (base ++ name) w)) as [cause|resp] eqn:Hget.
  - rewrite Hrun. cbn [fst snd]. rewrite Hfs.
    split; [eauto|]. split; [exact Hdir|]. split; intros; discriminate.
  - destruct Hrun as (w2 & Htr & Hdir2 & Hsame & Hfail).
    assert (Hsent : snd (http_Get env (base ++ name) w)
                    = emit (HttpSend (plainGet (base ++ name))) w).
    { rewrite http_Get_result in Hget |- *.
      now destruct (urlParseError env (base ++ name)). }
    destruct Hfail as [[cause Hr]|(-> & cause & Hr & Hout)]; rewrite Hr; cbn [fst snd].
    + split; [eauto|]. split; [exact Hdir2|]. split; [eauto|].
      intros Hpresent resp' _. exists cause. now rewrite (Hsame Hpresent), Hsent.
    + split; [eauto|]. split; [exact Hdir2|]. split; [|contradiction].
      intros resp' _. right. eauto.
Qed.

(** A directory named like the target inside [Assets], on a server that
    would serve the file. *)
Lemma directory_at_target_fails_witness :
  @passesGate noUnicode First "notes.txt" = true
  /\ lookupPath (fs directoryInTheWay) (Join [remoteFolder; "notes.txt"])
     = Some Directory
  /\ fileExists (friendlyEnv "data") (Join [remoteFolder; "notes.txt"])
                directoryInTheWay = false
  /\ (exists err,
         fst (@downloadFileOf noUnicode (friendlyEnv "data") First baseURL
                "notes.txt" remoteFolder directoryInTheWay) = Some err)
  /\ (exists cause,
         @downloadFileOf noUnicode (friendlyEnv "data") First baseURL
           "notes.txt" remoteFolder directoryInTheWay
         = (Some (errCreateFile (Join [remoteFolder; "notes.txt"]) cause),
            emit (HttpSend (plainGet (baseURL ++ "notes.txt"))) directoryInTheWay)).
Proof.
  assert (Hgate : @passesGate noUnicode First "notes.txt" = true) by reflexivity.
  assert (Hdir : lookupPath (fs directoryInTheWay) (Join [remoteFolder; "notes.txt"])
                 = Some Directory) by reflexivity.
  pose proof (@directory_at_target_fails noUnicode (friendlyEnv "data") First
                baseURL "notes.txt" remoteFolder directoryInTheWay Hgate Hdir)
    as (Hex & Hfail & _ & _ & Hcreate).
  repeat split; try assumption.
  apply (Hcreate eq_refl (okResponse "data")). reflexivity.
Defined.

(** ** What a download emits *)

Section DownloadEvents.
Context `{UnicodeTable}.
Variable env : Env.

(** After the GET has answered, a download adds at most the line
    "Downloaded ..." to what the process has emitted, and ends with a
    nil error or with one of the reports. *)
Lemma downloadFile_after_response (v : Variant) (base name dir : string)
      (w w1 : World) (resp : Response) :
  passesGate v name = true ->
  fileExists env (Join [dir; name]) w = false ->
  http_Get env (base ++ name) w = (inr resp, w1) ->
  exists rest,
    trace (snd (downloadFileOf env v base name dir w)) = (trace w1 ++ rest)%list
    /\ match fst (downloadFileOf env v base name dir w) with
       | None => True
       | Some err => isFailureReport v base name dir err
       end.
Proof.
  unfold passesGate. intros Hgate Hex Hget.
  assert (Hdir : exists w2, trace w2 = trace w1 /\
            (downloadFileOf env v base name dir w
             = match os_Create env (Join [dir; name]) w2 with
               | (Some err, w3) => (Some (errCreateFile (Join [dir; name]) err), w3)
               | (None, w3) =>
                   match io_Copy env (Join [dir; name]) resp w3 with
                   | (Some err, w4) => (Some (errSaving (Join [dir; name]) err), w4)
                   | (None, w4) => (None, emit (StdoutWrite (msgDownloaded name)) w4)
                   end
               end
             \/ (v = First /\ exists cause,
                    downloadFileOf env v base name dir w
                    = (Some (errCreateDirectory dir cause), w2)))).
  { destruct v; cbn [downloadFileOf allowListOf] in *;
      unfold Variant1.downloadFile, Variant2.downloadFile; cbv zeta;
      rewrite Hgate, Hex; cbn [negb]; rewrite Hget.
    - pose proof (os_MkdirAll_trace env dir w1) as Hmk.
      destruct (os_MkdirAll env dir w1) as [[err|] w2]; cbn [snd] in Hmk;
        exists w2; (split; [exact Hmk|]); [right; eauto | left; reflexivity].
    - exists w1. split; [reflexivity | left; reflexivity]. }
  destruct Hdir as (w2 & Htr2 & [Hrun | (-> & cause & Hrun)]); rewrite Hrun.
  - pose proof (os_Create_trace env (Join [dir; name]) w2) as Hcr.
    destruct (os_Create env (Join [dir; name]) w2) as [[err|] w3]; cbn [snd] in Hcr.
    + exists []. cbn [fst snd]. rewrite app_nil_r. split; [congruence|].
      right; right; left. eauto.
    + pose proof (io_Copy_trace env (Join [dir; name]) resp w3) as Hcp.
      destruct (io_Copy env (Join [dir; name]) resp w3) as [[err|] w4];
        cbn [fst snd] in *.
      * exists []. rewrite app_nil_r. split; [congruence|].
        right; right; right. eauto.
      * exists [StdoutWrite (msgDownloaded name)]. split; [|exact I].
        cbn [emit trace]. congruence.
  - exists []. cbn [fst snd]. rewrite app_nil_r. split; [exact Htr2|].
    right; left. eauto.
Qed.

(** The four ways through [downloadFile], with what each one emits. *)
Lemma downloadFile_cases (v : Variant) (base name dir : string) (w : World) :
  (passesGate v name = false
   /\ downloadFileOf env v base name dir w = skippedAtGate name w)
  \/ (passesGate v name = true
      /\ fileExists env (Join [dir; name]) w = true
      /\ downloadFileOf env v base name dir w
         = (None, logPrintf (msgAlreadyExists (Join [dir; name])) w))
  \/ (passesGate v name = true
      /\ fileExists env (Join [dir; name]) w = false
      /\ exists cause,
          urlParseError env (base ++ name) = Some cause
          /\ downloadFileOf env v base name dir w
             = (Some (errDownload (base ++ name) cause), w))
  \/ (passesGate v name = true
      /\ fileExists env (Join [dir; name]) w = false
      /\ urlParseError env (base ++ name) = None
      /\ exists rest,
          trace (snd (downloadFileOf env v base name dir w))
          = (trace w ++ HttpSend (plainGet (base ++ name)) :: rest)%list
          /\ match fst (downloadFileOf env v base name dir w) with
             | None => True
             | Some err => isFailureReport v base name dir err
             end).
Proof.
  destruct (passesGate v name) eqn:Hgate;
    [|left; split; [reflexivity | now apply downloadFile_gate_closed]].
  destruct (fileExists env (Join [dir; name]) w) eqn:Hex;
    [right; left; repeat split; now apply downloadFile_exists|].
  right; right.
  pose proof (http_Get_result env (base ++ name) w) as Hget.
  destruct (urlParseError env (base ++ name)) as [cause|] eqn:Hparse.
  - left. repeat split. exists cause. split; [reflexivity|].
    rewrite (downloadFile_get_failed env v base name dir cause w Hgate Hex);
      now rewrite Hget.
  - right. repeat split.
    destruct (roundTrip env (plainGet (base ++ name))) as [cause|resp] eqn:Hrt.
    + exists [].
      rewrite (downloadFile_get_failed env v base name dir cause w Hgate Hex);
        rewrite Hget; [|reflexivity].
      cbn [fst snd]. split; [reflexivity|]. left. eauto.
    + destruct (downloadFile_after_response v base name dir w _ resp Hgate Hex Hget)
        as (rest & Htrace & Hform).
      exists rest. split; [|exact Hform].
      rewrite Htrace. cbn [emit trace]. now rewrite <- app_assoc.
Qed.

(** The run of [downloadFile] once its GET has been answered. *)
Lemma downloadFile_answered (v : Variant) (base name dir : string) (w w1 : World)
      (resp : Response) :
  passesGate v name = true ->
  fileExists env (Join [dir; name]) w = false ->
  http_Get env (base ++ name) w = (inr resp, w1) ->
  downloadFileOf env v base name dir w
  = match ensureDirectory env v dir w1 with
    | (Some err, w2) => (Some (errCreateDirectory dir err), w2)
    | (None, w2) =>
        match os_Create env (Join [dir; name]) w2 with
        | (Some err, w3) => (Some (errCreateFile (Join [dir; name]) err), w3)
        | (None, w3) =>
            match io_Copy env (Join [dir; name]) resp w3 with
            | (Some err, w4) => (Some (errSaving (Join [dir; name]) err), w4)
            | (None, w4) => (None, emit (StdoutWrite (msgDownloaded name)) w4)
            end
        end
    end.
Proof.
  unfold passesGate. intros Hgate Hex Hget.
  destruct v; cbn [downloadFileOf allowListOf ensureDirectory] in *;
    unfold Variant1.downloadFile, Variant2.downloadFile; cbv zeta;
    rewrite Hgate, Hex; cbn [negb]; rewrite Hget; reflexivity.
Qed.

End DownloadEvents.

(** ** The extension gate *)

(** C4 as stated fails on the first variant: its allow-list has no
    [.pdf], so [file.pdf] is skipped at the gate even though the server
    would serve it and no local file exists. *)
Lemma first_variant_skips_file_pdf :
  @Variant1.downloadFile noUnicode (friendlyEnv "data") baseURL "file.pdf"
    remoteFolder emptyWorld
  = (None, {| fs := ∅; trace := [LogLine (msgSkipping "file.pdf" ".pdf")] |}).
Proof. reflexivity. Qed.

(** C4, amended.  In both variants [file.html] stops at the gate: a nil
    error, one log line, no request and no change to the files; the
    first variant stops [file.pdf] in the same way.  [file.exe] in both
    variants and [file.pdf] in the second pass the gate: the downloader
    goes on to the existence check and, when no file is there, sends
    the GET for the target. *)
Theorem extension_gate `{UnicodeTable} (env : Env) (base dir : string) (w : World) :
  (forall v, downloadFileOf env v base "file.html" dir w = skippedAtGate "file.html" w)
  /\ downloadFileOf env First base "file.pdf" dir w = skippedAtGate "file.pdf" w
  /\ (forall name,
         fst (skippedAtGate name w) = None
         /\ fs (snd (skippedAtGate name w)) = fs w
         /\ trace (snd (skippedAtGate name w))
            = (trace w ++ [LogLine (msgSkipping name (ToLower (Ext name)))])%list)
  /\ (forall v name,
         name = "file.exe" \/ (v = Second /\ name = "file.pdf") ->
         passesGate v name = true
         /\ (fileExists env (Join [dir; name]) w = true ->
             downloadFileOf env v base name dir w
             = (None, logPrintf (msgAlreadyExists (Join [dir; name])) w))
         /\ (fileExists env (Join [dir; name]) w = false ->
             urlParseError env (base ++ name) = None ->
             exists rest,
               trace (snd (downloadFileOf env v base name dir w))
               = (trace w ++ HttpSend (plainGet (base ++ name)) :: rest)%list)).
Proof.
  split; [|split; [|split]].
  - intros v. apply downloadFile_gate_closed. now destruct v.
  - now apply downloadFile_gate_closed.
  - intros name. repeat split.
  - intros v name Hname.
    assert (Hgate : passesGate v name = true)
      by (destruct Hname as [->|[-> ->]]; [now destruct v | reflexivity]).
    split; [exact Hgate|]. split.
    + intros Hex. now apply downloadFile_exists.
    + intros Hex Hparse.
      destruct (downloadFile_cases env v base name dir w)
        as [(Hg & _)|[(_ & He & _)|[(_ & _ & cause & Hp & _)|(_ & _ & _ & rest & Ht & _)]]];
        try congruence.
      exists rest. exact Ht.
Qed.

Lemma extension_gate_witness :
  fileExists (friendlyEnv "data") (Join [remoteFolder; "file.pdf"]) emptyWorld = false
  /\ exists rest,
      trace (snd (@downloadFileOf noUnicode (friendlyEnv "data") Second baseURL
                    "file.pdf" remoteFolder emptyWorld))
      = (trace emptyWorld ++ HttpSend (plainGet (baseURL ++ "file.pdf")) :: rest)%list.
Proof.
  split; [reflexivity|].
  apply (@extension_gate noUnicode (friendlyEnv "data") baseURL remoteFolder emptyWorld);
    [right; split; reflexivity | reflexivity | reflexivity].
Defined.

(** ** A failed page fetch *)

Lemma pageGet_headers (env : Env) (url : string) (req : Request) :
  http_NewRequest env url = inr req ->
  Header_Set "Accept" "text/html"
    (Header_Set "User-Agent" "Mozilla/5.0 (compatible; MyGoScraper/1.0)" req)
  = pageGet url.
Proof.
  unfold http_NewRequest. destruct (urlParseError env url); [discriminate|].
  intros [= <-]. reflexivity.
Qed.

(** Each of the four failures makes [fetchHTML] log one line and return nil. *)
Lemma fetchHTML_failure (env : Env) (url : string) (w : World) :
  fetchFails env url ->
  fst (fetchHTML env url w) = None
  /\ fs (snd (fetchHTML env url w)) = fs w.
Proof.
  intros Hfail. unfold fetchHTML.
  destruct (http_NewRequest env url) as [cause|req] eqn:Hreq; [now split|].
  rewrite (pageGet_headers env url req Hreq). unfold client_Do.
  assert (Hparse : urlParseError env url = None).
  { unfold http_NewRequest in Hreq. now destruct (urlParseError env url). }
  destruct Hfail as [[cause Hc]|[[cause Hc]|(resp & Hresp & Hbad)]].
  - congruence.
  - rewrite Hc. now split.
  - rewrite Hresp. destruct (StatusCode resp =? 200)%Z eqn:Hstatus; [|now split].
    cbn [negb]. unfold html_Parse.
    destruct Hbad as [Hne|[cause Hc]].
    + apply Z.eqb_eq in Hstatus. contradiction.
    + rewrite Hc. now split.
Qed.

(** C2.  A failed page fetch returns nil, but the pipeline does not run
    on an empty link set: [extractLinks] reads [n.Type] of the nil node,
    which panics, so [main] stops there in both variants. *)
Theorem failed_fetch_panics `{UnicodeTable} (env : Env) (v : Variant) (w : World) :
  fetchFails env baseURL ->
  fst (fetchHTML env baseURL w) = None
  /\ extractLinks None = Panic nilDereference
  /\ mainOf env v w = (Panicked nilDereference, snd (fetchHTML env baseURL w)).
Proof.
  intros Hfail. destruct (fetchHTML_failure env baseURL w Hfail) as [Hnil _].
  split; [exact Hnil | split; [reflexivity|]].
  destruct v; cbn [mainOf]; unfold Variant1.main, Variant2.main;
    destruct (fetchHTML env baseURL w) as [node w1]; cbn [fst snd] in *;
    now subst node.
Qed.

Lemma failed_fetch_panics_witness :
  fetchFails notFoundEnv baseURL
  /\ @mainOf noUnicode notFoundEnv Second emptyWorld
     = (Panicked nilDereference, snd (fetchHTML notFoundEnv baseURL emptyWorld)).
Proof.
  assert (Hfail : fetchFails notFoundEnv baseURL).
  { right; right. eexists. split; [reflexivity|]. left. discriminate. }
  split; [exact Hfail|].
  apply (@failed_fetch_panics noUnicode notFoundEnv Second emptyWorld Hfail).
Defined.

(** ** The download loop *)

Section Loop.
Context `{UnicodeTable}.
Variable env : Env.

Lemma downloadAllOf_fold (v : Variant) (links : list string) (w : World) :
  downloadAllOf env v links w = fold_left (loopStep env v) links w.
Proof. now destruct v. Qed.



End Loop.




(** ** Failure to create the output directory *)

(** In the first variant the failure is fatal: exit status 1 after one
    log line, and nothing is downloaded. *)
Lemma Variant1_mkdir_failure_fatal `{UnicodeTable} (env : Env) (w w1 w2 : World)
      (node : html.Node) (err : string) :
  fetchHTML env baseURL w = (Some node, w1) ->
  os_MkdirAll env remoteFolder w1 = (Some err, w2) ->
  Variant1.main env w
  = (Exited 1, emit (LogLine ("Failed to create output directory: " ++ err ++ nl)) w2)
  /\ trace w2 = trace w1.
Proof.
  intros Hfetch Hmk. split.
  - unfold Variant1.main. rewrite Hfetch. cbn [extractLinks]. now rewrite Hmk.
  - rewrite <- (os_MkdirAll_trace env remoteFolder w1). now rewrite Hmk.
Qed.

(** The second variant has no fatal exit at all. *)
Lemma Variant2_never_exits `{UnicodeTable} (env : Env) (w : World) :
  fst (Variant2.main env w) = Returned
  \/ fst (Variant2.main env w) = Panicked nilDereference.
Proof.
  unfold Variant2.main. destruct (fetchHTML env baseURL w) as [[node|] w1].
  - left. reflexivity.
  - right. reflexivity.
Qed.

(** C3.  With a regular file named [Assets] in the way, the first variant
    stops with exit status 1 before any download.  The second variant
    logs the error of [os.Mkdir] in [createDirectory] and goes on: it
    requests every file and fails on each at file creation, then
    returns normally. *)
Theorem createDirectory_failure_not_fatal :
  @Variant1.main noUnicode (friendlyEnv "data") fileInTheWay
  = (Exited 1,
     {| fs := fs fileInTheWay;
        trace := [HttpSend (pageGet baseURL);
                  LogLine ("Failed to create output directory: "
                             ++ pathError "mkdir" "Assets/" "file exists" ++ nl)] |})
  /\ @Variant2.main noUnicode (friendlyEnv "data") fileInTheWay
     = (Returned,
        {| fs := fs fileInTheWay;
           trace := [HttpSend (pageGet baseURL);
                     LogLine (pathError "mkdir" "Assets/" "file exists" ++ nl);
                     HttpSend (plainGet (baseURL ++ "x_pdf.pdf"));
                     StderrWrite
                       (errCreateFile "Assets/x_pdf.pdf"
                          (pathError "open" "Assets/x_pdf.pdf" "not a directory") ++ nl);
                     HttpSend (plainGet (baseURL ++ "notes_txt.pdf"));
                     StderrWrite
                       (errCreateFile "Assets/notes_txt.pdf"
                          (pathError "open" "Assets/notes_txt.pdf" "not a directory")
                          ++ nl)] |}).
Proof. split; reflexivity. Qed.

(** * Further properties of the code *)

(** ** The link filter as an operation on lists *)

Lemma filter_again {A} (p : A -> bool) (l : list A) :
  List.filter p (List.filter p l) = List.filter p l.
Proof.
  induction l as [|x l IH]; cbn [List.filter]; [reflexivity|].
  destruct (p x) eqn:Hx; [|exact IH]. cbn [List.filter]. now rewrite Hx, IH.
Qed.

Lemma filter_all {A} (p : A -> bool) (l : list A) :
  List.filter p l = l <-> forall x, In x l -> p x = true.
Proof.
  induction l as [|x l IH]; cbn [List.filter].
  - split; [intros _ y [] | reflexivity].
  - destruct (p x) eqn:Hx.
    + split.
      * intros [= Hl] y [<-|Hy]; [exact Hx | now apply IH].
      * intros Hall. f_equal. apply IH. intros y Hy. apply Hall. now right.
    + split.
      * intros Heq. pose proof (List.filter_length_le p l) as Hle.
        rewrite Heq in Hle. cbn [List.length] in Hle. lia.
      * intros Hall. specialize (Hall x (or_introl eq_refl)). congruence.
Qed.

(** X1.  [filterFiles] works link by link: the result on a concatenation
    is the concatenation of the results, filtering twice changes
    nothing, the result is never longer than the input, and a list
    comes back whole exactly when none of its links starts or ends with
    a slash. *)
Theorem filterFiles_composes (a b : list string) :
  filterFiles (a ++ b) = (filterFiles a ++ filterFiles b)%list
  /\ filterFiles (filterFiles a) = filterFiles a
  /\ List.length (filterFiles a) <= List.length a
  /\ (filterFiles a = a <-> forall link, In link a -> isFileLink link = true).
Proof.
  assert (Heq : forall l, filterFiles l = List.filter isFileLink l)
    by (intros l; apply (filterFiles_loop l [])).
  rewrite !Heq. split; [apply List.filter_app|].
  split; [apply filter_again|].
  split; [apply List.filter_length_le | apply filter_all].
Qed.

(** ** Which strings are extracted *)

(** X2.  A string is among the extracted links exactly when some anchor
    element of the document carries an [href] attribute with that
    value; nodes of other types and other tags contribute nothing, and
    so do attributes under any other key. *)
Theorem extractLinks_membership (root : html.Node) (link : string) :
  exists links,
    extractLinks (Some root) = Done links
    /\ (In link links
        <-> exists n a,
            Within n root
            /\ html.Type_ n = html.ElementNode /\ html.Data n = "a"
            /\ In a (html.Attr n) /\ html.Key a = "href" /\ html.Val a = link).
Proof.
  exists (flat_map hrefValues (documentOrder root)). split.
  - unfold extractLinks. rewrite traverse_acc. reflexivity.
  - rewrite in_flat_map. split.
    + intros (n & Hn & Hlink). apply documentOrder_within in Hn.
      unfold hrefValues, isAnchor in Hlink.
      destruct (html.NodeType_eqb (html.Type_ n) html.ElementNode) eqn:Htype;
        [|destruct Hlink].
      destruct (String.eqb (html.Data n) "a") eqn:Hdata; [|destruct Hlink].
      cbn [andb] in Hlink. apply in_map_iff in Hlink as (a & Hval & Ha).
      apply filter_In in Ha as [Ha Hkey].
      exists n, a. repeat split; try assumption.
      * now destruct (html.Type_ n).
      * now apply String.eqb_eq.
      * now apply String.eqb_eq.
    + intros (n & a & Hn & Htype & Hdata & Ha & Hkey & Hval).
      exists n. split; [now apply documentOrder_within|].
      unfold hrefValues, isAnchor. rewrite Htype, Hdata. cbn [html.NodeType_eqb andb].
      rewrite String.eqb_refl. apply in_map_iff. exists a. split; [exact Hval|].
      apply filter_In. split; [exact Ha|]. rewrite Hkey. apply String.eqb_refl.
Qed.

(** ** Underscores in a sanitised name *)

Lemma underscore_is_symbol (c : ascii) :
  isLowerAlnum c = true -> isUnderscore c = false.
Proof. each_byte c. Qed.

Lemma HasPrefix_underscore (c : ascii) (rest : string) :
  HasPrefix (String c rest) "_" = isUnderscore c.
Proof. cbn [HasPrefix]. unfold isUnderscore. apply andb_true_r. Qed.

Lemma adjacentUnderscores_cons (c : ascii) (rest : string) :
  adjacentUnderscores (String c rest)
  = (isUnderscore c && HasPrefix rest "_") || adjacentUnderscores rest.
Proof.
  destruct rest as [|d rest]; cbn [adjacentUnderscores].
  - cbn [HasPrefix]. now rewrite andb_false_r.
  - now rewrite HasPrefix_underscore.
Qed.

(** The first replacement never leaves two underscores side by side, and
    inside a run it does not start with one. *)
Lemma replaceRuns_no_adjacent (s : string) :
  forall inRun,
    adjacentUnderscores (replaceRuns notLowerAlnum "_" inRun s) = false
    /\ (inRun = true -> HasPrefix (replaceRuns notLowerAlnum "_" inRun s) "_" = false).
Proof.
  induction s as [|c s IH]; intros inRun; cbn [replaceRuns].
  - split; reflexivity.
  - destruct (notLowerAlnum c) eqn:Hc.
    + destruct (IH true) as [Hadj Hpre]. destruct inRun.
      * split; [exact Hadj | intros _; now apply Hpre].
      * split; [|discriminate].
        change ("_" ++ replaceRuns notLowerAlnum "_" true s)
          with (String "_" (replaceRuns notLowerAlnum "_" true s)).
        rewrite adjacentUnderscores_cons, Hadj, (Hpre eq_refl).
        now rewrite andb_false_r.
    + destruct (IH false) as [Hadj _].
      apply negb_false_iff in Hc. pose proof (underscore_is_symbol c Hc) as Hnot.
      rewrite adjacentUnderscores_cons, HasPrefix_underscore, Hadj, Hnot.
      split; [reflexivity | intros _; reflexivity].
Qed.

(** The second replacement finds nothing to do on such a string. *)
Lemma collapse_nothing (s : string) :
  forall inRun,
    adjacentUnderscores s = false ->
    (inRun = true -> HasPrefix s "_" = false) ->
    replaceRuns isUnderscore "_" inRun s = s.
Proof.
  induction s as [|c s IH]; intros inRun Hadj Hpre; cbn [replaceRuns];
    [reflexivity|].
  rewrite adjacentUnderscores_cons in Hadj. apply orb_false_iff in Hadj as [Hhere Hrest].
  rewrite HasPrefix_underscore in Hpre.
  destruct (isUnderscore c) eqn:Hc.
  - destruct inRun; [specialize (Hpre eq_refl); discriminate|].
    cbn [andb] in Hhere. rewrite (IH true Hrest (fun _ => Hhere)).
    apply Ascii.eqb_eq in Hc. now subst c.
  - now rewrite (IH false Hrest) by discriminate.
Qed.

Lemma occursIn_adjacent (s : string) :
  occursIn "__" s -> adjacentUnderscores s = true.
Proof.
  intros (before & after & ->). induction before as [|c before IH].
  - reflexivity.
  - change (String c before ++ "__" ++ after)
      with (String c (before ++ "__" ++ after)).
    rewrite adjacentUnderscores_cons, IH. apply orb_true_r.
Qed.

(** X3.  In [urlToFilename] the pass that collapses runs of underscores
    never changes its input: the first replacement has already put one
    underscore per run.  The sanitised stem does not start with an
    underscore and holds no two underscores in a row. *)
Theorem safeName_underscores `{UnicodeTable} (rawURL : string) :
  ReplaceAllString isUnderscore
    (ReplaceAllString notLowerAlnum (ToLower rawURL) "_") "_"
  = ReplaceAllString notLowerAlnum (ToLower rawURL) "_"
  /\ HasPrefix (safeName rawURL) "_" = false
  /\ ~ occursIn "__" (safeName rawURL).
Proof.
  destruct (replaceRuns_no_adjacent (ToLower rawURL) false) as [Hadj _].
  assert (Hsame : ReplaceAllString isUnderscore
                    (ReplaceAllString notLowerAlnum (ToLower rawURL) "_") "_"
                  = ReplaceAllString notLowerAlnum (ToLower rawURL) "_")
    by (apply collapse_nothing; [exact Hadj | discriminate]).
  split; [exact Hsame|].
  rewrite safeName_unfold. cbv zeta. rewrite Hsame.
  unfold ReplaceAllString in *.
  destruct (replaceRuns notLowerAlnum "_" false (ToLower rawURL)) as [|c rest];
    [split; [reflexivity | intros Hin%occursIn_adjacent; discriminate]|].
  rewrite adjacentUnderscores_cons in Hadj. apply orb_false_iff in Hadj as [Hhere Hrest].
  change (Ascii.eqb c "_") with (isUnderscore c).
  destruct (isUnderscore c) eqn:Hc.
  - split; [exact Hhere|]. intros Hin%occursIn_adjacent. congruence.
  - split; [now rewrite HasPrefix_underscore|].
    intros Hin%occursIn_adjacent.
    rewrite adjacentUnderscores_cons, Hc, Hrest in Hin. discriminate.
Qed.

(** ** Links that get the same name *)

Lemma replaceRuns_skeleton (s : string) :
  forall t inRun,
    sameSkeleton s t = true ->
    replaceRuns notLowerAlnum "_" inRun s = replaceRuns notLowerAlnum "_" inRun t.
Proof.
  induction s as [|a s IH]; intros [|b t] inRun Hsame; cbn [sameSkeleton] in Hsame;
    try discriminate; [reflexivity|].
  apply andb_true_iff in Hsame as [Hhere Hrest]. cbn [replaceRuns].
  apply orb_true_iff in Hhere as [[Ha Hab]%andb_true_iff | [Ha Hb]%andb_true_iff].
  - apply Ascii.eqb_eq in Hab. subst b.
    assert (Hcls : notLowerAlnum a = false)
      by (unfold notLowerAlnum; now rewrite Ha).
    rewrite Hcls. now rewrite (IH t false Hrest).
  - rewrite Ha, Hb. now rewrite (IH t true Hrest).
Qed.

Lemma replaceRuns_longer_run (x y : string) (c d : ascii) :
  notLowerAlnum c = true -> notLowerAlnum d = true ->
  forall inRun,
    replaceRuns notLowerAlnum "_" inRun (x ++ String c (String d y))
    = replaceRuns notLowerAlnum "_" inRun (x ++ String c y).
Proof.
  intros Hc Hd. induction x as [|a x IH]; intros inRun.
  - cbn [String.append replaceRuns]. now rewrite Hc, Hd.
  - change (String a x ++ ?z) with (String a (x ++ z)). cbn [replaceRuns].
    now rewrite !IH.
Qed.

Lemma lowerASCIIByte_twice (c : ascii) :
  lowerASCIIByte (lowerASCIIByte c) = lowerASCIIByte c
  /\ isASCIIByte (lowerASCIIByte c) = isASCIIByte c.
Proof. each_byte c; split; reflexivity. Qed.

Lemma ToLower_twice_ascii `{UnicodeTable} (s : string) :
  allBytes isASCIIByte s = true ->
  ToLower (mapBytes lowerASCIIByte s) = ToLower s.
Proof.
  intros Hascii. unfold ToLower. rewrite Hascii.
  assert (Hstill : allBytes isASCIIByte (mapBytes lowerASCIIByte s) = true).
  { induction s as [|c s IH]; [reflexivity|]. cbn [mapBytes allBytes] in *.
    apply andb_true_iff in Hascii as [Hc Hs].
    rewrite (proj2 (lowerASCIIByte_twice c)), Hc. now apply IH. }
  rewrite Hstill. clear. induction s as [|c s IH]; [reflexivity|].
  cbn [mapBytes]. now rewrite (proj1 (lowerASCIIByte_twice c)), IH.
Qed.

Lemma urlToFilename_by_first_pass `{UnicodeTable} (s t : string) :
  ReplaceAllString notLowerAlnum (ToLower s) "_"
  = ReplaceAllString notLowerAlnum (ToLower t) "_" ->
  urlToFilename s = urlToFilename t.
Proof. intros Heq. unfold urlToFilename, safeName. cbv zeta. now rewrite Heq. Qed.

(** X4.  Different links can be given the same local name.  Two links
    get the same name when their lower-cased forms agree on the bytes
    of [a-z0-9] and have any other bytes in the remaining places, when
    one has a longer run of such other bytes than the other, and, for
    ASCII links, when they differ only in letter case. *)
Theorem urlToFilename_collisions `{UnicodeTable} :
  (forall s t,
      sameSkeleton (ToLower s) (ToLower t) = true ->
      urlToFilename s = urlToFilename t)
  /\ (forall s t x y c d,
         ToLower s = x ++ String c (String d y) ->
         ToLower t = x ++ String c y ->
         notLowerAlnum c = true -> notLowerAlnum d = true ->
         urlToFilename s = urlToFilename t)
  /\ (forall s,
         allBytes isASCIIByte s = true ->
         urlToFilename (mapBytes lowerASCIIByte s) = urlToFilename s).
Proof.
  split; [|split].
  - intros s t Hsame. apply urlToFilename_by_first_pass.
    unfold ReplaceAllString. now apply replaceRuns_skeleton.
  - intros s t x y c d Hs Ht Hc Hd. apply urlToFilename_by_first_pass.
    unfold ReplaceAllString. rewrite Hs, Ht. now apply replaceRuns_longer_run.
  - intros s Hascii. apply urlToFilename_by_first_pass.
    now rewrite ToLower_twice_ascii.
Qed.

(** Three pairs of links that collide. *)
Lemma urlToFilename_collisions_witness :
  @urlToFilename noUnicode "Data Sheet (2).pdf" = @urlToFilename noUnicode "data/sheet-[2]_pdf"
  /\ @urlToFilename noUnicode "a - b.pdf" = @urlToFilename noUnicode "a -b.pdf"
  /\ @urlToFilename noUnicode "sheet.pdf" = @urlToFilename noUnicode "SHEET.PDF".
Proof.
  destruct (@urlToFilename_collisions noUnicode) as (Hskel & Hrun & Hcase).
  split; [|split].
  - apply Hskel. reflexivity.
  - apply (Hrun "a - b.pdf" "a -b.pdf" "a " "b.pdf" "-"%char " "%char);
      reflexivity.
  - symmetry. apply (Hcase "SHEET.PDF"). reflexivity.
Defined.

(** ** What the extension gate looks at *)

Lemma string_of_list_ascii_app (l1 l2 : list ascii) :
  string_of_list_ascii (l1 ++ l2)%list
  = string_of_list_ascii l1 ++ string_of_list_ascii l2.
Proof. induction l1 as [|c l1 IH]; simpl; [reflexivity | now rewrite IH]. Qed.

(** The scan walks back over bytes that are neither dot nor separator
    and stops at the first dot. *)
Lemma extScan_to_dot (tail : list ascii) (before : list ascii) :
  forallb (fun c => negb (Ascii.eqb c ".") && negb (Ascii.eqb c "/")) tail = true ->
  forall seen,
    extScan (tail ++ "."%char :: before)%list seen
    = String "." (string_of_list_ascii (List.rev tail) ++ seen).
Proof.
  induction tail as [|c tail IH]; intros Htail seen.
  - reflexivity.
  - cbn [forallb] in Htail.
    apply andb_true_iff in Htail as [[Hdot Hsep]%andb_true_iff Htail].
    apply negb_true_iff in Hdot, Hsep.
    cbn [app extScan List.rev]. rewrite Hdot, Hsep, (IH Htail).
    rewrite string_of_list_ascii_app, append_assoc. reflexivity.
Qed.

Lemma no_dot_no_slash (e : string) :
  countBytes (Ascii.eqb ".") e = 0 ->
  countBytes (Ascii.eqb "/") e = 0 ->
  forallb (fun c => negb (Ascii.eqb c ".") && negb (Ascii.eqb c "/"))
          (list_ascii_of_string e) = true.
Proof.
  induction e as [|c e IH]; cbn [countBytes list_ascii_of_string forallb];
    [reflexivity|].
  rewrite (Ascii.eqb_sym c "."), (Ascii.eqb_sym c "/").
  destruct (Ascii.eqb "." c); [discriminate|].
  destruct (Ascii.eqb "/" c); [discriminate|].
  cbn [negb andb Nat.add]. exact IH.
Qed.

Lemma Ext_last (stem e : string) :
  countBytes (Ascii.eqb ".") e = 0 ->
  countBytes (Ascii.eqb "/") e = 0 ->
  Ext (stem ++ "." ++ e) = "." ++ e.
Proof.
  intros Hdot Hsep. unfold Ext.
  rewrite !list_ascii_of_string_app, !rev_app_distr, <- app_assoc.
  change (List.rev (list_ascii_of_string ".") ++ List.rev (list_ascii_of_string stem))%list
    with ("."%char :: List.rev (list_ascii_of_string stem))%list.
  rewrite extScan_to_dot
    by (apply forallb_rev_true; now apply no_dot_no_slash).
  rewrite rev_involutive, string_of_list_ascii_of_string, append_empty_r.
  reflexivity.
Qed.

Lemma lowerASCIIByte_keeps_marks (c : ascii) :
  Ascii.eqb "." (lowerASCIIByte c) = Ascii.eqb "." c
  /\ Ascii.eqb "/" (lowerASCIIByte c) = Ascii.eqb "/" c.
Proof. each_byte c; split; reflexivity. Qed.

Lemma mapBytes_lower_marks (e : string) :
  countBytes (Ascii.eqb ".") (mapBytes lowerASCIIByte e) = countBytes (Ascii.eqb ".") e
  /\ countBytes (Ascii.eqb "/") (mapBytes lowerASCIIByte e)
     = countBytes (Ascii.eqb "/") e.
Proof.
  induction e as [|c e [IHdot IHsep]]; [split; reflexivity|].
  cbn [mapBytes countBytes].
  destruct (lowerASCIIByte_keeps_marks c) as [-> ->]. now rewrite IHdot, IHsep.
Qed.

(** X5.  The extension gate looks only at what follows the last dot of
    the last path element: for a name [stem.e] the stem plays no part,
    and for an ASCII extension neither does letter case.  A name
    without an extension never passes the gate, in either variant. *)
Theorem gate_by_last_extension `{UnicodeTable} (v : Variant) (stem e : string) :
  countBytes (Ascii.eqb ".") e = 0 ->
  countBytes (Ascii.eqb "/") e = 0 ->
  (forall other, passesGate v (other ++ "." ++ e) = passesGate v (stem ++ "." ++ e))
  /\ (allBytes isASCIIByte e = true ->
      passesGate v (stem ++ "." ++ mapBytes lowerASCIIByte e)
      = passesGate v (stem ++ "." ++ e))
  /\ (forall name, Ext name = "" -> passesGate v name = false).
Proof.
  intros Hdot Hsep. split; [|split].
  - intros other. unfold passesGate. now rewrite !Ext_last.
  - intros Hascii. unfold passesGate.
    destruct (mapBytes_lower_marks e) as [Hd Hs].
    rewrite !Ext_last by congruence.
    change ("." ++ mapBytes lowerASCIIByte e)
      with (mapBytes lowerASCIIByte ("." ++ e)).
    now rewrite ToLower_twice_ascii.
  - intros name Hnone. unfold passesGate. rewrite Hnone. now destruct v.
Qed.

Lemma gate_by_last_extension_witness :
  @passesGate noUnicode Second ("dir.d/Sheet v1" ++ "." ++ "PDF")
  = @passesGate noUnicode Second ("x" ++ "." ++ "PDF")
  /\ @passesGate noUnicode Second ("x" ++ "." ++ "pdf")
     = @passesGate noUnicode Second ("x" ++ "." ++ "PDF")
  /\ @passesGate noUnicode Second "README" = false.
Proof.
  destruct (@gate_by_last_extension noUnicode Second "x" "PDF" eq_refl eq_refl)
    as (Hstem & Hcase & Hnone).
  split; [apply Hstem | split; [apply Hcase; reflexivity | apply Hnone; reflexivity]].
Defined.

(** ** The page fetch, case by case *)

Lemma fetchHTML_cases (env : Env) (url : string) (w : World) :
  fetchHTML env url w
  = match urlParseError env url with
    | Some err =>
        (None, logPrintf ("Failed to create request for " ++ url ++ ": " ++ err ++ nl) w)
    | None =>
        let sent := emit (HttpSend (pageGet url)) w in
        match roundTrip env (pageGet url) with
        | inl err =>
            (None, logPrintf ("HTTP request to " ++ url ++ " failed: " ++ err ++ nl) sent)
        | inr resp =>
            if negb (StatusCode resp =? 200)%Z then
              (None, logPrintf ("Failed to fetch " ++ url ++ ": " ++ Status resp ++ nl) sent)
            else
              match BodyError resp with
              | Some err =>
                  (None,
                   logPrintf ("Failed to parse HTML from " ++ url ++ ": " ++ err ++ nl) sent)
              | None => (Some (parseHTML env (Body resp)), sent)
              end
        end
    end.
Proof.
  unfold fetchHTML.
  destruct (http_NewRequest env url) as [err|req] eqn:Hreq.
  - unfold http_NewRequest in Hreq.
    destruct (urlParseError env url); [now injection Hreq as -> | discriminate].
  - rewrite (pageGet_headers env url req Hreq).
    unfold http_NewRequest in Hreq.
    destruct (urlParseError env url); [discriminate|].
    unfold client_Do, html_Parse.
    destruct (roundTrip env (pageGet url)) as [err|resp]; [reflexivity|].
    destruct (negb (StatusCode resp =? 200)%Z); [reflexivity|].
    now destruct (BodyError resp).
Qed.

Lemma fetchHTML_none_iff (env : Env) (url : string) (w : World) :
  fst (fetchHTML env url w) = None <-> fetchFails env url.
Proof.
  split; [|intros Hfail; now apply fetchHTML_failure].
  rewrite fetchHTML_cases. unfold fetchFails.
  destruct (urlParseError env url) as [err|]; [eauto|].
  cbv zeta. destruct (roundTrip env (pageGet url)) as [err|resp]; [eauto|].
  destruct (StatusCode resp =? 200)%Z eqn:Hstatus; cbn [negb].
  - destruct (BodyError resp) as [err|] eqn:Hbody; [|discriminate].
    intros _. right; right. exists resp. eauto.
  - intros _. right; right. exists resp. split; [reflexivity|]. left.
    now apply Z.eqb_neq.
Qed.

(** X6.  [fetchHTML] returns a document exactly when the request can be
    built, the transport answers, the status is 200 and the body can be
    read; the document is then the parse of that body.  Whatever
    happens it sends at most one request, the GET with the headers
    [User-Agent] and [Accept], leaves the files alone, and on a failure
    it ends by logging one line. *)
Theorem fetchHTML_outcome (env : Env) (url : string) (w : World) :
  (fst (fetchHTML env url w) = None <-> fetchFails env url)
  /\ fs (snd (fetchHTML env url w)) = fs w
  /\ (forall node,
         fst (fetchHTML env url w) = Some node ->
         snd (fetchHTML env url w) = emit (HttpSend (pageGet url)) w
         /\ exists resp,
             roundTrip env (pageGet url) = inr resp
             /\ StatusCode resp = 200%Z
             /\ node = parseHTML env (Body resp))
  /\ (exists events,
         trace (snd (fetchHTML env url w)) = (trace w ++ events)%list
         /\ (requestsOf events = [] \/ requestsOf events = [pageGet url])
         /\ (fst (fetchHTML env url w) = None ->
             exists msg before, events = (before ++ [LogLine msg])%list)).
Proof.
  split; [apply fetchHTML_none_iff|].
  rewrite fetchHTML_cases.
  destruct (urlParseError env url) as [err|].
  { split; [reflexivity|]. split; [discriminate|].
    eexists. split; [reflexivity|]. split; [now left|].
    intros _. eexists. exists []. reflexivity. }
  cbv zeta. destruct (roundTrip env (pageGet url)) as [err|resp] eqn:Hrt.
  { split; [reflexivity|]. split; [discriminate|].
    exists [HttpSend (pageGet url); LogLine ("HTTP request to " ++ url ++ " failed: " ++ err ++ nl)].
    split; [cbn [logPrintf emit trace snd]; now rewrite <- app_assoc|].
    split; [now right|]. intros _. eexists. exists [HttpSend (pageGet url)]. reflexivity. }
  destruct (StatusCode resp =? 200)%Z eqn:Hstatus; cbn [negb].
  - destruct (BodyError resp) as [err|].
    + split; [reflexivity|]. split; [discriminate|].
      exists [HttpSend (pageGet url);
              LogLine ("Failed to parse HTML from " ++ url ++ ": " ++ err ++ nl)].
      split; [cbn [logPrintf emit trace snd]; now rewrite <- app_assoc|].
      split; [now right|]. intros _. eexists. exists [HttpSend (pageGet url)]. reflexivity.
    + split; [reflexivity|]. split.
      * intros node [= <-]. split; [reflexivity|].
        exists resp. repeat split. now apply Z.eqb_eq.
      * exists [HttpSend (pageGet url)]. split; [reflexivity|].
        split; [now right | discriminate].
  - split; [reflexivity|]. split; [discriminate|].
    exists [HttpSend (pageGet url);
            LogLine ("Failed to fetch " ++ url ++ ": " ++ Status resp ++ nl)].
    split; [cbn [logPrintf emit trace snd]; now rewrite <- app_assoc|].
    split; [now right|]. intros _. eexists. exists [HttpSend (pageGet url)]. reflexivity.
Qed.

(** ** How a run of [main] can end *)

(** X7.  [main] panics exactly when the page fetch fails, in both
    variants.  The second variant otherwise always returns; the first
    can also exit, and only with status 1, after a successful fetch and
    a failed [os.MkdirAll], having emitted nothing after the fetch but
    the log line of the failure. *)
Theorem main_outcomes `{UnicodeTable} (env : Env) (w : World) :
  (forall v, fst (mainOf env v w) = Panicked nilDereference
             <-> fetchFails env baseURL)
  /\ (fst (Variant2.main env w) = Returned <-> ~ fetchFails env baseURL)
  /\ (forall code,
         fst (Variant1.main env w) = Exited code ->
         code = 1%Z
         /\ ~ fetchFails env baseURL
         /\ exists err,
             fst (os_MkdirAll env remoteFolder (snd (fetchHTML env baseURL w))) = Some err
             /\ trace (snd (Variant1.main env w))
                = (trace (snd (fetchHTML env baseURL w))
                     ++ [LogLine ("Failed to create output directory: " ++ err ++ nl)])%list).
Proof.
  pose proof (fetchHTML_none_iff env baseURL w) as Hiff.
  split; [|split].
  - intros v. rewrite <- Hiff.
    destruct v; cbn [mainOf]; unfold Variant1.main, Variant2.main;
      destruct (fetchHTML env baseURL w) as [[node|] w1]; cbn [fst extractLinks];
      try (split; [discriminate | discriminate]);
      try (split; reflexivity).
    destruct (os_MkdirAll env remoteFolder w1) as [[err|] w2];
      split; discriminate.
  - rewrite <- Hiff. unfold Variant2.main.
    destruct (fetchHTML env baseURL w) as [[node|] w1]; cbn [fst extractLinks].
    + split; [discriminate | reflexivity].
    + split; [discriminate | intros Hno; now destruct Hno].
  - intros code. rewrite <- Hiff. unfold Variant1.main.
    destruct (fetchHTML env baseURL w) as [[node|] w1]; cbn [fst snd extractLinks];
      [|discriminate].
    pose proof (os_MkdirAll_trace env remoteFolder w1) as Htrace.
    destruct (os_MkdirAll env remoteFolder w1) as [[err|] w2]; cbn [fst snd] in *;
      [|discriminate].
    intros [= <-]. split; [reflexivity|]. split; [discriminate|].
    exists err. split; [reflexivity|]. cbn [emit trace]. now rewrite Htrace.
Qed.

Lemma main_outcomes_witness :
  @Variant1.main noUnicode (friendlyEnv "data") fileInTheWay
  = (Exited 1, snd (@Variant1.main noUnicode (friendlyEnv "data") fileInTheWay))
  /\ ~ fetchFails (friendlyEnv "data") baseURL.
Proof.
  split; [reflexivity|].
  apply (proj2 (proj2 (@main_outcomes noUnicode (friendlyEnv "data") fileInTheWay)) 1%Z).
  reflexivity.
Defined.

(** ** A download that receives its response *)

(** What [os.Create] has done when it returns no error: the walk along
    the path has arrived, no directory was at its end, and an empty
    file is there now, which a look-up finds whatever is written into
    it. *)
Lemma os_Create_done (env : Env) (path : string) (w w' : World) :
  os_Create env path w = (None, w') ->
  w' = setFs (<[Clean path := RegularFile ""]> (fs w)) w
  /\ lookupPath (fs w) path <> Some Directory
  /\ fs w !! Clean path <> Some Directory
  /\ forall content,
      lookupPath (<[Clean path := RegularFile content]> (fs w)) path
      = Some (RegularFile content).
Proof.
  intros Hcreate.
  destruct (os_Create_cases env path w)
    as [[err Herr]|(Hne & out & Hwalk & Hentry & Hkey & Hdone)]; [congruence|].
  rewrite Hdone in Hcreate. injection Hcreate as <-.
  assert (Hmap : fs w !! Clean path <> Some Directory)
    by now rewrite <- Hkey, <- entryAt_map.
  split; [reflexivity|]. split; [|split; [exact Hmap|]].
  - unfold lookupPath. now rewrite (resolve_walk _ _ Hne), Hwalk.
  - intros content. unfold lookupPath.
    rewrite (resolve_walk _ _ Hne), (walk_insert _ _ _ _ _ _ _ Hmap Hwalk).
    rewrite <- Hkey. now apply entryAt_insert_here.
Qed.

(** ** The directory of a cleaned path *)

Lemma dropLastElem_all (name : list ascii) :
  forallb (fun c => negb (Ascii.eqb c "/")) name = true -> dropLastElem name = [].
Proof.
  induction name as [|c name IH]; cbn [forallb dropLastElem]; [reflexivity|].
  intros [Hc Hname]%andb_true_iff. apply negb_true_iff in Hc.
  rewrite Hc. now apply IH.
Qed.

Lemma noSlash_forallb (e : string) :
  noSlash e ->
  forallb (fun c => negb (Ascii.eqb c "/")) (List.rev (list_ascii_of_string e)) = true.
Proof.
  intros Hns. apply forallb_rev_true.
  induction e as [|c e IH]; [reflexivity|].
  apply noSlash_cons in Hns as [Hc Hns]. cbn [list_ascii_of_string forallb].
  rewrite (IH Hns). now destruct (Ascii.eqb_spec c "/").
Qed.

(** [filepath.Dir] cuts the last element off and cleans what is left. *)
Lemma Dir_last (front e : string) :
  noSlash e ->
  front = "" \/ (exists before, front = before ++ "/") ->
  Dir (front ++ e) = Clean front.
Proof.
  intros Hns Hfront. unfold Dir. f_equal.
  rewrite list_ascii_of_string_app, rev_app_distr.
  destruct Hfront as [->|[before ->]].
  - cbn [list_ascii_of_string List.rev]. rewrite app_nil_r.
    now rewrite (dropLastElem_all _ (noSlash_forallb e Hns)).
  - rewrite list_ascii_of_string_app, rev_app_distr.
    change (List.rev (list_ascii_of_string "/")) with ["/"%char].
    change (["/"%char] ++ List.rev (list_ascii_of_string before))%list
      with ("/"%char :: List.rev (list_ascii_of_string before))%list.
    rewrite (dropLastElem_app _ _ (noSlash_forallb e Hns)).
    cbn [List.rev]. rewrite rev_involutive, string_of_list_ascii_app.
    now rewrite string_of_list_ascii_of_string.
Qed.

Lemma HasPrefix_app (s more : string) :
  s <> "" -> HasPrefix (s ++ more) "/" = HasPrefix s "/".
Proof. destruct s; [intros Hne; now destruct Hne | reflexivity]. Qed.

(** A separator behind a cleaned path is cleaned away. *)
Lemma Clean_trailing (rooted : bool) (out : list string) :
  cleanedStack rooted out ->
  Clean (positionPath rooted out ++ "/") = positionPath rooted out.
Proof.
  intros Hout.
  pose proof (positionPath_nonempty rooted out) as Hne.
  rewrite Clean_position
    by (destruct (positionPath rooted out); [now destruct Hne | discriminate]).
  rewrite (HasPrefix_app _ _ Hne), (positionPath_rooted _ _ Hout).
  rewrite splitOn_app_sep, fold_left_app, (positionPath_buffer _ _ Hout).
  reflexivity.
Qed.

Lemma Dir_position (rooted : bool) (e : string) (below : list string) :
  cleanedStack rooted (e :: below) ->
  Dir (positionPath rooted (e :: below)) = positionPath rooted below.
Proof.
  intros Hout. assert (Hbelow : cleanedStack rooted below)
    by (cbn [cleanedStack] in Hout; tauto).
  assert (Hns : noSlash e) by (cbn [cleanedStack] in Hout; tauto).
  rewrite (positionPath_cons _ _ _ Hout). cbn [List.rev].
  destruct below as [|next below'].
  - cbn [List.rev app joinWith].
    rewrite (Dir_last _ e Hns); destruct rooted; try reflexivity.
    + right. now exists "".
    + now left.
  - destruct (rev_cons_first next below') as (first & others & Hrev & _).
    rewrite Hrev, joinWith_snoc, <- Hrev.
    change (String "/" e) with ("/" ++ e).
    rewrite <- !append_assoc, <- (positionPath_cons _ _ _ Hbelow).
    rewrite (Dir_last _ e Hns) by (right; eauto).
    now apply Clean_trailing.
Qed.

Lemma positionPath_no_separator_behind (rooted : bool) (e : string)
      (below : list string) :
  cleanedStack rooted (e :: below) ->
  HasSuffix (positionPath rooted (e :: below)) "/" = false.
Proof.
  intros Hout. apply not_true_is_false. intros [front Hfront]%HasSuffix_slash.
  pose proof (positionPath_elems _ _ _ Hout) as Helems.
  rewrite Hfront in Helems. change (front ++ "/") with (front ++ String "/" "") in Helems.
  rewrite splitOn_app_sep in Helems. cbn [List.rev splitOn] in Helems.
  rewrite app_assoc in Helems. apply app_inj_tail in Helems as [_ He].
  cbn [cleanedStack] in Hout. destruct Hout as (_ & Hne & _). now destruct Hne.
Qed.

(** A cleaned path at which a look-up finds nothing, in a directory
    that is there, ends in a name, and the walk along it arrives. *)
Lemma free_position (m : gmap string FNode) (path : string) :
  path <> "" ->
  lookupPath m (Clean path) = None ->
  lookupPath m (Dir (Clean path)) = Some Directory ->
  exists e below,
    cleanedStack (HasPrefix path "/") (e :: below)
    /\ Clean path = positionPath (HasPrefix path "/") (e :: below)
    /\ aboveAreDirectories m (HasPrefix path "/") (e :: below)
    /\ entryAt m (HasPrefix path "/") (e :: below) = None.
Proof.
  intros Hne Hfree Hparent.
  destruct (Clean_cleaned path Hne) as (out & Hout & Hclean).
  rewrite Hclean in Hfree, Hparent.
  destruct out as [|e below].
  { rewrite lookupPath_position in Hfree by (exact Hout || exact I). discriminate. }
  exists e, below. split; [exact Hout|]. split; [exact Hclean|].
  assert (Hbelow : cleanedStack (HasPrefix path "/") below)
    by (cbn [cleanedStack] in Hout; tauto).
  rewrite (Dir_position _ _ _ Hout) in Hparent.
  destruct (lookupPath_found m _ _ Hparent)
    as (_ & reached & _ & Hentry & Hreached & Habove & Hkey).
  rewrite (Clean_positionPath _ _ Hbelow) in Hkey.
  rewrite (positionPath_rooted _ _ Hbelow) in Hentry, Hreached, Habove, Hkey.
  apply (positionPath_inj _ _ _ _ Hbelow Hreached) in Hkey as [_ <-].
  assert (Hup : aboveAreDirectories m (HasPrefix path "/") (e :: below))
    by (cbn [aboveAreDirectories]; now split).
  split; [exact Hup|].
  now rewrite <- (lookupPath_position m _ _ Hout Hup).
Qed.

(** [os.Create] at such a path goes through. *)
Lemma os_Create_free (env : Env) (path : string) (w : World) :
  path <> "" ->
  lookupPath (fs w) (Clean path) = None ->
  lookupPath (fs w) (Dir (Clean path)) = Some Directory ->
  sysFault env (SysOpen (Clean path)) = None ->
  os_Create env (Clean path) w
  = (None, setFs (<[Clean path := RegularFile ""]> (fs w)) w).
Proof.
  intros Hne Hfree Hparent Hopen.
  destruct (free_position (fs w) path Hne Hfree Hparent)
    as (e & below & Hout & Hclean & Habove & Hentry).
  unfold os_Create. rewrite Hopen. cbv zeta. rewrite Hclean.
  pose proof (positionPath_nonempty (HasPrefix path "/") (e :: below)) as Hpath.
  destruct (String.eqb_spec (positionPath (HasPrefix path "/") (e :: below)) "");
    [contradiction|].
  rewrite (positionPath_no_separator_behind _ _ _ Hout).
  rewrite (positionPath_rooted _ _ Hout), (positionPath_elems _ _ _ Hout).
  now rewrite (walk_cleaned _ _ _ Hout Habove), Hentry.
Qed.

Lemma Join_in_directory (dir name : string) :
  dir <> "" ->
  exists path, path <> "" /\ Join [dir; name] = Clean path.
Proof.
  intros Hdir. cbn [Join].
  destruct (String.eqb_spec dir "") as [->|_]; [now destruct Hdir|].
  exists (joinWith "/" [dir; name]). split; [|reflexivity].
  cbn [joinWith]. destruct dir; [now destruct Hdir | discriminate].
Qed.

Lemma Join_cleaned (dir name : string) :
  Join [dir; name] = ""
  \/ exists path, path <> "" /\ Join [dir; name] = Clean path.
Proof.
  cbn [Join].
  destruct (String.eqb_spec dir "") as [->|Hdir].
  - destruct (String.eqb_spec name "") as [->|Hname]; [now left|].
    right. exists name. split; [exact Hname | reflexivity].
  - right. exists (joinWith "/" [dir; name]). split; [|reflexivity].
    cbn [joinWith]. destruct dir; [now destruct Hdir | discriminate].
Qed.

Section Received.
Context `{UnicodeTable}.
Variable env : Env.

(** The run of [downloadFile] when nothing stands in its way up to the
    copy: the file is created, the bytes that arrive are stored, and the
    error of the stream, if any, is the error returned. *)
Lemma downloadFile_receives (v : Variant) (base name dir : string) (w : World)
      (resp : Response) :
  passesGate v name = true ->
  lookupPath (fs w) (Join [dir; name]) = None ->
  lookupPath (fs w) (Dir (Clean (Join [dir; name]))) = Some Directory ->
  lookupPath (fs w) dir = Some Directory ->
  urlParseError env (base ++ name) = None ->
  roundTrip env (plainGet (base ++ name)) = inr resp ->
  sysFault env (SysOpen (Join [dir; name])) = None ->
  sysFault env (SysWrite (Join [dir; name])) = None ->
  let stored :=
    setFs (<[Clean (Join [dir; name]) := RegularFile (Body resp)]>
             (<[Clean (Join [dir; name]) := RegularFile ""]> (fs w)))
          (emit (HttpSend (plainGet (base ++ name))) w) in
  downloadFileOf env v base name dir w
  = match BodyError resp with
    | Some cause => (Some (errSaving (Join [dir; name]) cause), stored)
    | None => (None, emit (StdoutWrite (msgDownloaded name)) stored)
    end
  /\ lookupPath (fs stored) (Join [dir; name]) = Some (RegularFile (Body resp)).
Proof.
  intros Hgate Hfree Hparent Hout Hparse Hresp Hopen Hwrite stored.
  assert (Hdir : dir <> "") by (intros ->; discriminate Hout).
  destruct (Join_in_directory dir name Hdir) as (path & Hpath & Hjoin).
  assert (Hex : fileExists env (Join [dir; name]) w = false).
  { unfold fileExists, os_Stat.
    destruct (sysFault env (SysStat (Join [dir; name]))); [reflexivity|].
    now rewrite Hfree. }
  assert (Hget : http_Get env (base ++ name) w
                 = (inr resp, emit (HttpSend (plainGet (base ++ name))) w))
    by (rewrite http_Get_result, Hparse; now rewrite Hresp).
  assert (Hcreate : os_Create env (Join [dir; name])
                      (emit (HttpSend (plainGet (base ++ name))) w)
                    = (None,
                       setFs (<[Clean (Join [dir; name]) := RegularFile ""]> (fs w))
                             (emit (HttpSend (plainGet (base ++ name))) w))).
  { rewrite Hjoin in Hfree, Hparent, Hopen |- *. rewrite Clean_twice in Hparent |- *.
    exact (os_Create_free env path (emit (HttpSend (plainGet (base ++ name))) w)
             Hpath Hfree Hparent Hopen). }
  assert (Hmk : os_MkdirAll env dir (emit (HttpSend (plainGet (base ++ name))) w)
                = (None, emit (HttpSend (plainGet (base ++ name))) w))
    by (apply os_MkdirAll_present; exact Hout).
  split.
  - unfold passesGate in Hgate.
    destruct v; cbn [downloadFileOf allowListOf] in *;
      unfold Variant1.downloadFile, Variant2.downloadFile; cbv zeta;
      rewrite Hgate, Hex; cbn [negb]; rewrite Hget;
      rewrite ?Hmk; rewrite Hcreate;
      unfold io_Copy; rewrite Hwrite; cbn [setFs fs trace];
      now destruct (BodyError resp).
  - subst stored. cbn [setFs fs]. rewrite insert_insert_eq.
    apply (os_Create_done env _ _ _ Hcreate).
Qed.

End Received.

(** X8.  [downloadFile] never looks at the status of the response: when
    the request can be sent and is answered, with any status, and
    nothing stands in the way locally, the body is stored under the
    local path, the download is announced on standard output and the
    result is nil. *)
Theorem downloadFile_stores_any_response `{UnicodeTable} (env : Env)
        (v : Variant) (base name dir : string) (w : World) (resp : Response) :
  passesGate v name = true ->
  lookupPath (fs w) (Join [dir; name]) = None ->
  lookupPath (fs w) (Dir (Clean (Join [dir; name]))) = Some Directory ->
  lookupPath (fs w) dir = Some Directory ->
  urlParseError env (base ++ name) = None ->
  roundTrip env (plainGet (base ++ name)) = inr resp ->
  BodyError resp = None ->
  sysFault env (SysOpen (Join [dir; name])) = None ->
  sysFault env (SysWrite (Join [dir; name])) = None ->
  fst (downloadFileOf env v base name dir w) = None
  /\ lookupPath (fs (snd (downloadFileOf env v base name dir w))) (Join [dir; name])
     = Some (RegularFile (Body resp))
  /\ trace (snd (downloadFileOf env v base name dir w))
     = (trace w ++ [HttpSend (plainGet (base ++ name));
                    StdoutWrite (msgDownloaded name)])%list.
Proof.
  intros Hgate Hfree Hparent Hout Hparse Hresp Hbody Hopen Hwrite.
  destruct (downloadFile_receives env v base name dir w resp
              Hgate Hfree Hparent Hout Hparse Hresp Hopen Hwrite) as [Hrun Hfile].
  cbv zeta in Hrun, Hfile. rewrite Hbody in Hrun. rewrite Hrun. cbn [fst snd].
  split; [reflexivity|]. split; [exact Hfile|].
  cbn [emit setFs trace]. now rewrite <- app_assoc.
Qed.

(** The error page of a 404 answer ends up in [Assets/notes.txt]. *)
Lemma downloadFile_stores_any_response_witness :
  roundTrip errorPageEnv (plainGet (baseURL ++ "notes.txt"))
  = inr {| StatusCode := 404; Status := "404 Not Found";
           Body := "<h1>Not Found</h1>"; BodyError := None |}
  /\ fst (@downloadFileOf noUnicode errorPageEnv First baseURL "notes.txt"
            remoteFolder freshAssets) = None
  /\ lookupPath (fs (snd (@downloadFileOf noUnicode errorPageEnv First baseURL
                            "notes.txt" remoteFolder freshAssets)))
                (Join [remoteFolder; "notes.txt"])
     = Some (RegularFile "<h1>Not Found</h1>").
Proof.
  split; [reflexivity|].
  destruct (@downloadFile_stores_any_response noUnicode errorPageEnv First baseURL
              "notes.txt" remoteFolder freshAssets
              {| StatusCode := 404; Status := "404 Not Found";
                 Body := "<h1>Not Found</h1>"; BodyError := None |}
              eq_refl eq_refl eq_refl eq_refl eq_refl eq_refl eq_refl eq_refl eq_refl)
    as (Hnil & Hfile & _).
  split; assumption.
Defined.

(** X9.  When the stream of the response breaks, [downloadFile] returns
    the error of the copy under the local path, but the file it has
    created stays behind with the bytes received so far; a later call
    for the same target finds it and skips the download without a
    request. *)
Theorem broken_download_is_kept `{UnicodeTable} (env : Env)
        (v : Variant) (base name dir cause : string) (w : World)
        (resp : Response) :
  passesGate v name = true ->
  lookupPath (fs w) (Join [dir; name]) = None ->
  lookupPath (fs w) (Dir (Clean (Join [dir; name]))) = Some Directory ->
  lookupPath (fs w) dir = Some Directory ->
  urlParseError env (base ++ name) = None ->
  roundTrip env (plainGet (base ++ name)) = inr resp ->
  BodyError resp = Some cause ->
  sysFault env (SysStat (Join [dir; name])) = None ->
  sysFault env (SysOpen (Join [dir; name])) = None ->
  sysFault env (SysWrite (Join [dir; name])) = None ->
  fst (downloadFileOf env v base name dir w) = Some (errSaving (Join [dir; name]) cause)
  /\ lookupPath (fs (snd (downloadFileOf env v base name dir w))) (Join [dir; name])
     = Some (RegularFile (Body resp))
  /\ downloadFileOf env v base name dir (snd (downloadFileOf env v base name dir w))
     = (None, logPrintf (msgAlreadyExists (Join [dir; name]))
                (snd (downloadFileOf env v base name dir w))).
Proof.
  intros Hgate Hfree Hparent Hout Hparse Hresp Hbody Hstat Hopen Hwrite.
  destruct (downloadFile_receives env v base name dir w resp
              Hgate Hfree Hparent Hout Hparse Hresp Hopen Hwrite) as [Hrun Hfile].
  cbv zeta in Hrun, Hfile. rewrite Hbody in Hrun. rewrite Hrun. cbn [fst snd].
  split; [reflexivity|]. split; [exact Hfile|].
  apply downloadFile_exists; [exact Hgate|].
  unfold fileExists, os_Stat. rewrite Hstat. now rewrite Hfile.
Qed.

Lemma broken_download_is_kept_witness :
  fst (@downloadFileOf noUnicode (brokenStreamEnv "%PDF-1.4 half") First baseURL
         "notes.txt" remoteFolder freshAssets)
  = Some (errSaving "Assets/notes.txt" "unexpected EOF")
  /\ lookupPath (fs (snd (@downloadFileOf noUnicode (brokenStreamEnv "%PDF-1.4 half")
                            First baseURL "notes.txt" remoteFolder freshAssets)))
                (Join [remoteFolder; "notes.txt"])
     = Some (RegularFile "%PDF-1.4 half").
Proof.
  destruct (@broken_download_is_kept noUnicode (brokenStreamEnv "%PDF-1.4 half") First
              baseURL "notes.txt" remoteFolder "unexpected EOF" freshAssets
              {| StatusCode := 200; Status := "200 OK"; Body := "%PDF-1.4 half";
                 BodyError := Some "unexpected EOF" |}
              eq_refl eq_refl eq_refl eq_refl eq_refl eq_refl eq_refl eq_refl
              eq_refl eq_refl)
    as (Herr & Hfile & _).
  split; assumption.
Defined.

(** ** Files that are already there *)

(** What [io.Copy] has stored. *)
Lemma io_Copy_fs (env : Env) (path : string) (resp : Response) (w : World) :
  fs (snd (io_Copy env path resp w)) = fs w
  \/ (fs (snd (io_Copy env path resp w))
      = <[Clean path := RegularFile (Body resp)]> (fs w)
      /\ fst (io_Copy env path resp w) = BodyError resp).
Proof.
  unfold io_Copy. destruct (sysFault env (SysWrite path)); [now left | now right].
Qed.

(** Creating and filling the file at a path leaves what any path with
    another key leads to. *)
Lemma create_and_copy_keep (env : Env) (path p : string) (old : FNode)
      (resp : Response) (w : World) :
  Clean p <> Clean path ->
  lookupPath (fs w) p = Some old ->
  lookupPath (fs (snd (os_Create env path w))) p = Some old
  /\ (fst (os_Create env path w) = None ->
      lookupPath (fs (snd (io_Copy env path resp (snd (os_Create env path w))))) p
      = Some old).
Proof.
  intros Hkey Hold.
  destruct (os_Create env path w) as [[err|] w'] eqn:Hcreate; cbn [fst snd].
  - destruct (os_Create_cases env path w) as [[err' Herr]|(_ & out & _ & _ & _ & Hdone)];
      [|congruence].
    rewrite Herr in Hcreate. injection Hcreate as _ <-. split; [exact Hold | discriminate].
  - destruct (os_Create_done env path w w' Hcreate) as (-> & _ & Hmap & _).
    cbn [setFs fs]. split; [now apply lookupPath_insert_other|].
    intros _.
    destruct (io_Copy_fs env path resp
                (setFs (<[Clean path := RegularFile ""]> (fs w)) w)) as [->|[-> _]];
      cbn [setFs fs].
    + now apply lookupPath_insert_other.
    + rewrite insert_insert_eq. now apply lookupPath_insert_other.
Qed.

Lemma lookupPath_here (m : gmap string FNode) : lookupPath m "." = Some Directory.
Proof. reflexivity. Qed.

(** A path that leads to a regular file has another key than a local
    path at which no regular file is found. *)
Lemma other_key (m : gmap string FNode) (dir name p content : string) :
  lookupPath m p = Some (RegularFile content) ->
  (forall c, lookupPath m (Join [dir; name]) <> Some (RegularFile c)) ->
  Clean p <> Clean (Join [dir; name]).
Proof.
  intros Hfile Hnone Hkey. apply lookupPath_Clean in Hfile. rewrite Hkey in Hfile.
  destruct (Join_cleaned dir name) as [Hjoin|(path & _ & Hjoin)]; rewrite Hjoin in *.
  - change (Clean "") with "." in Hfile. rewrite lookupPath_here in Hfile.
    discriminate.
  - rewrite Clean_twice in Hfile. now apply (Hnone content).
Qed.

Lemma fileExists_false_no_file (env : Env) (path : string) (w : World) :
  statNeverFaults env ->
  fileExists env path w = false ->
  forall content, lookupPath (fs w) path <> Some (RegularFile content).
Proof.
  intros Hstat. unfold fileExists, os_Stat. rewrite (Hstat path).
  destruct (lookupPath (fs w) path) as [[c|]|]; intros Hex content'; congruence.
Qed.

Section Keeps.
Context `{UnicodeTable}.
Variable env : Env.
Hypothesis Hstat : statNeverFaults env.

Lemma downloadFile_keeps_regular (v : Variant) (base name dir : string)
      (w : World) (p content : string) :
  lookupPath (fs w) p = Some (RegularFile content) ->
  lookupPath (fs (snd (downloadFileOf env v base name dir w))) p
  = Some (RegularFile content).
Proof.
  intros Hold.
  destruct (passesGate v name) eqn:Hgate;
    [|now rewrite downloadFile_gate_closed].
  destruct (fileExists env (Join [dir; name]) w) eqn:Hex;
    [now rewrite downloadFile_exists|].
  pose proof (fileExists_false_no_file env _ w Hstat Hex) as Hnofile.
  pose proof (other_key _ dir name p content Hold Hnofile) as Hkey.
  pose proof (http_Get_fs env (base ++ name) w) as Hfs.
  destruct (http_Get env (base ++ name) w) as [[cause|resp] w1] eqn:Hget;
    cbn [snd] in Hfs.
  - rewrite (downloadFile_get_failed env v base name dir cause w Hgate Hex);
      rewrite Hget; [|reflexivity]. cbn [snd]. now rewrite Hfs.
  - rewrite <- Hfs in Hold.
    rewrite (downloadFile_answered env v base name dir w w1 resp Hgate Hex Hget).
    assert (Hmade : lookupPath (fs (snd (ensureDirectory env v dir w1))) p
                    = Some (RegularFile content))
      by (destruct v; cbn [ensureDirectory snd];
          [now apply os_MkdirAll_preserves | exact Hold]).
    destruct (ensureDirectory env v dir w1) as [[err|] w2]; cbn [snd] in Hmade;
      [exact Hmade|].
    destruct (create_and_copy_keep env (Join [dir; name]) p _ resp w2 Hkey Hmade)
      as [Hcr Hcp].
    destruct (os_Create env (Join [dir; name]) w2) as [[err|] w3];
      cbn [fst snd] in *; [exact Hcr|].
    specialize (Hcp eq_refl).
    now destruct (io_Copy env (Join [dir; name]) resp w3) as [[err|] w4].
Qed.

Lemma downloadAll_keeps_regular (v : Variant) (links : list string)
      (p content : string) :
  forall w,
    lookupPath (fs w) p = Some (RegularFile content) ->
    lookupPath (fs (downloadAllOf env v links w)) p = Some (RegularFile content).
Proof.
  intros w. rewrite downloadAllOf_fold. revert w.
  induction links as [|link links IH]; intros w Hold; cbn [fold_left];
    [exact Hold|].
  apply IH. unfold loopStep, downloadStep.
  pose proof (downloadFile_keeps_regular v baseURL (targetName v link) remoteFolder
                w p content Hold) as Hkeep.
  now destruct (downloadFileOf env v baseURL (targetName v link) remoteFolder w)
    as [[err|] w1].
Qed.

(** A download that ends with a nil error after passing the gate and
    finding no file has put a regular file at the local path. *)
Lemma downloadFile_done_file (v : Variant) (base name dir : string) (w : World) :
  passesGate v name = true ->
  fileExists env (Join [dir; name]) w = false ->
  fst (downloadFileOf env v base name dir w) = None ->
  exists content,
    lookupPath (fs (snd (downloadFileOf env v base name dir w))) (Join [dir; name])
    = Some (RegularFile content).
Proof.
  intros Hgate Hex.
  destruct (http_Get env (base ++ name) w) as [[cause|resp] w1] eqn:Hget.
  - rewrite (downloadFile_get_failed env v base name dir cause w Hgate Hex);
      rewrite Hget; [discriminate | reflexivity].
  - rewrite (downloadFile_answered env v base name dir w w1 resp Hgate Hex Hget).
    destruct (ensureDirectory env v dir w1) as [[err|] w2]; [discriminate|].
    destruct (os_Create env (Join [dir; name]) w2) as [[err|] w3] eqn:Hcreate;
      [discriminate|].
    destruct (os_Create_done env _ w2 w3 Hcreate) as (-> & _ & _ & Hfound).
    unfold io_Copy.
    destruct (sysFault env (SysWrite (Join [dir; name]))); [discriminate|].
    cbn [setFs fs trace]. destruct (BodyError resp); [discriminate|].
    intros _. exists (Body resp). cbn [snd emit fs].
    rewrite insert_insert_eq. apply Hfound.
Qed.

End Keeps.

(** X10.  When no [os.Stat] fails for outside reasons, a download never
    changes a regular file that is already there, whatever its target;
    neither does the whole download loop. *)
Theorem downloads_never_overwrite `{UnicodeTable} (env : Env) (v : Variant) :
  statNeverFaults env ->
  (forall base name dir w p content,
      lookupPath (fs w) p = Some (RegularFile content) ->
      lookupPath (fs (snd (downloadFileOf env v base name dir w))) p
      = Some (RegularFile content))
  /\ (forall links w p content,
         lookupPath (fs w) p = Some (RegularFile content) ->
         lookupPath (fs (downloadAllOf env v links w)) p
         = Some (RegularFile content)).
Proof.
  intros Hstat. split.
  - intros base name dir w p content. now apply downloadFile_keeps_regular.
  - intros links w p content. now apply downloadAll_keeps_regular.
Qed.

Lemma friendlyEnv_stat (payload : string) : statNeverFaults (friendlyEnv payload).
Proof. intros path. reflexivity. Qed.

(** The file of an earlier run keeps its content though the server now
    serves other bytes. *)
Lemma downloads_never_overwrite_witness :
  statNeverFaults (friendlyEnv "new bytes")
  /\ lookupPath (fs (@downloadAllOf noUnicode (friendlyEnv "new bytes") First
                       ["notes.txt"; "./notes.txt"; "more.txt"] secondRun))
                "Assets/notes.txt"
     = Some (RegularFile "data").
Proof.
  split; [apply friendlyEnv_stat|].
  apply (proj2 (@downloads_never_overwrite noUnicode (friendlyEnv "new bytes") First
                  (friendlyEnv_stat "new bytes"))).
  reflexivity.
Defined.

(** X11.  A target that has been downloaded is not fetched again: after
    a download that passed the gate, found no file and returned nil,
    and after any further downloads of the loop, a call for the same
    target is the no-op of an existing file (absent outside failures of
    [os.Stat]). *)
Theorem downloaded_target_is_skipped `{UnicodeTable} (env : Env) (v : Variant)
        (name : string) (later : list string) (w : World) :
  statNeverFaults env ->
  passesGate v name = true ->
  fileExists env (Join [remoteFolder; name]) w = false ->
  fst (downloadFileOf env v baseURL name remoteFolder w) = None ->
  downloadFileOf env v baseURL name remoteFolder
    (downloadAllOf env v later (snd (downloadFileOf env v baseURL name remoteFolder w)))
  = (None,
     logPrintf (msgAlreadyExists (Join [remoteFolder; name]))
       (downloadAllOf env v later
          (snd (downloadFileOf env v baseURL name remoteFolder w)))).
Proof.
  intros Hstat Hgate Hex Hdone.
  destruct (downloadFile_done_file env v baseURL name remoteFolder w Hgate Hex Hdone)
    as [content Hfile].
  apply downloadFile_exists; [exact Hgate|].
  pose proof (downloadAll_keeps_regular env Hstat v later _ content _ Hfile) as Hlater.
  unfold fileExists, os_Stat. rewrite (Hstat _). now rewrite Hlater.
Qed.

Lemma downloaded_target_is_skipped_witness :
  fst (@downloadFileOf noUnicode (friendlyEnv "data") First baseURL "notes.txt"
         remoteFolder freshAssets) = None
  /\ fst (@downloadFileOf noUnicode (friendlyEnv "data") First baseURL "notes.txt"
            remoteFolder
            (@downloadAllOf noUnicode (friendlyEnv "data") First ["more.txt"]
               (snd (@downloadFileOf noUnicode (friendlyEnv "data") First baseURL
                       "notes.txt" remoteFolder freshAssets)))) = None.
Proof.
  assert (Hdone : fst (@downloadFileOf noUnicode (friendlyEnv "data") First baseURL
                         "notes.txt" remoteFolder freshAssets) = None)
    by reflexivity.
  split; [exact Hdone|].
  rewrite (@downloaded_target_is_skipped noUnicode (friendlyEnv "data") First
             "notes.txt" ["more.txt"] freshAssets
             (friendlyEnv_stat "data") eq_refl eq_refl Hdone).
  reflexivity.
Defined.

(** ** The requests of the download loop *)

Lemma requestsOf_app (a b : list Event) :
  requestsOf (a ++ b) = (requestsOf a ++ requestsOf b)%list.
Proof. apply flat_map_app. Qed.

Section Requests.
Context `{UnicodeTable}.
Variable env : Env.

(** After its GET a download sends nothing more. *)
Lemma downloadFile_tail (v : Variant) (base name dir : string) (w w1 : World)
      (resp : Response) :
  passesGate v name = true ->
  fileExists env (Join [dir; name]) w = false ->
  http_Get env (base ++ name) w = (inr resp, w1) ->
  trace (snd (downloadFileOf env v base name dir w)) = trace w1
  \/ trace (snd (downloadFileOf env v base name dir w))
     = (trace w1 ++ [StdoutWrite (msgDownloaded name)])%list.
Proof.
  unfold passesGate. intros Hgate Hex Hget.
  assert (Htail : forall w2,
             trace w2 = trace w1 ->
             let r := match os_Create env (Join [dir; name]) w2 with
                      | (Some err, w3) =>
                          (Some (errCreateFile (Join [dir; name]) err), w3)
                      | (None, w3) =>
                          match io_Copy env (Join [dir; name]) resp w3 with
                          | (Some err, w4) =>
                              (Some (errSaving (Join [dir; name]) err), w4)
                          | (None, w4) =>
                              (None, emit (StdoutWrite (msgDownloaded name)) w4)
                          end
                      end in
             trace (snd r) = trace w1
             \/ trace (snd r) = (trace w1 ++ [StdoutWrite (msgDownloaded name)])%list).
  { intros w2 Htr. cbv zeta.
    pose proof (os_Create_trace env (Join [dir; name]) w2) as Hcr.
    destruct (os_Create env (Join [dir; name]) w2) as [[err|] w3]; cbn [snd] in Hcr;
      [left; cbn [snd]; congruence|].
    pose proof (io_Copy_trace env (Join [dir; name]) resp w3) as Hcp.
    destruct (io_Copy env (Join [dir; name]) resp w3) as [[err|] w4];
      cbn [snd] in *; [left; congruence|].
    right. cbn [emit trace]. congruence. }
  destruct v; cbn [downloadFileOf allowListOf] in *;
    unfold Variant1.downloadFile, Variant2.downloadFile; cbv zeta;
    rewrite Hgate, Hex; cbn [negb]; rewrite Hget.
  - pose proof (os_MkdirAll_trace env dir w1) as Hmk.
    destruct (os_MkdirAll env dir w1) as [[err|] w2]; cbn [snd] in Hmk;
      [now left|].
    now apply Htail.
  - now apply Htail.
Qed.

Lemma loopStep_requests (v : Variant) (link : string) (w : World) :
  exists emitted,
    trace (loopStep env v w link) = (trace w ++ emitted)%list
    /\ (requestsOf emitted = []
        \/ requestsOf emitted = [plainGet (baseURL ++ targetName v link)]).
Proof.
  unfold loopStep, downloadStep.
  destruct (passesGate v (targetName v link)) eqn:Hgate;
    [|rewrite (downloadFile_gate_closed env v _ _ _ w Hgate);
      eexists; split; [reflexivity | now left]].
  destruct (fileExists env (Join [remoteFolder; targetName v link]) w) eqn:Hex;
    [rewrite (downloadFile_exists env v _ _ _ w Hgate Hex);
     eexists; split; [reflexivity | now left]|].
  pose proof (http_Get_result env (baseURL ++ targetName v link) w) as Hget.
  destruct (urlParseError env (baseURL ++ targetName v link)) as [cause|].
  - rewrite (downloadFile_get_failed env v _ _ _ cause w Hgate Hex);
      rewrite Hget; [|reflexivity].
    eexists. split; [reflexivity | now left].
  - destruct (roundTrip env (plainGet (baseURL ++ targetName v link)))
      as [cause|resp].
    + rewrite (downloadFile_get_failed env v _ _ _ cause w Hgate Hex);
        rewrite Hget; [|reflexivity].
      exists [HttpSend (plainGet (baseURL ++ targetName v link));
              StderrWrite (errDownload (baseURL ++ targetName v link) cause ++ nl)].
      split; [cbn [emit trace snd]; now rewrite <- app_assoc | now right].
    + pose proof (downloadFile_tail v _ _ _ w _ resp Hgate Hex Hget) as Htail.
      destruct (downloadFileOf env v baseURL (targetName v link) remoteFolder w)
        as [[err|] w1]; cbn [snd emit trace] in *;
        destruct Htail as [-> | ->]; eexists;
        (split; [rewrite <- ?app_assoc; reflexivity | now right]).
Qed.

Lemma loop_requests (v : Variant) (links : list string) :
  forall w,
  exists emitted,
    trace (fold_left (loopStep env v) links w) = (trace w ++ emitted)%list
    /\ List.length (requestsOf emitted) <= List.length links
    /\ forall req, In req (requestsOf emitted) ->
                   exists link, In link links
                                /\ req = plainGet (baseURL ++ targetName v link).
Proof.
  induction links as [|l links IH]; intros w; cbn [fold_left].
  - exists []. split; [now rewrite app_nil_r|]. split; [reflexivity | intros req []].
  - destruct (loopStep_requests v l w) as (first & Hfirst & Hreq).
    destruct (IH (loopStep env v w l)) as (others & Hothers & Hlen & Hall).
    exists (first ++ others)%list. split; [now rewrite Hothers, Hfirst, <- app_assoc|].
    rewrite requestsOf_app, length_app. split.
    + cbn [List.length]. destruct Hreq as [-> | ->]; cbn [List.length]; lia.
    + intros req [Hin|Hin]%in_app_or.
      * destruct Hreq as [Hnone|Hone]; rewrite ?Hnone, ?Hone in Hin;
          [destruct Hin|].
        destruct Hin as [<-|[]]. exists l. split; [now left | reflexivity].
      * destruct (Hall req Hin) as (link & Hlink & ->).
        exists link. split; [now right | reflexivity].
Qed.

End Requests.

(** X12.  The download loop sends at most one request per link, each a
    plain GET (no headers of the program's own) for the base URL
    followed by the target name of a link of the list; in the second
    variant that is the sanitised name, a stem over [a-z0-9_] followed
    by [.pdf], not the link as the page gave it. *)
Theorem download_loop_requests `{UnicodeTable} (env : Env) (v : Variant)
        (links : list string) (w : World) :
  exists emitted,
    trace (downloadAllOf env v links w) = (trace w ++ emitted)%list
    /\ List.length (requestsOf emitted) <= List.length links
    /\ (forall req,
           In req (requestsOf emitted) ->
           exists link,
             In link links
             /\ req = plainGet (baseURL ++ targetName v link)
             /\ (v = Second ->
                 URL req = baseURL ++ safeName link ++ ".pdf"
                 /\ allBytes isSafeByte (safeName link) = true)).
Proof.
  rewrite downloadAllOf_fold.
  destruct (loop_requests env v links w) as (emitted & Htrace & Hlen & Hall).
  exists emitted. split; [exact Htrace|]. split; [exact Hlen|].
  intros req Hin. destruct (Hall req Hin) as (link & Hlink & ->).
  exists link. split; [exact Hlink|]. split; [reflexivity|].
  intros ->. cbn [targetName plainGet URL].
  rewrite urlToFilename_appends. split; [reflexivity | apply safeName_safe].
Qed.

(** ** The two downloaders side by side *)




(** ** Making the output directory in the second variant *)

Lemma dropTrailingEmpty_rest (elems : list string) :
  exists k, elems = (dropTrailingEmpty elems ++ repeat "" k)%list.
Proof.
  induction elems as [|e elems [k IH]]; [now exists 0|].
  cbn [dropTrailingEmpty].
  destruct (dropTrailingEmpty elems) as [|kept more].
  - cbn [app] in IH. rewrite IH.
    destruct (String.eqb_spec e "") as [->|_]; [now exists (S k) | now exists k].
  - exists k. now rewrite IH at 1.
Qed.

Lemma walk_empties (m : gmap string FNode) (rooted : bool) (out : list string)
      (k : nat) :
  entryAt m rooted out = Some Directory ->
  walk m rooted out (repeat "" k) = inr out.
Proof.
  intros Hdir. induction k as [|k IH]; cbn [repeat walk]; [reflexivity|].
  now rewrite Hdir.
Qed.

(** What [os.Mkdir] has done when it returns no error. *)
Lemma os_Mkdir_done (env : Env) (path : string) (w w' : World) :
  os_Mkdir env path w = (None, w') ->
  lookupPath (fs w') path = Some Directory /\ trace w' = trace w.
Proof.
  intros Hmk.
  destruct (os_Mkdir_cases env path w) as [[err Herr]|(Hne & out & Hwalk & Hfree & Hdone)];
    [congruence|].
  assert (Hw : w' = setFs (<[positionPath (HasPrefix path "/") out := Directory]> (fs w)) w)
    by congruence.
  subst w'. split; [|reflexivity].
  cbn [setFs fs]. unfold lookupPath. rewrite (resolve_walk _ _ Hne).
  destruct (dropTrailingEmpty_rest (splitOn "/" path)) as [k Hk].
  rewrite Hk, walk_app.
  assert (Hmap : fs w !! positionPath (HasPrefix path "/") out <> Some Directory)
    by (rewrite (entryAt_free _ _ _ Hfree); discriminate).
  assert (Hnew : entryAt (<[positionPath (HasPrefix path "/") out := Directory]> (fs w))
                   (HasPrefix path "/") out = Some Directory)
    by (apply entryAt_insert_here; rewrite Hfree; discriminate).
  rewrite (walk_insert _ _ _ _ _ _ _ Hmap Hwalk). cbv beta match.
  now rewrite (walk_empties _ _ _ k Hnew).
Qed.

(** X14.  [createDirectory] either makes the directory, after which
    [directoryExists] answers yes and [fileExists] no, or logs the one
    line of the error and leaves the files as they were; an entry that
    exists is never replaced.  (The check is read without outside
    failures of [os.Stat].) *)
Theorem createDirectory_outcome `{UnicodeTable} (env : Env) (path : string)
        (w : World) :
  sysFault env (SysStat path) = None ->
  ((Variant2.directoryExists env path (Variant2.createDirectory env path w) = true
    /\ fileExists env path (Variant2.createDirectory env path w) = false
    /\ trace (Variant2.createDirectory env path w) = trace w)
   \/ (exists err,
          Variant2.createDirectory env path w = emit (LogLine (err ++ nl)) w))
  /\ (forall p old,
         lookupPath (fs w) p = Some old ->
         lookupPath (fs (Variant2.createDirectory env path w)) p = Some old).
Proof.
  intros Hstat. split.
  - unfold Variant2.createDirectory.
    destruct (os_Mkdir env path w) as [[err|] w'] eqn:Hmk.
    + right. exists err.
      destruct (os_Mkdir_cases env path w) as [[err' Herr]|(_ & out & _ & _ & Hdone)];
        congruence.
    + left. destruct (os_Mkdir_done env path w w' Hmk) as [Hdir Htrace].
      unfold Variant2.directoryExists, fileExists, os_Stat. rewrite Hstat, Hdir.
      repeat split. exact Htrace.
  - intros p old Hold. unfold Variant2.createDirectory.
    pose proof (os_Mkdir_preserves env path p old w Hold) as Hkeep.
    now destruct (os_Mkdir env path w) as [[err|] w'].
Qed.

Lemma createDirectory_outcome_witness :
  Variant2.directoryExists (friendlyEnv "data") remoteFolder
    (Variant2.createDirectory (friendlyEnv "data") remoteFolder emptyWorld) = true
  /\ Variant2.createDirectory (friendlyEnv "data") remoteFolder fileInTheWay
     = emit (LogLine (pathError "mkdir" "Assets/" "file exists" ++ nl)) fileInTheWay
  /\ lookupPath (fs (Variant2.createDirectory (friendlyEnv "data") remoteFolder
                       fileInTheWay)) "Assets"
     = Some (RegularFile "").
Proof.
  split; [reflexivity | split; [reflexivity|]].
  apply (proj2 (@createDirectory_outcome noUnicode (friendlyEnv "data") remoteFolder
                  fileInTheWay eq_refl)).
  reflexivity.
Defined.

(** ** The requests of a whole run *)

Lemma fetchHTML_requests (env : Env) (url : string) (w : World) :
  exists events,
    trace (snd (fetchHTML env url w)) = (trace w ++ events)%list
    /\ forall req, In req (requestsOf events) -> req = pageGet url.
Proof.
  rewrite fetchHTML_cases.
  assert (Hone : forall req msg,
             In req (requestsOf [HttpSend (pageGet url); LogLine msg]) ->
             req = pageGet url)
    by (intros req msg [<-|[]]; reflexivity).
  destruct (urlParseError env url) as [err|].
  { eexists. split; [reflexivity|]. intros req []. }
  cbv zeta. destruct (roundTrip env (pageGet url)) as [err|resp].
  { eexists. split; [cbn [logPrintf emit trace snd]; now rewrite <- app_assoc|].
    intros req Hin. eapply Hone. exact Hin. }
  destruct (negb (StatusCode resp =? 200)%Z).
  { eexists. split; [cbn [logPrintf emit trace snd]; now rewrite <- app_assoc|].
    intros req Hin. eapply Hone. exact Hin. }
  destruct (BodyError resp) as [err|].
  { eexists. split; [cbn [logPrintf emit trace snd]; now rewrite <- app_assoc|].
    intros req Hin. eapply Hone. exact Hin. }
  exists [HttpSend (pageGet url)]. split; [reflexivity|].
  intros req [<-|[]]. reflexivity.
Qed.

Lemma filterFiles_kept (links : list string) (link : string) :
  In link (filterFiles links) -> isFileLink link = true.
Proof.
  unfold filterFiles. rewrite (filterFiles_loop links []). cbn [app].
  intros Hin. now apply filter_In in Hin.
Qed.

Lemma append_inv_head (front a b : string) : front ++ a = front ++ b -> a = b.
Proof.
  induction front as [|c front IH]; cbn [String.append]; [trivial|].
  intros [= Heq]. now apply IH.
Qed.

Lemma pageGet_not_plain (url url' : string) : pageGet url <> plainGet url'.
Proof. intros Heq. apply (f_equal Header) in Heq. discriminate Heq. Qed.

(** The requests of a run, each traced to a link of the fetched page
    that the filter keeps. *)
Lemma main_requests_kept `{UnicodeTable} (env : Env) (v : Variant) (w : World) :
  exists events,
    trace (snd (mainOf env v w)) = (trace w ++ events)%list
    /\ forall req,
        In req (requestsOf events) ->
        req = pageGet baseURL
        \/ exists node links link,
            fst (fetchHTML env baseURL w) = Some node
            /\ extractLinks (Some node) = Done links
            /\ In link (filterFiles links)
            /\ req = plainGet (baseURL ++ targetName v link).
Proof.
  destruct (fetchHTML_requests env baseURL w) as (fetched & Hfetch & Hpage).
  assert (Hloop : forall node w1,
             fst (fetchHTML env baseURL w) = Some node ->
             trace w1 = (trace w ++ fetched)%list \/
             (exists msg, trace w1 = (trace w ++ fetched ++ [LogLine msg])%list) ->
             exists events,
               trace (downloadAllOf env v (filterFiles (traverse node [])) w1)
               = (trace w ++ events)%list
               /\ forall req,
                   In req (requestsOf events) ->
                   req = pageGet baseURL
                   \/ exists node links link,
                       fst (fetchHTML env baseURL w) = Some node
                       /\ extractLinks (Some node) = Done links
                       /\ In link (filterFiles links)
                       /\ req = plainGet (baseURL ++ targetName v link)).
  { intros node w1 Hnode Hw1. rewrite downloadAllOf_fold.
    destruct (loop_requests env v (filterFiles (traverse node [])) w1)
      as (emitted & Htrace & _ & Hall).
    assert (Hlate : forall req, In req (requestsOf emitted) ->
                      req = pageGet baseURL
                      \/ exists node links link,
                          fst (fetchHTML env baseURL w) = Some node
                          /\ extractLinks (Some node) = Done links
                          /\ In link (filterFiles links)
                          /\ req = plainGet (baseURL ++ targetName v link)).
    { intros req Hin. right. destruct (Hall req Hin) as (link & Hlink & ->).
      exists node, (traverse node []), link. repeat split; assumption. }
    destruct Hw1 as [Hw1|[msg Hw1]]; rewrite Htrace, Hw1.
    - exists (fetched ++ emitted)%list. split; [now rewrite <- app_assoc|].
      intros req. rewrite requestsOf_app. intros [Hin|Hin]%in_app_or;
        [left; now apply Hpage | now apply Hlate].
    - exists (fetched ++ [LogLine msg] ++ emitted)%list.
      split; [now rewrite <- !app_assoc|].
      intros req. rewrite !requestsOf_app. intros [Hin|[Hin|Hin]%in_app_or]%in_app_or;
        [left; now apply Hpage | destruct Hin | now apply Hlate]. }
  destruct v; cbn [mainOf]; unfold Variant1.main, Variant2.main;
    destruct (fetchHTML env baseURL w) as [[node|] w1]; cbn [fst snd extractLinks] in *;
    try (exists fetched; split; [exact Hfetch | intros req Hin; left; now apply Hpage]).
  - pose proof (os_MkdirAll_trace env remoteFolder w1) as Hmk.
    destruct (os_MkdirAll env remoteFolder w1) as [[err|] w2]; cbn [snd] in *.
    + eexists (fetched ++ [LogLine _])%list. split.
      * cbn [emit trace]. rewrite Hmk, Hfetch. now rewrite <- app_assoc.
      * intros req. rewrite requestsOf_app. intros [Hin|[]]%in_app_or.
        left. now apply Hpage.
    + apply Hloop; [reflexivity|]. left. congruence.
  - apply Hloop; [reflexivity|].
    destruct (Variant2.directoryExists env remoteFolder w1); cbn [negb];
      [now left|].
    unfold Variant2.createDirectory.
    pose proof (os_Mkdir_trace env remoteFolder w1) as Hmk.
    destruct (os_Mkdir env remoteFolder w1) as [[err|] w2]; cbn [snd] in *.
    + right. exists (err ++ nl). cbn [emit trace]. rewrite Hmk, Hfetch.
      now rewrite <- app_assoc.
    + left. congruence.
Qed.

(** X15.  Whatever a run of [main] sends is the one GET for the page,
    with its two headers, or a plain GET for the base URL followed by
    the target name of a link that [extractLinks] has found in the
    fetched page and that [filterFiles] has kept, so one that neither
    starts nor ends with a slash.  A link the filter drops causes no
    request: the target name of a dropped link is requested only when a
    kept link of the page has the same target name, which cannot happen
    in the first variant, where the target name is the link itself.  On
    the sample page the link [/skip/] is dropped: the second variant
    requests the other two links, the first only [notes.txt], since
    [x.pdf] stops at its extension gate. *)
Theorem main_requests `{UnicodeTable} (env : Env) (v : Variant) (w : World) :
  exists events,
    trace (snd (mainOf env v w)) = (trace w ++ events)%list
    /\ (forall req,
           In req (requestsOf events) ->
           req = pageGet baseURL
           \/ exists node links link,
               fst (fetchHTML env baseURL w) = Some node
               /\ extractLinks (Some node) = Done links
               /\ In link (filterFiles links)
               /\ isFileLink link = true
               /\ req = plainGet (baseURL ++ targetName v link))
    /\ (forall dropped,
           isFileLink dropped = false ->
           In (plainGet (baseURL ++ targetName v dropped)) (requestsOf events) ->
           exists node links kept,
             fst (fetchHTML env baseURL w) = Some node
             /\ extractLinks (Some node) = Done links
             /\ In kept (filterFiles links)
             /\ targetName v kept = targetName v dropped)
    /\ (v = First ->
        forall dropped,
          isFileLink dropped = false ->
          ~ In (plainGet (baseURL ++ dropped)) (requestsOf events))
    /\ (extractLinks (Some samplePage) = Done ["x.pdf"; "/skip/"; "notes.txt"]
        /\ requestsOf (trace (snd (@Variant1.main noUnicode (friendlyEnv "data")
                                     emptyWorld)))
           = [pageGet baseURL; plainGet (baseURL ++ "notes.txt")]
        /\ requestsOf (trace (snd (@Variant2.main noUnicode (friendlyEnv "data")
                                     emptyWorld)))
           = [pageGet baseURL; plainGet (baseURL ++ "x_pdf.pdf");
              plainGet (baseURL ++ "notes_txt.pdf")]).
Proof.
  destruct (main_requests_kept env v w) as (events & Htrace & Hreq).
  assert (Hdropped : forall dropped,
             isFileLink dropped = false ->
             In (plainGet (baseURL ++ targetName v dropped)) (requestsOf events) ->
             exists node links kept,
               fst (fetchHTML env baseURL w) = Some node
               /\ extractLinks (Some node) = Done links
               /\ In kept (filterFiles links)
               /\ targetName v kept = targetName v dropped).
  { intros dropped _ Hin.
    destruct (Hreq _ Hin) as [Hpage|(node & links & kept & Hnode & Hlinks & Hkept & Heq)].
    - symmetry in Hpage. now apply pageGet_not_plain in Hpage.
    - exists node, links, kept. repeat split; try assumption.
      apply (f_equal URL) in Heq. cbn [plainGet URL] in Heq.
      symmetry. now apply append_inv_head in Heq. }
  exists events. split; [exact Htrace|]. split; [|split; [exact Hdropped|split]].
  - intros req Hin.
    destruct (Hreq req Hin) as [Hpage|(node & links & link & Hnode & Hlinks & Hkept & Heq)];
      [now left|].
    right. exists node, links, link. repeat split; try assumption.
    now apply filterFiles_kept in Hkept.
  - intros -> dropped Hno Hin.
    destruct (Hdropped dropped Hno Hin) as (node & links & kept & _ & _ & Hkept & Heq).
    cbn [targetName] in Heq. subst kept.
    apply filterFiles_kept in Hkept. congruence.
  - repeat split.
Qed.
